(** * StorageMeter: a shallow embedding of [StorageMeter.cpp]

    The program measures the sequential write throughput of a volume
    with an increasing number of writer threads.  This development
    embeds its functions ([InitPortionWithRandomData], [WriteTestFile],
    [TestDriveWriteFirst], [CalculateSpeed], [TestDriveWrite]) and
    proves the properties of its specification about them.  It also
    embeds [StopWatch::NanosecondsToMsString], [GetFileNameForThread],
    [TestDriveRead] and [TestDrive], and proves further properties of
    the code.  Not embedded: [FormatSpeed] and [FormatSize] (the text
    [std::to_string] makes of a floating-point number is the work of
    the C runtime) and [main] (console, [std::filesystem], [system]).

    Modelling conventions.
    - [size_t] and [uint64_t] are 64-bit (the x64 target of the MSVC
      tool chain the source is written for: [fopen_s], ["x:\temp"]);
      their wrap-around is written out with [u64].
    - [float] is IEEE-754 binary32, evaluated operation by operation
      with round-to-nearest-even: the operations are those of the
      Standard Library's [SpecFloat] at precision 24 and [emax] 128.
    - The C runtime and the clock are oracles: what [fopen_s],
      [fwrite] and [fclose] return and how long each call takes is
      given by a [FileOracle]; what [rand()] returns is a function of
      the call number.
    - The file is opened with mode ["w"]: a text stream, which on this
      target writes every byte 0x0A as the two bytes 0x0D 0x0A.  The
      bytes [fwrite] reports as transferred are those the stream has
      accepted ([written]); what the file holds once the handle is
      closed ([on_disk]) is their text form, or a part of it when the
      flush of [fclose] fails.
    - [dirPath / name] of [std::filesystem::path] follows the rules of
      this target for a [name] without root: the separator is inserted
      unless [dirPath] is empty, ends with a separator or is a bare
      drive.
    - Every writer thread of a trial has an oracle of its own; the
      driver reads the results only after it has joined all threads,
      so the interleaving of the threads is not observable in the
      values the driver computes.
    - Memory is never short and every thread starts: a failed
      allocation ([std::bad_alloc] from [resize], from the vectors of a
      trial or from a string) and a failed start of a thread are not
      part of the model. *)

From Stdlib Require Import ZArith List String Ascii Bool Lia.
From Stdlib Require Import SpecFloat DecimalString.
From Stdlib Require DecimalPos DecimalZ.
From Stdlib Require Import Reals Lra.
Import ListNotations.

Local Open Scope Z_scope.

(* ===================================================================== *)
(** ** Machine integers *)

Definition u64 (x : Z) : Z := x mod 2 ^ 64.
Definition u8 (x : Z) : Z := x mod 2 ^ 8.

(** [std::to_string] on an integer. *)
Definition to_string (n : Z) : string :=
  NilZero.string_of_int (Z.to_int n).

(* ===================================================================== *)
(** ** Outcomes *)

(** How a driver function ends: it returns, an exception leaves it, or
    it runs into undefined behaviour (an integer division by zero, a
    float converted to an integer type that cannot hold it, a store
    outside the vector). *)
Inductive run (A : Type) : Type :=
| Returns (a : A)
| Throws (what : string)
| Undefined.
Arguments Returns {A} a.
Arguments Throws {A} what.
Arguments Undefined {A}.

(* ===================================================================== *)
(** ** Single-precision floats *)

Definition prec : Z := 24.
Definition emax : Z := 128.

Definition float : Type := spec_float.

(** [static_cast<float>(n)] for an integer [n]. *)
Definition f32_of_Z (n : Z) : float := binary_normalize prec emax n 0 false.

Definition f32_div (x y : float) : float := SFdiv prec emax x y.
Definition f32_mul (x y : float) : float := SFmul prec emax x y.
Definition f32_ltb (x y : float) : bool := SFltb x y.

(** [static_cast<size_t>(f)]: truncation toward zero; [None] when the
    value is not representable in [size_t] (undefined behaviour). *)
Definition f32_to_size_t (f : float) : option Z :=
  match f with
  | S754_zero _ => Some 0
  | S754_finite s m e =>
      let v := if 0 <=? e then Zpos m * 2 ^ e else Zpos m / 2 ^ (- e) in
      if s then (if v =? 0 then Some 0 else None)
      else if v <? 2 ^ 64 then Some v else None
  | _ => None
  end.

(* ===================================================================== *)
(** ** Constants of the program *)

Definition g_portionSize : Z := 104857600.
Definition g_portionsCount : Z := 10.
Definition g_maxTestDuration : float := f32_of_Z 2.
Definition g_maxSlowTests : Z := 2.

(** [sizeof(decltype(rand()))], that is [sizeof(int)]. *)
Definition sizeOfRand : Z := 4.

(* ===================================================================== *)
(** ** The portion: [std::vector<uint8_t>] *)

Definition Portion : Type := list Z.

Definition size (portion : Portion) : Z := Z.of_nat (List.length portion).

(** [portion.resize(n)]: keeps the first [n] bytes, pads with zeros. *)
Definition resize (n : Z) (portion : Portion) : Portion :=
  firstn (Z.to_nat n) portion
    ++ repeat 0 (Z.to_nat n - List.length portion)%nat.

(** Byte [k] of the object representation of an [int] (little endian,
    two's complement). *)
Definition byte_of_int (v k : Z) : Z := (v / 256 ^ k) mod 256.

Fixpoint int_bytes (v : Z) (n : nat) (k : Z) : list Z :=
  match n with
  | O => []
  | S n' => byte_of_int v k :: int_bytes v n' (k + 1)
  end.

(** [reinterpret_cast<int&>(portion[off]) = v]: overwrites [width] bytes
    from offset [off]; [None] when they are not all inside the vector. *)
Definition store_int (width : Z) (portion : Portion) (off v : Z)
  : option Portion :=
  if (0 <=? off) && (off + width <=? size portion) then
    Some (firstn (Z.to_nat off) portion
            ++ int_bytes v (Z.to_nat width) 0
            ++ skipn (Z.to_nat (off + width)) portion)
  else None.

(** The fill loop of [InitPortionWithRandomData]; [count] is the number
    of iterations left, [i] the loop variable.  [rand i] is the value of
    the call to [rand()] in iteration [i]. *)
Fixpoint fill_loop (rand : Z -> Z) (width : Z) (count : nat) (i : Z)
  (portion : Portion) : run Portion :=
  match count with
  | O => Returns portion
  | S count' =>
      match store_int width portion (i * width) (rand i) with
      | Some portion' => fill_loop rand width count' (i + 1) portion'
      | None => Undefined
      end
  end.

Definition InitPortionWithRandomData (rand : Z -> Z) (portion : Portion)
  : run Portion :=
  let portion := @nil Z in
  let portion := resize g_portionSize portion in
  fill_loop rand sizeOfRand (Z.to_nat (g_portionSize / sizeOfRand)) 0 portion.

(* ===================================================================== *)
(** ** The C runtime seen by one call of [WriteTestFile] *)

(** What the environment answers during one call: the [errno_t] that
    [fopen_s] returns and whether it leaves the [FILE*] null, the value
    of the [i]-th [fwrite], the value of [fclose] (0, or [EOF] when the
    flush fails) and the number of bytes that have reached the file
    when it fails, the clock reading at entry and the time each library
    call takes (nanoseconds of the [high_resolution_clock], which may
    be negative when the clock is set back). *)
Record FileOracle : Type := mkFileOracle {
  clock0 : Z;
  fopen_errno : Z;
  fopen_null : bool;
  fopen_ns : Z;
  fwrite_ret : Z -> Z;
  fwrite_ns : Z -> Z;
  fclose_ns : Z;
  fclose_ret : Z;
  fclose_flushed : Z
}.

Inductive Event : Type :=
| EvOpen (path : string) (t : Z)
| EvWatchStart (t : Z)
| EvWrite (i requested transferred t : Z)
| EvWatchStop (t : Z)
| EvClose (t : Z).

(** [now] is the clock, [written] the bytes the stream has accepted
    (what the calls of [fwrite] reported as transferred), [on_disk] the
    bytes the file holds once the handle is closed, [is_open] whether
    the handle is open, [events] the calls made so far, each with the
    clock reading when it returned. *)
Record World : Type := mkWorld {
  now : Z;
  written : list Z;
  on_disk : list Z;
  is_open : bool;
  events : list Event
}.

Definition oracle_world (o : FileOracle) : World :=
  mkWorld (clock0 o) [] [] false [].

(** The bytes a text stream of this target writes for the bytes it is
    given: a line feed becomes carriage return, line feed. *)
Definition text_stream (bytes : list Z) : list Z :=
  flat_map (fun b => if b =? 10 then [13; 10] else [b]) bytes.

Inductive result (A : Type) : Type :=
| Ok (a : A)
| Throw (what : string).
Arguments Ok {A} a.
Arguments Throw {A} what.

(** State and exceptions: the world survives a [throw]. *)
Definition M (A : Type) : Type := World -> result A * World.

Definition ret {A : Type} (a : A) : M A := fun w => (Ok a, w).

Definition throw {A : Type} (what : string) : M A := fun w => (Throw what, w).

Definition bind {A B : Type} (c : M A) (k : A -> M B) : M B :=
  fun w =>
    match c w with
    | (Ok a, w') => k a w'
    | (Throw what, w') => (Throw what, w')
    end.

Declare Scope io_scope.
Delimit Scope io_scope with io.
Notation "x <- c ;; k" := (bind c (fun x => k))
  (at level 61, c at next level, right associativity) : io_scope.
Notation "c ;;; k" := (bind c (fun _ => k))
  (at level 61, right associativity) : io_scope.

Definition log_event (e : Event) (w : World) : World :=
  mkWorld (now w) (written w) (on_disk w) (is_open w) (events w ++ [e]).

(** [fopen_s(&file, path, "w")]: returns the error code and whether
    [file] is null; an opened file is created or truncated. *)
Definition fopen_s (o : FileOracle) (path : string) : M (Z * bool) :=
  fun w =>
    let t := now w + fopen_ns o in
    (Ok (fopen_errno o, fopen_null o),
     log_event (EvOpen path t)
       (mkWorld t
          (if fopen_null o then written w else [])
          (if fopen_null o then on_disk w else [])
          (negb (fopen_null o))
          (events w))).

(** The [i]-th [fwrite(portion.data(), 1, portion.size(), file)]: the
    stream accepts the first [fwrite_ret o i] bytes of the portion.
    They are buffered or written by the runtime; what has reached the
    file is known when the handle is closed. *)
Definition fwrite (o : FileOracle) (i : Z) (portion : Portion) : M Z :=
  fun w =>
    let res := fwrite_ret o i in
    let t := now w + fwrite_ns o i in
    (Ok res,
     log_event (EvWrite i (size portion) res t)
       (mkWorld t (written w ++ firstn (Z.to_nat res) portion) (on_disk w)
          (is_open w) (events w))).

(** [fclose(file)]: flushes the stream and closes the handle.  When it
    returns 0 the file holds the text form of all the bytes the stream
    accepted; otherwise the flush failed and the file holds the first
    [fclose_flushed o] bytes of it. *)
Definition fclose (o : FileOracle) : M Z :=
  fun w =>
    let t := now w + fclose_ns o in
    let content := text_stream (written w) in
    (Ok (fclose_ret o),
     log_event (EvClose t)
       (mkWorld t (written w)
          (if fclose_ret o =? 0 then content
           else firstn (Z.to_nat (fclose_flushed o)) content)
          false (events w))).

(** [StopWatch]: the object is its [m_start]. *)
Definition StopWatch : Type := Z.

Definition StopWatch_new : M StopWatch :=
  fun w => (Ok (now w), log_event (EvWatchStart (now w)) w).

Definition StopWatch_Stop (watch : StopWatch) : M Z :=
  fun w => (Ok (now w - watch), log_event (EvWatchStop (now w)) w).

(* ===================================================================== *)
(** ** [WriteTestFile] *)

Local Open Scope string_scope.

Definition create_failed (path : string) (err : Z) : string :=
  "Failed to create file " ++ path ++ ", errno=" ++ to_string err.

Definition write_failed (path : string) (i : Z) : string :=
  "Failed to write portion " ++ to_string i ++ " to file " ++ path.

Local Close Scope string_scope.
Local Open Scope io_scope.

(** The [for] loop of [WriteTestFile]: [count] iterations are left and
    [i] is the loop variable. *)
Fixpoint write_loop (o : FileOracle) (path : string) (portion : Portion)
  (count : nat) (i : Z) : M unit :=
  match count with
  | O => ret tt
  | S count' =>
      res <- fwrite o i portion ;;
      if negb (res =? size portion) then
        fclose o ;;; throw (write_failed path i)
      else write_loop o path portion count' (i + 1)
  end.

Definition WriteTestFile (o : FileOracle) (path : string) (portion : Portion)
  : M Z :=
  opened <- fopen_s o path ;;
  let '(err, file_null) := opened in
  if negb (err =? 0) || file_null then throw (create_failed path err)
  else
    watch <- StopWatch_new ;;
    write_loop o path portion (Z.to_nat g_portionsCount) 0 ;;;
    res <- StopWatch_Stop watch ;;
    fclose o ;;;
    ret res.

Local Close Scope io_scope.

(** [dirPath / name] of [std::filesystem::path], for a [name] that has
    no root name and no root directory (as ["single_thread"] and the
    names of [GetFileNameForThread]): the preferred separator, a
    backslash, is inserted between the two unless [dirPath] is empty,
    ends with a separator, or is a bare drive such as ["x:"]. *)
Definition is_slash (c : ascii) : bool :=
  (nat_of_ascii c =? 92)%nat || (nat_of_ascii c =? 47)%nat.

Definition is_letter (c : ascii) : bool :=
  ((65 <=? nat_of_ascii c) && (nat_of_ascii c <=? 90))%nat
  || ((97 <=? nat_of_ascii c) && (nat_of_ascii c <=? 122))%nat.

Fixpoint ends_with_slash (s : string) : bool :=
  match s with
  | EmptyString => false
  | String c EmptyString => is_slash c
  | String _ rest => ends_with_slash rest
  end.

Definition is_bare_drive (s : string) : bool :=
  match s with
  | String c (String colon EmptyString) =>
      is_letter c && (nat_of_ascii colon =? 58)%nat
  | _ => false
  end.

Definition needs_separator (dirPath : string) : bool :=
  match dirPath with
  | EmptyString => false
  | _ => negb (ends_with_slash dirPath) && negb (is_bare_drive dirPath)
  end.

Definition path_append (dirPath name : string) : string :=
  if needs_separator dirPath
  then (dirPath ++ String (ascii_of_nat 92) name)%string
  else (dirPath ++ name)%string.

Definition GetFileNameForThread (threadNumber : Z) : string :=
  ("thread" ++ to_string (u64 (threadNumber + 1)))%string.

(* ===================================================================== *)
(** ** The driver *)

(** The portion is passed by reference and may be resized: the model
    returns it next to the duration. *)
Definition TestDriveWriteFirst (o : FileOracle) (dirPath : string)
  (portion : Portion) : run (Z * Portion) :=
  match fst (WriteTestFile o (path_append dirPath "single_thread") portion
               (oracle_world o)) with
  | Throw what => Throws what
  | Ok firstWriteTime =>
      let firstWriteTimeSeconds :=
        f32_div (f32_of_Z firstWriteTime) (f32_of_Z (1000 * 1000 * 1000)) in
      if f32_ltb g_maxTestDuration firstWriteTimeSeconds then
        let prefferedPortionSize :=
          f32_mul (f32_div g_maxTestDuration firstWriteTimeSeconds)
            (f32_of_Z (size portion)) in
        match f32_to_size_t prefferedPortionSize with
        | Some n => Returns (firstWriteTime, resize n portion)
        | None => Undefined
        end
      else Returns (firstWriteTime, portion)
  end.

Definition CalculateSpeed (portion : Portion) (threadsCount ns : Z) : float :=
  f32_div
    (f32_of_Z
       (u64 (u64 (size portion * g_portionsCount) * threadsCount)
          / 1024 / 1024))
    (f32_div (f32_div (f32_div (f32_of_Z ns) (f32_of_Z 1000)) (f32_of_Z 1000))
       (f32_of_Z 1000)).

(** *** One trial: the threads and their join *)

(** The body of the thread lambda, without its [catch]. *)
Definition thread_body (o : FileOracle) (dirPath : string)
  (portion : Portion) (threadNumber : Z) : result Z :=
  fst (WriteTestFile o
         (path_append dirPath (GetFileNameForThread threadNumber)) portion
         (oracle_world o)).

(** What the thread leaves in [results[threadNumber]]: the duration, or
    the initial zero when the exception was caught. *)
Definition thread_result (r : result Z) : Z :=
  match r with
  | Ok d => u64 d
  | Throw _ => 0
  end.

Definition thread_failed (r : result Z) : bool :=
  match r with
  | Ok _ => false
  | Throw _ => true
  end.

(** [results] and [bad] once every thread has been joined. *)
Record Joined : Type := mkJoined {
  results : list Z;
  bad : bool
}.

Definition thread_numbers (threadsCount : Z) : list Z :=
  map Z.of_nat (seq 0 (Z.to_nat threadsCount)).

Definition run_threads (body : Z -> result Z) (threadsCount : Z) : Joined :=
  let outs := map body (thread_numbers threadsCount) in
  mkJoined (map thread_result outs) (existsb thread_failed outs).

(** The join loop adds the results up in [uint64_t]. *)
Definition sum_results (results : list Z) : Z :=
  fold_left (fun acc r => u64 (acc + r)) results 0.

Inductive TrialOutcome : Type :=
| TrialBad (results : list Z)
| TrialUndefined
| TrialSpeed (results : list Z) (currentWriteTime : Z) (currentSpeed : float).

(** From the joins to [currentSpeed]: lines 163 to 178 of the source.
    The unused [speed] of line 177 only matters through its division. *)
Definition finish_trial (portion : Portion) (threadsCount : Z) (j : Joined)
  : TrialOutcome :=
  let currentWriteTime := sum_results (results j) in
  if bad j then TrialBad (results j)
  else if threadsCount =? 0 then TrialUndefined
  else
    let currentWriteTime := currentWriteTime / threadsCount in
    if currentWriteTime =? 0 then TrialUndefined
    else
      TrialSpeed (results j) currentWriteTime
        (CalculateSpeed portion threadsCount currentWriteTime).

(** *** The sweep *)

Inductive LogEntry : Type :=
| LogBad (threadsCount : Z) (results : list Z)
| LogTrial (threadsCount : Z) (results : list Z) (currentWriteTime : Z)
    (currentSpeed lastSpeed : float) (slowBefore slowAfter : Z).

(** The [while] loop of [TestDriveWrite] over the trial at each thread
    count.  The result is [None] when the fuel ends inside the loop; the
    log has one entry per trial run, oldest first. *)
Fixpoint sweep_loop (trial : Z -> TrialOutcome) (fuel : nat)
  (slowTests threadsCount : Z) (lastSpeed : float)
  : option (run Z) * list LogEntry :=
  if slowTests <? g_maxSlowTests then
    match fuel with
    | O => (None, [])
    | S fuel' =>
        match trial threadsCount with
        | TrialBad res => (Some (Returns threadsCount), [LogBad threadsCount res])
        | TrialUndefined => (Some Undefined, [])
        | TrialSpeed res currentWriteTime currentSpeed =>
            let slowTests' :=
              if f32_ltb currentSpeed lastSpeed then u8 (slowTests + 1)
              else 0 in
            let '(r, log) :=
              sweep_loop trial fuel' slowTests' (u64 (threadsCount + 1))
                currentSpeed in
            (r, LogTrial threadsCount res currentWriteTime currentSpeed
                  lastSpeed slowTests slowTests' :: log)
        end
    end
  else (Some (Returns (u64 (threadsCount - 1))), []).

(** The environment of a whole run. *)
Record Env : Type := mkEnv {
  rand : Z -> Z;
  first_oracle : FileOracle;
  thread_oracle : Z -> Z -> FileOracle
}.

Definition run_trial (env : Env) (dirPath : string) (portion : Portion)
  (threadsCount : Z) : TrialOutcome :=
  finish_trial portion threadsCount
    (run_threads
       (fun threadNumber =>
          thread_body (thread_oracle env threadsCount threadNumber) dirPath
            portion threadNumber)
       threadsCount).

(** Sequencing in the driver: an exception or undefined behaviour in
    [c] ends the driver before any trial of the sweep. *)
Definition and_then {A : Type} (c : run A)
  (k : A -> option (run Z) * list LogEntry)
  : option (run Z) * list LogEntry :=
  match c with
  | Returns a => k a
  | Throws what => (Some (Throws what), [])
  | Undefined => (Some Undefined, [])
  end.

Definition TestDriveWrite (env : Env) (dirPath : string) (fuel : nat)
  : option (run Z) * list LogEntry :=
  and_then (InitPortionWithRandomData (rand env) []) (fun portion =>
  and_then (TestDriveWriteFirst (first_oracle env) dirPath portion)
    (fun calibrated =>
       let '(firstWriteTime, portion) := calibrated in
       let lastWriteTime := u64 firstWriteTime in
       let lastSpeed := CalculateSpeed portion 1 lastWriteTime in
       sweep_loop (run_trial env dirPath portion) fuel 0 2 lastSpeed)).

(* ===================================================================== *)
(** ** Reporting, and the caller of the driver *)

Local Open Scope string_scope.

(** [StopWatch::NanosecondsToMsString(uint64_t)]. *)
Definition NanosecondsToMsString (ns : Z) : string :=
  to_string (ns / 1000000) ++ " ms".

(** The overload on [std::chrono::nanoseconds]: [ns.count()] is a signed
    64-bit count, converted to the [uint64_t] parameter of the other
    overload. *)
Definition NanosecondsToMsString_ns (ns : Z) : string :=
  NanosecondsToMsString (u64 ns).

(** [TestDriveRead] has an empty body. *)
Definition TestDriveRead (dirPath : string) (maxThreadsTested : Z) : unit :=
  tt.

(** The [try] block of [TestDrive] and its handler, on what
    [TestDriveWrite] ended with: the way [TestDrive] ends, and what its
    handler writes to [std::cerr]. *)
Definition TestDrive_handle (dirPath : string) (r : option (run Z))
  : option (run unit) * list string :=
  match r with
  | None => (None, [])
  | Some (Returns maxThreadsTested) =>
      (Some (Returns (TestDriveRead dirPath maxThreadsTested)), [])
  | Some (Throws what) => (Some (Returns tt), ["TestDrive failed: " ++ what])
  | Some Undefined => (Some Undefined, [])
  end.

Definition TestDrive (env : Env) (dirPath : string) (fuel : nat)
  : option (run unit) * list string :=
  TestDrive_handle dirPath (fst (TestDriveWrite env dirPath fuel)).

Local Close Scope string_scope.

(* ===================================================================== *)
(** ** Observations on a run of [WriteTestFile] *)

(** Byte [k] of a portion. *)
Definition byte_at (portion : Portion) (k : Z) : Z :=
  nth (Z.to_nat k) portion 0.

(** The first of the [count] writes from number [i] on that does not
    transfer [sz] bytes. *)
Fixpoint first_short (o : FileOracle) (sz : Z) (count : nat) (i : Z)
  : option Z :=
  match count with
  | O => None
  | S count' =>
      if fwrite_ret o i =? sz then first_short o sz count' (i + 1)
      else Some i
  end.

(** The time the [count] writes from number [i] on take together. *)
Fixpoint write_time (o : FileOracle) (count : nat) (i : Z) : Z :=
  match count with
  | O => 0
  | S count' => fwrite_ns o i + write_time o count' (i + 1)
  end.

(** The events of [count] complete writes of [sz] bytes from number [i]
    on, the first one starting at clock reading [t]. *)
Fixpoint write_events (o : FileOracle) (sz : Z) (count : nat) (i t : Z)
  : list Event :=
  match count with
  | O => []
  | S count' =>
      EvWrite i sz sz (t + fwrite_ns o i)
        :: write_events o sz count' (i + 1) (t + fwrite_ns o i)
  end.

Definition is_write (e : Event) : bool :=
  match e with
  | EvWrite _ _ _ _ => true
  | _ => false
  end.

(** The number of [fwrite] calls made. *)
Definition writes_made (w : World) : Z :=
  Z.of_nat (List.length (filter is_write (events w))).

(** The clock reading at which the stopwatch was started, and the one at
    which [fclose] returned. *)
Definition watch_started (w : World) : option Z :=
  match filter (fun e => match e with EvWatchStart _ => true | _ => false end)
          (events w) with
  | EvWatchStart t :: _ => Some t
  | _ => None
  end.

Definition file_closed (w : World) : option Z :=
  match filter (fun e => match e with EvClose _ => true | _ => false end)
          (events w) with
  | EvClose t :: _ => Some t
  | _ => None
  end.

(** Whether [fopen_s] fails in the sense of the test of [WriteTestFile]. *)
Definition open_fails (o : FileOracle) : bool :=
  negb (fopen_errno o =? 0) || fopen_null o.

(** What [WriteTestFile] returns or throws, from the oracle and the size
    of the portion alone. *)
Definition WriteTestFile_outcome (o : FileOracle) (path : string) (sz : Z)
  : result Z :=
  if open_fails o then Throw (create_failed path (fopen_errno o))
  else
    match first_short o sz (Z.to_nat g_portionsCount) 0 with
    | Some i => Throw (write_failed path i)
    | None => Ok (write_time o (Z.to_nat g_portionsCount) 0)
    end.

(** The world a successful call leaves behind. *)
Definition world_after_success (o : FileOracle) (path : string)
  (p : Portion) (w : World) : World :=
  let t0 := now w + fopen_ns o in
  let t1 := t0 + write_time o (Z.to_nat g_portionsCount) 0 in
  mkWorld (t1 + fclose_ns o)
    (List.concat (repeat p (Z.to_nat g_portionsCount)))
    (if fclose_ret o =? 0
     then text_stream (List.concat (repeat p (Z.to_nat g_portionsCount)))
     else firstn (Z.to_nat (fclose_flushed o))
            (text_stream (List.concat (repeat p (Z.to_nat g_portionsCount)))))
    false
    (((events w ++ [EvOpen path t0]) ++ [EvWatchStart t0])
       ++ write_events o (size p) (Z.to_nat g_portionsCount) 0 t0
       ++ [EvWatchStop t1; EvClose (t1 + fclose_ns o)]).

(** The statement of the specification about the measured interval:
    the duration returned is the time from the start of the stopwatch
    to the return of [fclose]. *)
Definition duration_covers_close (o : FileOracle) (path : string)
  (portion : Portion) : Prop :=
  forall d w',
    WriteTestFile o path portion (oracle_world o) = (Ok d, w') ->
    exists t0 t2,
      watch_started w' = Some t0 /\ file_closed w' = Some t2 /\ d = t2 - t0.

(* ===================================================================== *)
(** ** The driver as a function of the size of the portion *)

(** The driver reads the portion only through [portion.size()]; the
    definitions below are the ones above with the size in place of the
    vector.  They are proved equal to them and serve to evaluate runs
    without building the 100 MiB vector. *)

Definition seconds_of (firstWriteTime : Z) : float :=
  f32_div (f32_of_Z firstWriteTime) (f32_of_Z (1000 * 1000 * 1000)).

(** The size [TestDriveWriteFirst] leaves the portion with; [None] is
    the undefined conversion. *)
Definition calibrated_size (sz firstWriteTime : Z) : option Z :=
  if f32_ltb g_maxTestDuration (seconds_of firstWriteTime) then
    f32_to_size_t
      (f32_mul (f32_div g_maxTestDuration (seconds_of firstWriteTime))
         (f32_of_Z sz))
  else Some sz.

Definition speed_of_size (sz threadsCount ns : Z) : float :=
  f32_div
    (f32_of_Z (u64 (u64 (sz * g_portionsCount) * threadsCount) / 1024 / 1024))
    (f32_div (f32_div (f32_div (f32_of_Z ns) (f32_of_Z 1000)) (f32_of_Z 1000))
       (f32_of_Z 1000)).

Definition trial_of_size (env : Env) (dirPath : string) (sz threadsCount : Z)
  : TrialOutcome :=
  let j :=
    run_threads
      (fun threadNumber =>
         WriteTestFile_outcome (thread_oracle env threadsCount threadNumber)
           (path_append dirPath (GetFileNameForThread threadNumber)) sz)
      threadsCount in
  if bad j then TrialBad (results j)
  else if threadsCount =? 0 then TrialUndefined
  else
    let currentWriteTime := sum_results (results j) / threadsCount in
    if currentWriteTime =? 0 then TrialUndefined
    else
      TrialSpeed (results j) currentWriteTime
        (speed_of_size sz threadsCount currentWriteTime).

Definition TestDriveWrite_of_size (env : Env) (dirPath : string) (fuel : nat)
  : option (run Z) * list LogEntry :=
  match WriteTestFile_outcome (first_oracle env)
          (path_append dirPath "single_thread") g_portionSize with
  | Throw what => (Some (Throws what), [])
  | Ok firstWriteTime =>
      match calibrated_size g_portionSize firstWriteTime with
      | None => (Some Undefined, [])
      | Some sz =>
          sweep_loop (trial_of_size env dirPath sz) fuel 0 2
            (speed_of_size sz 1 (u64 firstWriteTime))
      end
  end.

(** ** The throughput sequence of a sweep *)

(** [v n] is the throughput at thread count [n] ([v 1] is the one of the
    calibration run); the trial at [j] regresses when its throughput is
    below the one before. *)
Definition regresses (v : Z -> float) (j : Z) : bool :=
  (2 <=? j) && f32_ltb (v j) (v (j - 1)).

(** The rule of the loop body for [slowTests] and [lastSpeed], read off
    the log: every entry starts from the state the entry before left. *)
Fixpoint log_follows_rule (slowTests threadsCount : Z) (lastSpeed : float)
  (log : list LogEntry) : Prop :=
  match log with
  | [] => True
  | LogBad n _ :: rest => n = threadsCount /\ rest = []
  | LogTrial n _ _ currentSpeed last slowBefore slowAfter :: rest =>
      n = threadsCount /\ last = lastSpeed /\ slowBefore = slowTests /\
      slowAfter =
        (if f32_ltb currentSpeed lastSpeed then slowTests + 1 else 0) /\
      log_follows_rule slowAfter (u64 (threadsCount + 1)) currentSpeed rest
  end.

Definition b2z (b : bool) : Z := if b then 1 else 0.

(** The trial at [j] is the second of two regressions in a row. *)
Definition second_regression (v : Z -> float) (j : Z) : bool :=
  regresses v j && regresses v (j - 1).

(** ** The calibration as the specification words it *)

(** With the elapsed time [ns] in nanoseconds, [elapsedSeconds] is
    [ns / 10^9]: the block is shrunk to
    [floor (currentSize * (2.0 / elapsedSeconds))] when the elapsed time
    exceeds 2.0 s and is left unchanged otherwise. *)
Definition claimed_calibrated_size (sz ns : Z) : Z :=
  if 2 * 1000000000 <? ns then sz * (2 * 1000000000) / ns else sz.

(** The statement of the specification about calibration. *)
Definition calibration_as_claimed : Prop :=
  forall (o : FileOracle) (dirPath : string) (p p' : Portion) (t : Z),
    TestDriveWriteFirst o dirPath p = Returns (t, p') ->
    size p' = claimed_calibrated_size (size p) t.

(** ** The throughput as the specification words it *)

(** [(blockSize * 10 * N) / averageSeconds] in MB/s, as a fraction:
    numerator and denominator of [bytes / 2^20 / (ns / 10^9)]. *)
Definition claimed_speed_num (sz threadsCount : Z) : Z :=
  sz * g_portionsCount * threadsCount * 1000000000.

Definition claimed_speed_den (ns : Z) : Z := 1024 * 1024 * ns.

(* ===================================================================== *)
(** ** Further observations *)

Definition is_close (e : Event) : bool :=
  match e with
  | EvClose _ => true
  | _ => false
  end.

(** The number of [fclose] calls made. *)
Definition closes_made (w : World) : Z :=
  Z.of_nat (List.length (filter is_close (events w))).

(** The thread count of the trial a log entry is about. *)
Definition entry_threads (e : LogEntry) : Z :=
  match e with
  | LogBad threadsCount _ => threadsCount
  | LogTrial threadsCount _ _ _ _ _ _ => threadsCount
  end.

(** The thread counts [n], [n + 1], ..., [k] of them. *)
Definition counts_from (n : Z) (k : nat) : list Z :=
  map (fun i => n + Z.of_nat i) (seq 0 k).

Definition entry_failed (e : LogEntry) : bool :=
  match e with
  | LogBad _ _ => true
  | LogTrial _ _ _ _ _ _ _ => false
  end.

(** The sum of a list of durations, without wrap-around. *)
Definition total (results : list Z) : Z := fold_right Z.add 0 results.

(** A float that is a number: not a NaN. *)
Definition is_number (f : float) : bool :=
  match f with
  | S754_nan => false
  | _ => true
  end.

(** A float that is zero or a positive number below infinity. *)
Definition finite_nonneg (f : float) : bool :=
  match f with
  | S754_zero false => true
  | S754_finite false _ _ => true
  | _ => false
  end.

(** [x <= y] on [float]. *)
Definition f32_leb (x y : float) : bool := SFleb x y.

(** ** The log and the trials *)

(** Every entry of the log is the outcome of the trial at its thread
    count: the throughput logged is the one the trial reported. *)
Fixpoint log_of_trials (trial : Z -> TrialOutcome) (log : list LogEntry)
  : Prop :=
  match log with
  | [] => True
  | LogBad n res :: rest =>
      trial n = TrialBad res /\ log_of_trials trial rest
  | LogTrial n res currentWriteTime currentSpeed _ _ _ :: rest =>
      trial n = TrialSpeed res currentWriteTime currentSpeed /\
      log_of_trials trial rest
  end.

(** ** The file of a successful call as the specification words it *)



(** ** The emptied block as the specification words it *)

(** With the elapsed time [t] in nanoseconds, [elapsedSeconds] is
    [t / 10^9]; [2.0 / elapsedSeconds * blockSize < 1] is
    [elapsedSeconds > 2 * blockSize] for a block that is not empty.
    The statement of the specification: every such elapsed time leaves
    the block empty. *)
Definition calibration_empties_as_claimed : Prop :=
  forall (o : FileOracle) (dirPath : string) (p p' : Portion) (t : Z),
    TestDriveWriteFirst o dirPath p = Returns (t, p') ->
    0 < size p ->
    2 * size p * 1000000000 < t ->
    size p' = 0.

(* ===================================================================== *)
(** ** Notions for reasoning about single-precision rounding *)

(** The shift of [shr_fexp]. *)
Definition shift_of (m e : Z) : Z := fexp prec emax (Zdigits2 m + e) - e.

(** After [k] shifts of the mantissa [m0] (with round bit clear at the
    start) the mantissa is [m0 / 2^k], and the round bit is set only if
    the bits shifted out amount to at least half a unit. *)
Definition shifted (m0 : Z) (k : Z) (mrs : shr_record) : Prop :=
  shr_m mrs = m0 / 2 ^ k /\
  (shr_r mrs = true -> 2 ^ k <= 2 * (m0 mod 2 ^ k)).

(** The second half of [binary_round_aux]: the rounded mantissa [mr] at
    exponent [e] is brought back to at most 24 digits and checked for
    overflow. *)
Definition round_result (sx : bool) (mr e : Z) : spec_float :=
  let '(mrs, e') := shr_fexp prec emax mr e loc_Exact in
  match shr_m mrs with
  | Z0 => S754_zero sx
  | Zpos m =>
      if e' <=? emax - prec then S754_finite sx m e' else S754_infinity sx
  | Zneg _ => S754_nan
  end.

(** What [round_result] makes of a mantissa of at most 24 digits, or of
    [2^24], at an exponent not below the least one. *)
Definition result_of (sx : bool) (mr e : Z) : spec_float :=
  if mr =? 0 then S754_zero sx
  else if mr =? 2 ^ 24 then
    if e + 1 <=? 104 then S754_finite sx (2 ^ 23) (e + 1)
    else S754_infinity sx
  else if e <=? 104 then S754_finite sx (Z.to_pos mr) e
  else S754_infinity sx.

(** The real value [m * 2^e]. *)
Definition bpow (e : Z) : R := powerRZ 2 e.

Definition F2R (m e : Z) : R := (IZR m * bpow e)%R.

(* ===================================================================== *)
(** ** Concrete environments used in examples *)

(** Every library call succeeds; a write of [sz] bytes takes [ns]
    nanoseconds and [fclose] takes [close_ns]. *)
Definition steady_oracle (sz ns close_ns : Z) : FileOracle :=
  mkFileOracle 0 0 false 0 (fun _ => sz) (fun _ => ns) close_ns 0 0.

(** As [steady_oracle], but the flush of [fclose] fails: [fclose]
    returns [EOF] and [flushed] bytes have reached the file. *)
Definition failing_close_oracle (sz ns flushed : Z) : FileOracle :=
  mkFileOracle 0 0 false 0 (fun _ => sz) (fun _ => ns) 0 (-1) flushed.

(** [fopen_s] fails with error code 13. *)
Definition failing_open_oracle : FileOracle :=
  mkFileOracle 0 13 true 0 (fun _ => 0) (fun _ => 0) 0 0 0.

Definition three_bytes : Portion := [1; 2; 3].

(** A sweep whose trials at 2 and 3 threads report 90 and 80 MB/s, and
    100 MB/s at every other thread count. *)
Definition scenario_C_trial (threadsCount : Z) : TrialOutcome :=
  if threadsCount =? 2 then TrialSpeed [1; 1] 1 (f32_of_Z 90)
  else if threadsCount =? 3 then TrialSpeed [1; 1; 1] 1 (f32_of_Z 80)
  else TrialSpeed [] 1 (f32_of_Z 100).

(** Scenario D: every call in the run succeeds, the writes transfer
    [sz] bytes and each write of a trial with [n] threads takes
    [ns n] nanoseconds, except that thread number 3 of the trial with 4
    threads cannot open its file. *)
Definition scenario_D_thread (sz : Z) (ns : Z -> Z)
  (threadsCount threadNumber : Z) : FileOracle :=
  if (threadsCount =? 4) && (threadNumber =? 3) then failing_open_oracle
  else steady_oracle sz (ns threadsCount) 0.

Definition scenario_D_env (sz : Z) : Env :=
  mkEnv (fun _ => 0) (steady_oracle sz 100000000 0)
    (scenario_D_thread sz (fun n => 100000000 * n - 20000000)).

(** The throughput sequence of Scenario C: 100 MB/s with one thread,
    90 with two, 80 with three. *)
Definition scenario_C_speed (threadsCount : Z) : float :=
  if threadsCount =? 2 then f32_of_Z 90
  else if threadsCount =? 3 then f32_of_Z 80
  else f32_of_Z 100.

Definition eleven_bytes : Portion := repeat 0 11.

(** An environment in which every call succeeds; the calibration run
    takes [first_ns] per write and each write of a trial with [n]
    threads takes [ns n]; the writes of the calibration run transfer
    [sz0] bytes and those of the sweep [sz]. *)
Definition steady_env (sz0 first_ns sz : Z) (ns : Z -> Z) : Env :=
  mkEnv (fun _ => 0) (steady_oracle sz0 first_ns 0)
    (fun threadsCount _ => steady_oracle sz (ns threadsCount) 0).

Definition hundred_bytes : Portion := repeat 0 100.

(** A volume so slow that the calibration run takes 3 * 10^17 ns; the
    writes of the sweep transfer their zero bytes in 100 ns each. *)
Definition very_slow_env : Env :=
  steady_env g_portionSize 30000000000000000 0 (fun _ => 100).

(** A volume that writes half a mebibyte per second: the calibration
    run of 1000 MiB takes 2000 s; afterwards each of the ten writes of
    a thread takes 0.2 s, whatever the number of threads. *)
Definition slow_drive_env : Env :=
  steady_env g_portionSize 200000000000 104857 (fun _ => 200000000).

(** A volume on which more threads are slower: the calibration run
    takes 1 s (1000 MB/s), the trial with 2 threads 2.5 s per thread
    (800 MB/s) and every trial with more threads 5 s per thread. *)
Definition saturated_env : Env :=
  steady_env g_portionSize 100000000 g_portionSize
    (fun n => if n =? 2 then 250000000 else 500000000).

(* ===================================================================== *)
(** * Single-precision arithmetic *)

(** ** Binary digits *)

Lemma digits2_pos_size (p : positive) : digits2_pos p = Pos.size p.
Proof. induction p as [p IH|p IH|]; simpl; now rewrite ?IH. Qed.

Lemma Zdigits2_bounds (m : Z) :
  0 < m -> 2 ^ (Zdigits2 m - 1) <= m < 2 ^ Zdigits2 m.
Proof.
  destruct m as [|p|p]; try lia. intros _. simpl Zdigits2.
  rewrite digits2_pos_size.
  pose proof (Pos.size_gt p) as Hgt. pose proof (Pos.size_le p) as Hle.
  assert (Hgt' : Z.pos p < 2 ^ Z.pos (Pos.size p)).
  { change 2 with (Z.pos 2). rewrite <- Pos2Z.inj_pow. exact Hgt. }
  assert (Hle' : 2 ^ Z.pos (Pos.size p) <= 2 * Z.pos p).
  { change 2 with (Z.pos 2) at 1. rewrite <- Pos2Z.inj_pow. exact Hle. }
  split; [|exact Hgt'].
  replace (Z.pos (Pos.size p)) with (Z.pos (Pos.size p) - 1 + 1) in Hle'
    by lia.
  rewrite Z.pow_add_r in Hle' by lia. lia.
Qed.

Lemma Zdigits2_pos (m : Z) : 0 < m -> 0 < Zdigits2 m.
Proof. destruct m; simpl; lia. Qed.

Lemma Zdigits2_unique (m d : Z) :
  2 ^ (d - 1) <= m < 2 ^ d -> 0 < m -> Zdigits2 m = d.
Proof.
  intros Hd Hm. pose proof (Zdigits2_bounds m Hm) as Hb.
  pose proof (Zdigits2_pos m Hm) as Hp.
  assert (Hd0 : 0 < d).
  { destruct (Z.lt_ge_cases 0 d) as [H|H]; [exact H|].
    assert (2 ^ d <= 2 ^ 0) by (apply Z.pow_le_mono_r; lia).
    change (2 ^ 0) with 1 in *. lia. }
  destruct (Z.lt_trichotomy (Zdigits2 m) d) as [H|[H|H]]; [|exact H|].
  - assert (2 ^ Zdigits2 m <= 2 ^ (d - 1)) by (apply Z.pow_le_mono_r; lia).
    lia.
  - assert (2 ^ d <= 2 ^ (Zdigits2 m - 1)) by (apply Z.pow_le_mono_r; lia).
    lia.
Qed.

Lemma Zdigits2_le (m d : Z) : 0 <= d -> 0 <= m < 2 ^ d -> Zdigits2 m <= d.
Proof.
  intros Hd Hm. destruct (Z.eq_dec m 0) as [->|Hne]; [simpl; lia|].
  pose proof (Zdigits2_bounds m ltac:(lia)) as Hb.
  destruct (Z.le_gt_cases (Zdigits2 m) d) as [H|H]; [exact H|].
  assert (2 ^ d <= 2 ^ (Zdigits2 m - 1)) by (apply Z.pow_le_mono_r; lia).
  lia.
Qed.

Lemma Zdigits2_ge (m d : Z) : 2 ^ (d - 1) <= m -> 0 < m -> d <= Zdigits2 m.
Proof.
  intros Hd Hm. pose proof (Zdigits2_bounds m Hm) as Hb.
  destruct (Z.le_gt_cases d (Zdigits2 m)) as [H|H]; [exact H|].
  assert (2 ^ Zdigits2 m <= 2 ^ (d - 1)) by (apply Z.pow_le_mono_r; lia).
  lia.
Qed.

(** ** Shifting a mantissa right *)

Lemma shr_1_nonneg (m : Z) (r s : bool) :
  0 <= m ->
  shr_1 (Build_shr_record m r s)
  = Build_shr_record (m / 2) (Z.odd m) (r || s).
Proof.
  intros Hm. rewrite <- Z.div2_div.
  destruct m as [|[p|p|]|p]; try reflexivity. lia.
Qed.

Lemma iter_pos_invariant {A : Type} (f : A -> A) (Inv : Z -> A -> Prop) :
  (forall k a, 0 <= k -> Inv k a -> Inv (k + 1) (f a)) ->
  forall p k a, 0 <= k -> Inv k a -> Inv (k + Z.pos p) (SpecFloat.iter_pos f p a).
Proof.
  intros Hstep. induction p as [p IH|p IH|]; intros k a Hk Ha; simpl.
  - replace (k + Z.pos p~1) with (k + 1 + Z.pos p + Z.pos p) by lia.
    apply IH; [lia|]. apply IH; [lia|]. now apply Hstep.
  - replace (k + Z.pos p~0) with (k + Z.pos p + Z.pos p) by lia.
    apply IH; [lia|]. now apply IH.
  - now apply Hstep.
Qed.

Lemma shifted_step (m0 k : Z) (mrs : shr_record) :
  0 <= m0 -> 0 <= k -> shifted m0 k mrs -> shifted m0 (k + 1) (shr_1 mrs).
Proof.
  intros Hm0 Hk [Hm Hr]. destruct mrs as [m r s]. cbn [shr_m shr_r] in Hm, Hr.
  assert (Hpow : 0 < 2 ^ k) by (apply Z.pow_pos_nonneg; lia).
  assert (Hm' : 0 <= m) by (subst m; apply Z.div_pos; lia).
  rewrite shr_1_nonneg by exact Hm'. unfold shifted. cbn [shr_m shr_r].
  rewrite Z.pow_add_r by lia. change (2 ^ 1) with 2.
  split.
  - subst m. rewrite Z.div_div by lia. reflexivity.
  - intros Hodd. rewrite Z.rem_mul_r by lia.
    rewrite <- Hm. apply Z.odd_spec in Hodd. destruct Hodd as [j Hj].
    assert (Hmod : m mod 2 = 1).
    { rewrite Hj, Z.add_comm, Z.mul_comm, Z.mod_add by lia. reflexivity. }
    rewrite Hmod.
    pose proof (Z.mod_pos_bound m0 (2 ^ k) Hpow). lia.
Qed.

Lemma shifted_iter (m0 : Z) (s0 : bool) (p : positive) :
  0 <= m0 ->
  shifted m0 (Z.pos p) (SpecFloat.iter_pos shr_1 p (Build_shr_record m0 false s0)).
Proof.
  intros Hm0.
  apply (iter_pos_invariant shr_1 (shifted m0)
           (fun k a Hk => shifted_step m0 k a Hm0 Hk) p 0); [lia|].
  unfold shifted. cbn [shr_m shr_r]. change (2 ^ 0) with 1.
  rewrite Z.div_1_r. split; [reflexivity|discriminate].
Qed.

(** Without the assumption on the round bit only the mantissa is known. *)
Lemma shr_m_iter (m0 : Z) (r0 s0 : bool) (p : positive) :
  0 <= m0 ->
  shr_m (SpecFloat.iter_pos shr_1 p (Build_shr_record m0 r0 s0)) = m0 / 2 ^ Z.pos p.
Proof.
  intros Hm0.
  apply (iter_pos_invariant shr_1 (fun k mrs => shr_m mrs = m0 / 2 ^ k))
    with (k := 0) (p := p).
  - intros k [m r s] Hk Hm. cbn [shr_m] in Hm.
    assert (Hpow : 0 < 2 ^ k) by (apply Z.pow_pos_nonneg; lia).
    rewrite shr_1_nonneg by (subst m; apply Z.div_pos; lia).
    cbn [shr_m]. subst m. rewrite Z.div_div by lia.
    rewrite Z.pow_add_r by lia. reflexivity.
  - lia.
  - cbn [shr_m]. change (2 ^ 0) with 1. now rewrite Z.div_1_r.
Qed.

(** ** Rounding to single precision *)

Lemma fexp_eq (e : Z) : fexp prec emax e = Z.max (e - 24) (-149).
Proof. reflexivity. Qed.

Lemma binary_round_aux_eq (sx : bool) (mx ex : Z) (lx : location) :
  binary_round_aux prec emax sx mx ex lx
  = round_result sx
      (round_nearest_even (shr_m (fst (shr_fexp prec emax mx ex lx)))
         (loc_of_shr_record (fst (shr_fexp prec emax mx ex lx))))
      (snd (shr_fexp prec emax mx ex lx)).
Proof.
  unfold binary_round_aux, round_result.
  now destruct (shr_fexp prec emax mx ex lx).
Qed.

Lemma shr_record_of_loc_m (m : Z) (l : location) :
  shr_m (shr_record_of_loc m l) = m.
Proof. now destruct l as [|[| |]]. Qed.

Lemma loc_of_shr_record_of_loc (m : Z) (l : location) :
  loc_of_shr_record (shr_record_of_loc m l) = l.
Proof. now destruct l as [|[| |]]. Qed.

Lemma round_nearest_even_bounds (mrs : shr_record) :
  shr_m mrs <= round_nearest_even (shr_m mrs) (loc_of_shr_record mrs)
            <= shr_m mrs + 1 /\
  (round_nearest_even (shr_m mrs) (loc_of_shr_record mrs) <> shr_m mrs ->
   shr_r mrs = true).
Proof.
  destruct mrs as [m [|] [|]]; cbn [shr_m shr_r loc_of_shr_record
    round_nearest_even]; try destruct (Z.even m); split;
    try lia; try reflexivity; intros H; try reflexivity; lia.
Qed.

Lemma shr_fexp_no_shift (m e : Z) (l : location) :
  shift_of m e <= 0 ->
  shr_fexp prec emax m e l = (shr_record_of_loc m l, e).
Proof.
  intros Hn. unfold shr_fexp, shr. fold (shift_of m e).
  destruct (shift_of m e); try reflexivity. lia.
Qed.

Lemma shr_fexp_shift (m e : Z) (l : location) :
  0 <= m -> 0 < shift_of m e ->
  exists mrs,
    shr_fexp prec emax m e l = (mrs, e + shift_of m e) /\
    shr_m mrs = m / 2 ^ shift_of m e /\
    (l = loc_Exact -> shr_r mrs = true ->
     2 ^ shift_of m e <= 2 * (m mod 2 ^ shift_of m e)).
Proof.
  intros Hm Hn. unfold shr_fexp, shr. fold (shift_of m e).
  destruct (shift_of m e) as [|p|p] eqn:Hp; try lia.
  eexists. split; [reflexivity|]. split.
  - destruct l as [|[| |]]; apply shr_m_iter; exact Hm.
  - intros -> Hr. cbn [shr_record_of_loc] in Hr |- *.
    destruct (shifted_iter m false p Hm) as [_ H]. now apply H.
Qed.

(** The first half of [binary_round_aux]: the mantissa after the shift
    and the rounding. *)
Lemma first_rounding (sx : bool) (mx ex : Z) (lx : location) :
  0 <= mx -> 0 <= shift_of mx ex ->
  exists mr,
    binary_round_aux prec emax sx mx ex lx
    = round_result sx mr (ex + shift_of mx ex) /\
    mx / 2 ^ shift_of mx ex <= mr <= mx / 2 ^ shift_of mx ex + 1 /\
    (lx = loc_Exact -> mr = mx / 2 ^ shift_of mx ex + 1 ->
     2 ^ shift_of mx ex <= 2 * (mx mod 2 ^ shift_of mx ex)) /\
    (shift_of mx ex = 0 -> mr = round_nearest_even mx lx).
Proof.
  intros Hm Hn. rewrite binary_round_aux_eq.
  destruct (Z.eq_dec (shift_of mx ex) 0) as [H0|H0].
  - rewrite shr_fexp_no_shift by lia. cbn [fst snd].
    rewrite shr_record_of_loc_m, loc_of_shr_record_of_loc.
    exists (round_nearest_even mx lx). rewrite H0, Z.add_0_r.
    change (2 ^ 0) with 1. rewrite Z.div_1_r.
    split; [reflexivity|]. split; [|split].
    + pose proof (round_nearest_even_bounds (shr_record_of_loc mx lx)) as H.
      rewrite shr_record_of_loc_m, loc_of_shr_record_of_loc in H. tauto.
    + intros -> H. cbn [round_nearest_even] in H. lia.
    + reflexivity.
  - destruct (shr_fexp_shift mx ex lx Hm ltac:(lia)) as (mrs & -> & Hmrs & Hr).
    cbn [fst snd]. eexists. split; [reflexivity|].
    pose proof (round_nearest_even_bounds mrs) as [Hb Hne].
    rewrite Hmrs in Hb, Hne. rewrite Hmrs.
    split; [exact Hb|]. split; [|lia].
    intros Hl Hup. apply Hr; [exact Hl|]. apply Hne. lia.
Qed.

Lemma round_result_spec (sx : bool) (mr e : Z) :
  0 <= mr <= 2 ^ 24 -> -149 <= e ->
  round_result sx mr e = result_of sx mr e.
Proof.
  intros Hmr He. unfold round_result, result_of.
  destruct (Z.eqb_spec mr 0) as [->|Hne0].
  - rewrite shr_fexp_no_shift; [reflexivity|].
    unfold shift_of. rewrite fexp_eq. cbn [Zdigits2]. lia.
  - destruct (Z.eqb_spec mr (2 ^ 24)) as [->|Hne].
    + assert (Hs : shift_of (2 ^ 24) e = 1).
      { unfold shift_of. rewrite fexp_eq.
        change (Zdigits2 (2 ^ 24)) with 25. lia. }
      destruct (shr_fexp_shift (2 ^ 24) e loc_Exact ltac:(lia) ltac:(lia))
        as (mrs & -> & Hm & _).
      rewrite Hm, Hs. reflexivity.
    + assert (Hd : Zdigits2 mr <= 24) by (apply Zdigits2_le; lia).
      rewrite shr_fexp_no_shift
        by (unfold shift_of; rewrite fexp_eq; lia).
      cbn [shr_record_of_loc shr_m].
      destruct mr as [|p|p]; try lia. reflexivity.
Qed.

Lemma shift_of_bounds (mx ex : Z) :
  0 <= mx -> 0 <= shift_of mx ex ->
  0 <= mx / 2 ^ shift_of mx ex < 2 ^ 24 /\
  -149 <= ex + shift_of mx ex /\
  (0 < mx -> -149 < ex + shift_of mx ex ->
   2 ^ 23 <= mx / 2 ^ shift_of mx ex).
Proof.
  intros Hm Hn.
  assert (Hpow : 0 < 2 ^ shift_of mx ex) by (apply Z.pow_pos_nonneg; lia).
  unfold shift_of in *. rewrite fexp_eq in *.
  set (d := Zdigits2 mx) in *.
  set (n := Z.max (d + ex - 24) (-149) - ex) in *.
  split; [|split].
  - split; [apply Z.div_pos; lia|].
    apply Z.div_lt_upper_bound; [lia|].
    destruct (Z.eq_dec mx 0) as [->|Hne]; [lia|].
    pose proof (Zdigits2_bounds mx ltac:(lia)) as Hb. fold d in Hb.
    pose proof (Zdigits2_pos mx ltac:(lia)) as Hd. fold d in Hd.
    rewrite <- Z.pow_add_r by lia.
    assert (2 ^ d <= 2 ^ (n + 24)) by (apply Z.pow_le_mono_r; lia).
    lia.
  - lia.
  - intros Hpos Hnorm.
    pose proof (Zdigits2_bounds mx Hpos) as Hb. fold d in Hb.
    assert (Hn' : n = d - 24) by lia.
    apply Z.div_le_lower_bound; [lia|].
    rewrite <- Z.pow_add_r by lia.
    replace (n + 23) with (d - 1) by lia. lia.
Qed.

(** [binary_round_aux] on a mantissa with enough digits. *)
Lemma binary_round_aux_spec (sx : bool) (mx ex : Z) (lx : location) :
  0 <= mx -> 0 <= shift_of mx ex ->
  exists mr,
    binary_round_aux prec emax sx mx ex lx
    = result_of sx mr (ex + shift_of mx ex) /\
    mx / 2 ^ shift_of mx ex <= mr <= mx / 2 ^ shift_of mx ex + 1 /\
    0 <= mr <= 2 ^ 24 /\
    (lx = loc_Exact -> mr = mx / 2 ^ shift_of mx ex + 1 ->
     2 ^ shift_of mx ex <= 2 * (mx mod 2 ^ shift_of mx ex)) /\
    (shift_of mx ex = 0 -> mr = round_nearest_even mx lx).
Proof.
  intros Hm Hn.
  destruct (first_rounding sx mx ex lx Hm Hn) as (mr & Heq & Hb & Hex & H0).
  destruct (shift_of_bounds mx ex Hm Hn) as (Hq & He & _).
  exists mr. rewrite Heq. rewrite round_result_spec by lia.
  repeat split; try lia; assumption.
Qed.

(** ** The value of a float *)

Lemma bpow_gt_0 (e : Z) : (0 < bpow e)%R.
Proof. apply powerRZ_lt. lra. Qed.

Lemma bpow_add (a b : Z) : bpow (a + b) = (bpow a * bpow b)%R.
Proof. apply powerRZ_add. lra. Qed.

Lemma bpow_IZR (e : Z) : 0 <= e -> bpow e = IZR (2 ^ e).
Proof.
  intros He. unfold bpow. destruct e as [|p|p]; [reflexivity| |lia].
  unfold powerRZ. rewrite pow_IZR. f_equal. now rewrite positive_nat_Z.
Qed.

Lemma bpow_le (a b : Z) : a <= b -> (bpow a <= bpow b)%R.
Proof.
  intros H. replace b with (a + (b - a)) by lia. rewrite bpow_add.
  rewrite (bpow_IZR (b - a)) by lia.
  assert (H1 : (1 <= IZR (2 ^ (b - a)))%R).
  { apply IZR_le. assert (0 < 2 ^ (b - a)) by (apply Z.pow_pos_nonneg; lia).
    lia. }
  pose proof (bpow_gt_0 a). nra.
Qed.

Lemma F2R_shift (m e k : Z) : 0 <= k -> F2R (m * 2 ^ k) e = F2R m (e + k).
Proof.
  intros Hk. unfold F2R. rewrite mult_IZR, bpow_add, (bpow_IZR k) by lia. ring.
Qed.

Lemma F2R_le (m1 m2 e : Z) : m1 <= m2 -> (F2R m1 e <= F2R m2 e)%R.
Proof.
  intros H. unfold F2R. apply IZR_le in H. pose proof (bpow_gt_0 e). nra.
Qed.

Lemma F2R_lt (m1 m2 e : Z) : m1 < m2 -> (F2R m1 e < F2R m2 e)%R.
Proof.
  intros H. unfold F2R. apply IZR_lt in H. pose proof (bpow_gt_0 e). nra.
Qed.

Lemma F2R_le_inv (m1 m2 e : Z) : (F2R m1 e <= F2R m2 e)%R -> m1 <= m2.
Proof.
  intros H. unfold F2R in H. pose proof (bpow_gt_0 e). apply le_IZR. nra.
Qed.

Lemma F2R_le_scaled (m1 e1 m2 e2 e0 : Z) :
  e0 <= e1 -> e0 <= e2 ->
  m1 * 2 ^ (e1 - e0) <= m2 * 2 ^ (e2 - e0) ->
  (F2R m1 e1 <= F2R m2 e2)%R.
Proof.
  intros H1 H2 H.
  replace e1 with (e0 + (e1 - e0)) at 1 by lia.
  replace e2 with (e0 + (e2 - e0)) at 1 by lia.
  rewrite <- !F2R_shift by lia. now apply F2R_le.
Qed.

Lemma F2R_0 (m : Z) : F2R m 0 = IZR m.
Proof. unfold F2R, bpow. simpl. ring. Qed.

(** A mantissa of 24 digits, or [2^24], gives a normal float of the
    same value, or overflows. *)
Lemma result_of_normal (sx : bool) (mr e : Z) :
  2 ^ 23 <= mr <= 2 ^ 24 ->
  (exists m' e',
     result_of sx mr e = S754_finite sx m' e' /\
     2 ^ 23 <= Zpos m' < 2 ^ 24 /\ e <= e' <= e + 1 /\ e' <= 104 /\
     F2R (Zpos m') e' = F2R mr e) \/
  (result_of sx mr e = S754_infinity sx /\ 104 <= e).
Proof.
  intros Hmr. unfold result_of.
  destruct (Z.eqb_spec mr 0) as [->|_]; [lia|].
  destruct (Z.eqb_spec mr (2 ^ 24)) as [->|Hne].
  - destruct (Z.leb_spec (e + 1) 104) as [He|He].
    + left. eexists _, _. split; [reflexivity|].
      split; [lia|]. split; [lia|]. split; [lia|].
      change (Z.pos (2 ^ 23)) with (2 ^ 23).
      rewrite <- (F2R_shift (2 ^ 23) e 1) by lia. reflexivity.
    + right. split; [reflexivity | lia].
  - destruct (Z.leb_spec e 104) as [He|He].
    + left. eexists _, _. split; [reflexivity|].
      rewrite Z2Pos.id by lia. repeat split; lia.
    + right. split; [reflexivity | lia].
Qed.

(** ** Rounding does not jump over a representable number *)

Lemma round_exact_le (sx : bool) (mx ex g eg : Z) :
  0 < mx -> 0 <= shift_of mx ex ->
  0 <= g < 2 ^ 24 -> -149 <= eg ->
  (F2R mx ex <= F2R g eg)%R ->
  exists mr,
    binary_round_aux prec emax sx mx ex loc_Exact
    = result_of sx mr (ex + shift_of mx ex) /\
    0 <= mr <= 2 ^ 24 /\
    (-149 < ex + shift_of mx ex -> 2 ^ 23 <= mr) /\
    (F2R mr (ex + shift_of mx ex) <= F2R g eg)%R.
Proof.
  intros Hmx Hn Hg Heg Hle.
  destruct (binary_round_aux_spec sx mx ex loc_Exact ltac:(lia) Hn)
    as (mr & Heq & Hb & Hrange & Hup & _).
  destruct (shift_of_bounds mx ex ltac:(lia) Hn) as (Hq & He' & Hnormal).
  exists mr. split; [exact Heq|]. split; [exact Hrange|].
  split; [intros H; specialize (Hnormal Hmx H); lia|].
  set (n := shift_of mx ex) in *.
  assert (Hpow : 0 < 2 ^ n) by (apply Z.pow_pos_nonneg; lia).
  assert (Hdown : (F2R (mx / 2 ^ n) (ex + n) <= F2R mx ex)%R).
  { rewrite <- F2R_shift by lia. apply F2R_le.
    rewrite Z.mul_comm. apply Z.mul_div_le. lia. }
  destruct (Z.eq_dec mr (mx / 2 ^ n)) as [->|Hne]; [lra|].
  assert (Hmr : mr = mx / 2 ^ n + 1) by lia.
  specialize (Hup eq_refl Hmr).
  pose proof (Z.div_mod mx (2 ^ n) ltac:(lia)) as Hdm.
  (* the exponent of [g] is not below the one of the result *)
  assert (Hge : ex + n <= eg).
  { destruct (Z.le_gt_cases (ex + n) eg) as [H|H]; [exact H|exfalso].
    assert (Hnorm : -149 < ex + n) by lia.
    pose proof (Zdigits2_bounds mx Hmx) as Hd.
    assert (Hn' : n = Zdigits2 mx - 24).
    { subst n. unfold shift_of in *. rewrite fexp_eq in *. lia. }
    assert (H1 : (F2R g eg < bpow (24 + eg))%R).
    { unfold F2R. rewrite bpow_add, (bpow_IZR 24) by lia.
      assert (IZR g < IZR (2 ^ 24))%R by (apply IZR_lt; lia).
      pose proof (bpow_gt_0 eg). nra. }
    assert (H2 : (bpow (24 + eg) <= bpow (Zdigits2 mx - 1 + ex))%R)
      by (apply bpow_le; lia).
    assert (H3 : (bpow (Zdigits2 mx - 1 + ex) <= F2R mx ex)%R).
    { rewrite bpow_add, (bpow_IZR (Zdigits2 mx - 1))
        by (pose proof (Zdigits2_pos mx Hmx); lia).
      unfold F2R. assert (IZR (2 ^ (Zdigits2 mx - 1)) <= IZR mx)%R
        by (apply IZR_le; lia).
      pose proof (bpow_gt_0 ex). nra. }
    lra. }
  (* so [g * 2^eg] is a multiple of the unit of the result *)
  assert (HG : F2R g eg = F2R (g * 2 ^ (eg - (ex + n))) (ex + n)).
  { rewrite F2R_shift by lia. f_equal. lia. }
  rewrite HG in Hle |- *.
  apply F2R_le.
  rewrite <- (Z.add_0_r ex) in Hle at 1.
  assert (Hle' : (F2R mx ex <= F2R (g * 2 ^ (eg - (ex + n)) * 2 ^ n) ex)%R).
  { rewrite (F2R_shift _ ex n) by lia. rewrite Z.add_0_r in Hle. exact Hle. }
  apply F2R_le_inv in Hle'.
  assert (mx / 2 ^ n < g * 2 ^ (eg - (ex + n))) by nia.
  lia.
Qed.

(** ** Conversion of an integer *)

Lemma pos_iter_xO (p d : positive) :
  Z.pos (Pos.iter xO p d) = Z.pos p * 2 ^ Z.pos d.
Proof.
  induction d as [|d IH] using Pos.peano_ind.
  - change (Pos.iter xO p 1) with (p~0)%positive. change (2 ^ 1) with 2.
    rewrite Pos2Z.inj_xO. ring.
  - rewrite Pos.iter_succ, Pos2Z.inj_xO, IH, Pos2Z.inj_succ.
    rewrite Z.pow_succ_r by lia. ring.
Qed.

Lemma shl_align_spec (p : positive) (ex ex' : Z) :
  (ex' < ex ->
   shl_align p ex ex'
   = (Z.to_pos (Z.pos p * 2 ^ (ex - ex')), ex')) /\
  (ex <= ex' -> shl_align p ex ex' = (p, ex)).
Proof.
  unfold shl_align. split; intros H.
  - destruct (ex' - ex) as [|d|d] eqn:Hd; try lia.
    f_equal. replace (ex - ex') with (Z.pos d) by lia.
    rewrite <- pos_iter_xO. reflexivity.
  - destruct (ex' - ex) as [|d|d] eqn:Hd; try lia; reflexivity.
Qed.

Lemma Zdigits2_mul_pow (m k : Z) :
  0 < m -> 0 <= k -> Zdigits2 (m * 2 ^ k) = Zdigits2 m + k.
Proof.
  intros Hm Hk. pose proof (Zdigits2_bounds m Hm) as Hb.
  pose proof (Zdigits2_pos m Hm) as Hd.
  assert (Hpow : 0 < 2 ^ k) by (apply Z.pow_pos_nonneg; lia).
  apply Zdigits2_unique; [|nia].
  replace (Zdigits2 m + k - 1) with (Zdigits2 m - 1 + k) by lia.
  rewrite !Z.pow_add_r by lia. nia.
Qed.

(** [static_cast<float>(n)] for a positive [n]: a normal float (or an
    overflow) at exponent [digits n - 24], and the float one unit below
    it is below [n]. *)
Lemma f32_of_Z_spec (n : Z) :
  0 < n ->
  exists mr,
    2 ^ 23 <= mr <= 2 ^ 24 /\
    f32_of_Z n = result_of false mr (Zdigits2 n - 24) /\
    (F2R (mr - 1) (Zdigits2 n - 24) < IZR n)%R.
Proof.
  intros Hn. destruct n as [|p|p]; try lia.
  set (d := Zdigits2 (Z.pos p)).
  pose proof (Zdigits2_bounds (Z.pos p) Hn) as Hb. fold d in Hb.
  pose proof (Zdigits2_pos (Z.pos p) Hn) as Hd. fold d in Hd.
  unfold f32_of_Z, binary_normalize, binary_round.
  change (Z.pos (digits2_pos p)) with d. rewrite Z.add_0_r, fexp_eq.
  replace (Z.max (d - 24) (-149)) with (d - 24) by lia.
  destruct (shl_align_spec p 0 (d - 24)) as [Hshl Hkeep].
  destruct (Z.lt_ge_cases (d - 24) 0) as [Hsmall|Hbig].
  - (* fewer than 24 digits: the mantissa is shifted left, nothing is lost *)
    rewrite (Hshl Hsmall). clear Hshl Hkeep.
    replace (0 - (d - 24)) with (24 - d) by lia.
    set (mz := Z.pos p * 2 ^ (24 - d)).
    assert (Hpow : 0 < 2 ^ (24 - d)) by (apply Z.pow_pos_nonneg; lia).
    assert (Hmz : 0 < mz) by (subst mz; nia).
    rewrite Z2Pos.id by exact Hmz.
    assert (Hdz : Zdigits2 mz = 24)
      by (subst mz; rewrite Zdigits2_mul_pow by lia; fold d; lia).
    assert (Hs : shift_of mz (d - 24) = 0)
      by (unfold shift_of; rewrite fexp_eq, Hdz; lia).
    destruct (binary_round_aux_spec false mz (d - 24) loc_Exact
                ltac:(lia) ltac:(lia)) as (mr & Heq & _ & _ & _ & H0).
    rewrite Hs, Z.add_0_r in Heq. specialize (H0 Hs).
    cbn [round_nearest_even] in H0. subst mr.
    pose proof (Zdigits2_bounds mz Hmz) as Hbz. rewrite Hdz in Hbz.
    exists mz. split; [lia|]. split; [exact Heq|].
    replace (IZR (Z.pos p)) with (F2R mz (d - 24)).
    + apply F2R_lt. lia.
    + subst mz. rewrite F2R_shift by lia.
      replace (d - 24 + (24 - d)) with 0 by lia. apply F2R_0.
  - (* at least 24 digits: the mantissa is shifted right and rounded *)
    rewrite (Hkeep Hbig). clear Hshl Hkeep.
    assert (Hs : shift_of (Z.pos p) 0 = d - 24)
      by (unfold shift_of; rewrite fexp_eq; fold d; lia).
    destruct (binary_round_aux_spec false (Z.pos p) 0 loc_Exact
                ltac:(lia) ltac:(lia)) as (mr & Heq & Hmr & Hrange & Hup & _).
    destruct (shift_of_bounds (Z.pos p) 0 ltac:(lia) ltac:(lia))
      as (_ & _ & Hnormal).
    rewrite Hs in *. rewrite Z.add_0_l in *.
    specialize (Hnormal Hn ltac:(lia)).
    exists mr. split; [lia|]. split; [exact Heq|].
    assert (Hpow : 0 < 2 ^ (d - 24)) by (apply Z.pow_pos_nonneg; lia).
    pose proof (Z.div_mod (Z.pos p) (2 ^ (d - 24)) ltac:(lia)) as Hdm.
    pose proof (Z.mod_pos_bound (Z.pos p) (2 ^ (d - 24)) Hpow) as Hmod.
    replace (d - 24) with (0 + (d - 24)) at 1 by lia.
    rewrite <- F2R_shift, F2R_0 by lia. apply IZR_lt.
    destruct (Z.eq_dec mr (Z.pos p / 2 ^ (d - 24) + 1)) as [Hr|Hr].
    + specialize (Hup eq_refl Hr). nia.
    + assert (mr = Z.pos p / 2 ^ (d - 24)) by lia. nia.
Qed.

(** ** Division of normal floats *)

Lemma SFdiv_core_normal (m1 e1 m2 e2 : Z) :
  Zdigits2 m1 = 24 -> Zdigits2 m2 = 24 -> -149 <= e1 - e2 - 24 ->
  SFdiv_core_binary prec emax m1 e1 m2 e2
  = ((m1 * 2 ^ 24) / m2, e1 - e2 - 24,
     new_location m2 ((m1 * 2 ^ 24) mod m2)).
Proof.
  intros H1 H2 He. unfold SFdiv_core_binary. rewrite H1, H2, fexp_eq.
  replace (Z.min (Z.max (24 + e1 - (24 + e2) - 24) (-149)) (e1 - e2))
    with (e1 - e2 - 24) by lia.
  replace (e1 - e2 - (e1 - e2 - 24)) with 24 by lia.
  rewrite Z.shiftl_mul_pow2 by lia.
  unfold Z.div, Z.modulo.
  now destruct (Z.div_eucl (m1 * 2 ^ 24) m2).
Qed.

(** The mantissa is rounded up only from the upper half. *)
Lemma round_up_new_location (q m r : Z) :
  round_nearest_even q (new_location m r) <> q -> m <= 2 * r.
Proof.
  unfold new_location, new_location_even, new_location_odd.
  destruct (Z.even m); destruct (r =? 0);
    cbn [round_nearest_even]; try congruence.
  - destruct (Z.compare_spec (2 * r) m); cbn [round_nearest_even];
      try congruence; lia.
  - destruct (Z.compare_spec (2 * r + 1) m); cbn [round_nearest_even];
      try congruence; lia.
Qed.

Lemma Zdigits2_24 (m : Z) : 2 ^ 23 <= m < 2 ^ 24 -> Zdigits2 m = 24.
Proof. intros H. apply Zdigits2_unique; [exact H | lia]. Qed.

Lemma SFdiv_normal (s1 s2 : bool) (m1 m2 : positive) (e1 e2 : Z) :
  2 ^ 23 <= Z.pos m1 < 2 ^ 24 -> 2 ^ 23 <= Z.pos m2 < 2 ^ 24 ->
  -149 <= e1 - e2 - 24 ->
  exists mr n,
    (n = 0 \/ n = 1) /\ 2 ^ 23 <= mr <= 2 ^ 24 /\
    f32_div (S754_finite s1 m1 e1) (S754_finite s2 m2 e2)
    = result_of (xorb s1 s2) mr (e1 - e2 - 24 + n) /\
    (n = 0 ->
     (Z.pos m1 * 2 ^ 24) / Z.pos m2 < 2 ^ 24 /\
     (Z.pos m1 * 2 ^ 24) / Z.pos m2 <= mr
       <= (Z.pos m1 * 2 ^ 24) / Z.pos m2 + 1 /\
     (mr = (Z.pos m1 * 2 ^ 24) / Z.pos m2 + 1 ->
      Z.pos m2 <= 2 * ((Z.pos m1 * 2 ^ 24) mod Z.pos m2))) /\
    (n = 1 ->
     2 ^ 24 <= (Z.pos m1 * 2 ^ 24) / Z.pos m2 /\
     mr <= (Z.pos m1 * 2 ^ 24) / Z.pos m2 / 2 + 1).
Proof.
  intros H1 H2 He. unfold f32_div, SFdiv.
  rewrite (SFdiv_core_normal (Z.pos m1) e1 (Z.pos m2) e2)
    by (try apply Zdigits2_24; assumption).
  set (q0 := (Z.pos m1 * 2 ^ 24) / Z.pos m2).
  set (r := (Z.pos m1 * 2 ^ 24) mod Z.pos m2).
  set (E := e1 - e2 - 24) in *.
  assert (Hq0 : 2 ^ 23 <= q0 < 2 ^ 25).
  { subst q0. split.
    - apply Z.div_le_lower_bound; lia.
    - apply Z.div_lt_upper_bound; lia. }
  assert (Hshift : shift_of q0 E = Zdigits2 q0 - 24 /\
                   (Zdigits2 q0 = 24 \/ Zdigits2 q0 = 25)).
  { assert (Hd : Zdigits2 q0 = 24 \/ Zdigits2 q0 = 25).
    { destruct (Z.lt_ge_cases q0 (2 ^ 24)).
      - left. apply Zdigits2_24. lia.
      - right. apply Zdigits2_unique; lia. }
    split; [|exact Hd]. unfold shift_of. rewrite fexp_eq. lia. }
  destruct Hshift as [Hs Hd].
  destruct (binary_round_aux_spec (xorb s1 s2) q0 E (new_location (Z.pos m2) r)
              ltac:(lia) ltac:(lia)) as (mr & Heq & Hmr & Hrange & _ & H0).
  destruct (shift_of_bounds q0 E ltac:(lia) ltac:(lia)) as (_ & _ & Hnormal).
  exists mr, (shift_of q0 E). rewrite Heq.
  assert (Hlow : 2 ^ 23 <= q0 / 2 ^ shift_of q0 E).
  { rewrite Hs. destruct Hd as [Hd|Hd]; rewrite Hd.
    - change (2 ^ (24 - 24)) with 1. rewrite Z.div_1_r. lia.
    - change (2 ^ (25 - 24)) with 2.
      pose proof (Zdigits2_bounds q0 ltac:(lia)) as Hb. rewrite Hd in Hb.
      change (25 - 1) with 24 in Hb.
      apply Z.div_le_lower_bound; lia. }
  split; [lia|]. split; [lia|]. split; [reflexivity|]. split.
  - intros Hn. rewrite Hn in *.
    assert (Zdigits2 q0 = 24) by lia.
    pose proof (Zdigits2_bounds q0 ltac:(lia)) as Hb. rewrite H in Hb.
    change (2 ^ 0) with 1 in Hmr. rewrite Z.div_1_r in Hmr.
    split; [lia|]. split; [exact Hmr|].
    intros Hup. apply (round_up_new_location q0). rewrite <- (H0 eq_refl). lia.
  - intros Hn. rewrite Hn in *.
    assert (Zdigits2 q0 = 25) by lia.
    pose proof (Zdigits2_bounds q0 ltac:(lia)) as Hb. rewrite H in Hb.
    change (2 ^ 1) with 2 in Hmr. change (25 - 1) with 24 in Hb.
    split; lia.
Qed.

(** ** Signs *)

Lemma binary_round_aux_sign (sx : bool) (mx ex : Z) (lx : location) :
  binary_round_aux prec emax sx mx ex lx = S754_zero sx \/
  (exists m e, binary_round_aux prec emax sx mx ex lx = S754_finite sx m e) \/
  binary_round_aux prec emax sx mx ex lx = S754_infinity sx \/
  binary_round_aux prec emax sx mx ex lx = S754_nan.
Proof.
  rewrite binary_round_aux_eq. unfold round_result.
  destruct (shr_fexp prec emax _ _ loc_Exact) as [mrs e'].
  destruct (shr_m mrs); [now left| |now right; right; right].
  destruct (e' <=? emax - prec); [right; left; eauto | now right; right; left].
Qed.

(** ** The floats of the calibration *)

Lemma two_eq : g_maxTestDuration = S754_finite false 8388608 (-22).
Proof. reflexivity. Qed.

Lemma billion_eq :
  f32_of_Z (1000 * 1000 * 1000) = S754_finite false 15625000 6.
Proof. reflexivity. Qed.

(** A positive integer converts to a normal float or overflows. *)
Lemma f32_of_Z_pos (n : Z) :
  0 < n ->
  (f32_of_Z n = S754_infinity false /\ 128 <= Zdigits2 n) \/
  exists m e mr,
    f32_of_Z n = S754_finite false m e /\
    2 ^ 23 <= Z.pos m < 2 ^ 24 /\ -23 <= e <= 104 /\
    2 ^ 23 <= mr <= 2 ^ 24 /\
    F2R (Z.pos m) e = F2R mr (Zdigits2 n - 24) /\
    (F2R (mr - 1) (Zdigits2 n - 24) < IZR n)%R.
Proof.
  intros Hn. destruct (f32_of_Z_spec n Hn) as (mr & Hmr & Heq & Hbelow).
  pose proof (Zdigits2_pos n Hn) as Hd.
  destruct (result_of_normal false mr (Zdigits2 n - 24) Hmr)
    as [(m & e & Hres & Hm & He & He' & Hval) | [Hres Hover]].
  - right. exists m, e, mr. rewrite Heq, Hres.
    repeat split; try lia; assumption.
  - left. rewrite Heq. split; [exact Hres | lia].
Qed.

(** The elapsed seconds of a positive duration are a normal float, or
    infinite. *)
Lemma seconds_of_pos (t : Z) :
  0 < t ->
  seconds_of t = S754_infinity false \/
  exists mt et,
    seconds_of t = S754_finite false mt et /\
    2 ^ 23 <= Z.pos mt < 2 ^ 24 /\ et <= 103.
Proof.
  intros Ht. unfold seconds_of. rewrite billion_eq.
  destruct (f32_of_Z_pos t Ht)
    as [[-> _] | (m & e & _ & -> & Hm & He & _)]; [now left|].
  destruct (SFdiv_normal false false m 15625000 e 6 Hm ltac:(lia) ltac:(lia))
    as (mr & n & Hn & Hmr & -> & _).
  destruct (result_of_normal (xorb false false) mr (e - 6 - 24 + n) Hmr)
    as [(mt & et & -> & Hmt & Het & _) | [_ Hover]]; [|lia].
  right. exists mt, et. split; [reflexivity|]. split; [exact Hmt | lia].
Qed.

Lemma ltb_negative (sx : bool) (f : float) :
  sx = true ->
  f = S754_zero sx \/ (exists m e, f = S754_finite sx m e) \/
  f = S754_infinity sx \/ f = S754_nan ->
  f32_ltb g_maxTestDuration f = false.
Proof.
  intros -> [-> | [(m & e & ->) | [-> | ->]]]; reflexivity.
Qed.

(** A duration that is not positive never exceeds the budget. *)
Lemma seconds_of_nonpos (t : Z) :
  t <= 0 -> f32_ltb g_maxTestDuration (seconds_of t) = false.
Proof.
  intros Ht. destruct t as [|p|p]; [reflexivity | lia |].
  unfold seconds_of. rewrite billion_eq.
  unfold f32_of_Z, binary_normalize, binary_round.
  destruct (shl_align p 0 _) as [mz ez].
  destruct (binary_round_aux_sign true (Z.pos mz) ez loc_Exact)
    as [-> | [(m & e & ->) | [-> | ->]]]; try reflexivity.
  unfold f32_div, SFdiv.
  destruct (SFdiv_core_binary prec emax (Z.pos m) e 15625000 6)
    as [[mq eq] lq].
  apply (ltb_negative true); [reflexivity|].
  apply binary_round_aux_sign.
Qed.

Lemma ltb_two (mt : positive) (et : Z) :
  f32_ltb g_maxTestDuration (S754_finite false mt et) = true ->
  -22 < et \/ (et = -22 /\ 2 ^ 23 < Z.pos mt).
Proof.
  rewrite two_eq. unfold f32_ltb, SFltb, SFcompare.
  destruct (Z.compare_spec (-22) et) as [H|H|H]; try discriminate.
  - intros Hlt. right. split; [lia|].
    change (Pos.compare_cont Eq 8388608 mt) with (8388608 ?= mt)%positive
      in Hlt.
    destruct (8388608 ?= mt)%positive eqn:Hc; try discriminate.
    apply Pos.compare_lt_iff in Hc. apply Pos2Z.pos_lt_pos in Hc.
    change (Z.pos 8388608) with (2 ^ 23) in Hc. exact Hc.
  - intros _. now left.
Qed.

(** The quotient of the budget by a normal number of seconds above it
    is at most [1 - 2^-23]. *)
Lemma budget_quotient (mt : positive) (et : Z) :
  2 ^ 23 <= Z.pos mt < 2 ^ 24 -> et <= 103 ->
  f32_ltb g_maxTestDuration (S754_finite false mt et) = true ->
  exists mq eq,
    f32_div g_maxTestDuration (S754_finite false mt et)
    = S754_finite false mq eq /\
    (F2R (Z.pos mq) eq <= F2R (2 ^ 24 - 2) (-24))%R.
Proof.
  intros Hmt Het Hlt. apply ltb_two in Hlt. rewrite two_eq.
  destruct (SFdiv_normal false false 8388608 mt (-22) et ltac:(lia) Hmt
              ltac:(lia)) as (mr & n & Hn & Hmr & -> & Hn0 & Hn1).
  change (Z.pos 8388608 * 2 ^ 24) with (2 ^ 47) in *.
  set (q0 := 2 ^ 47 / Z.pos mt) in *.
  set (r := 2 ^ 47 mod Z.pos mt) in *.
  pose proof (Z.div_mod (2 ^ 47) (Z.pos mt) ltac:(lia)) as Hdm.
  fold q0 r in Hdm.
  pose proof (Z.mod_pos_bound (2 ^ 47) (Z.pos mt) ltac:(lia)) as Hr.
  fold r in Hr.
  destruct (result_of_normal (xorb false false) mr (-22 - et - 24 + n) Hmr)
    as [(mq & eq & -> & Hmq & Heq & _ & Hval) | [_ Hover]]; [|lia].
  exists mq, eq. split; [reflexivity|]. rewrite Hval. clear Hval.
  destruct Hlt as [Hbig | [-> Hmant]].
  - (* at least 4 seconds: the quotient is at most 1/2 *)
    apply Rle_trans with (F2R (2 ^ 23 + 1) (-24)); [|apply F2R_le; lia].
    destruct Hn as [-> | ->].
    + apply (F2R_le_scaled _ _ _ _ (-22 - et - 24 + 0)); [lia | lia |].
      replace (-22 - et - 24 + 0 - (-22 - et - 24 + 0)) with 0 by lia.
      replace (-24 - (-22 - et - 24 + 0)) with (22 + et) by lia.
      assert (2 ^ 1 <= 2 ^ (22 + et)) by (apply Z.pow_le_mono_r; lia).
      change (2 ^ 1) with 2 in *. change (2 ^ 0) with 1. lia.
    + destruct (Hn1 eq_refl) as [Hq Hup].
      assert (Hq0 : q0 <= 2 ^ 24).
      { destruct (Z.le_gt_cases q0 (2 ^ 24)) as [H|H]; [exact H|]. nia. }
      assert (mr <= 2 ^ 23 + 1).
      { assert (q0 / 2 <= 2 ^ 23) by (apply Z.div_le_upper_bound; lia).
        lia. }
      apply (F2R_le_scaled _ _ _ _ (-22 - et - 24 + 1)); [lia | lia |].
      replace (-22 - et - 24 + 1 - (-22 - et - 24 + 1)) with 0 by lia.
      replace (-24 - (-22 - et - 24 + 1)) with (21 + et) by lia.
      assert (0 < 2 ^ (21 + et)) by (apply Z.pow_pos_nonneg; lia).
      change (2 ^ 0) with 1. nia.
  - (* between 2 and 4 seconds: the mantissa of the quotient is at most
       [2^24 - 2] *)
    assert (Hq0 : q0 <= 2 ^ 24 - 2).
    { destruct (Z.le_gt_cases q0 (2 ^ 24 - 2)) as [H|H]; [exact H|]. nia. }
    destruct Hn as [-> | ->]; [|destruct (Hn1 eq_refl); lia].
    destruct (Hn0 eq_refl) as (_ & Hb & Hup).
    replace (-22 - -22 - 24 + 0) with (-24) by lia.
    apply F2R_le.
    destruct (Z.eq_dec mr (q0 + 1)) as [Hr1|Hr1]; [|lia].
    specialize (Hup Hr1). nia.
Qed.

(** ** Truncation and the product of the calibration *)

Lemma bpow_m24 : bpow (-24) = (/ 16777216)%R.
Proof.
  assert (H : (bpow (-24) * bpow 24 = 1)%R).
  { rewrite <- bpow_add. reflexivity. }
  rewrite (bpow_IZR 24) in H by lia.
  change (2 ^ 24) with 16777216 in H.
  apply Rmult_eq_reg_r with 16777216%R; [|lra].
  rewrite H. field.
Qed.

Lemma F2R_mul (m1 e1 m2 e2 : Z) :
  F2R (m1 * m2) (e1 + e2) = (F2R m1 e1 * F2R m2 e2)%R.
Proof. unfold F2R. rewrite mult_IZR, bpow_add. ring. Qed.

Lemma F2R_nonneg (m e : Z) : 0 <= m -> (0 <= F2R m e)%R.
Proof.
  intros H. unfold F2R. apply IZR_le in H. pose proof (bpow_gt_0 e). nra.
Qed.

(** A positive float below the integer [b] converts to an integer
    below [b]. *)
Lemma f32_to_size_t_below (m e b : Z) :
  0 < m -> (F2R m e < IZR b)%R -> b <= 2 ^ 64 ->
  exists v,
    f32_to_size_t (S754_finite false (Z.to_pos m) e) = Some v /\
    0 <= v < b.
Proof.
  intros Hm Hlt Hb. unfold f32_to_size_t. rewrite Z2Pos.id by exact Hm.
  set (v := if 0 <=? e then m * 2 ^ e else m / 2 ^ (- e)).
  assert (Hv : 0 <= v /\ (IZR v <= F2R m e)%R).
  { subst v. destruct (Z.leb_spec 0 e) as [He|He].
    - split; [apply Z.mul_nonneg_nonneg; [lia | apply Z.pow_nonneg; lia]|].
      rewrite <- F2R_0, F2R_shift by lia. apply Rle_refl.
    - assert (Hpow : 0 < 2 ^ (- e)) by (apply Z.pow_pos_nonneg; lia).
      split; [apply Z.div_pos; lia|].
      rewrite <- F2R_0.
      apply (F2R_le_scaled _ _ _ _ e); [lia | lia |].
      replace (e - e) with 0 by lia. replace (0 - e) with (- e) by lia.
      change (2 ^ 0) with 1.
      pose proof (Z.mul_div_le m (2 ^ (- e)) Hpow). lia. }
  destruct Hv as [Hv0 Hv1].
  assert (Hvb : v < b) by (apply lt_IZR; lra).
  cbv zeta. fold v.
  replace (v <? 2 ^ 64) with true by (symmetry; apply Z.ltb_lt; lia).
  exists v. split; [reflexivity | lia].
Qed.

(** The product of a quotient of at most [1 - 2^-23] and the size of the
    block converts to an integer below the size. *)
Lemma shrunk_product (mq : positive) (eq sz : Z) :
  0 < sz < 2 ^ 64 ->
  (F2R (Z.pos mq) eq <= F2R (2 ^ 24 - 2) (-24))%R ->
  exists v,
    f32_to_size_t (f32_mul (S754_finite false mq eq) (f32_of_Z sz)) = Some v /\
    0 <= v < sz.
Proof.
  intros Hsz Hq.
  assert (Hdsz : Zdigits2 sz <= 64) by (apply Zdigits2_le; lia).
  destruct (f32_of_Z_pos sz ltac:(lia))
    as [[_ Hover] | (mF & eF & mrF & -> & HmF & HeF & HmrF & Hval & Hbelow)];
    [lia|].
  set (E := Zdigits2 sz - 24) in *.
  unfold f32_mul, SFmul. cbn [xorb].
  rewrite Pos2Z.inj_mul.
  (* the exact product is at most the float one unit below [F] *)
  assert (Hprod : (F2R (Z.pos mq * Z.pos mF) (eq + eF) <= F2R (mrF - 1) E)%R).
  { rewrite F2R_mul, Hval.
    apply Rle_trans with (F2R (2 ^ 24 - 2) (-24) * F2R mrF E)%R.
    - apply Rmult_le_compat_r; [apply F2R_nonneg; lia | exact Hq].
    - unfold F2R. rewrite bpow_m24.
      change (2 ^ 24 - 2) with 16777214. rewrite (minus_IZR mrF 1).
      assert (Hx : (8388608 <= IZR mrF)%R) by (apply IZR_le; lia).
      pose proof (bpow_gt_0 E) as HB.
      assert (H1 : (16777214 * / 16777216 * IZR mrF <= IZR mrF - 1)%R) by lra.
      replace (16777214 * / 16777216 * (IZR mrF * bpow E))%R
        with (16777214 * / 16777216 * IZR mrF * bpow E)%R by ring.
      apply Rmult_le_compat_r; lra. }
  assert (Hshift : 0 <= shift_of (Z.pos mq * Z.pos mF) (eq + eF)).
  { assert (24 <= Zdigits2 (Z.pos mq * Z.pos mF))
      by (apply Zdigits2_ge; nia).
    unfold shift_of. rewrite fexp_eq. lia. }
  assert (HE : -149 <= E)
    by (pose proof (Zdigits2_pos sz ltac:(lia)); subst E; lia).
  destruct (round_exact_le false (Z.pos mq * Z.pos mF) (eq + eF) (mrF - 1) E
              ltac:(lia) Hshift ltac:(lia) HE Hprod)
    as (mr & -> & Hmr & Hnormal & Hle).
  set (e := eq + eF + shift_of (Z.pos mq * Z.pos mF) (eq + eF)) in *.
  assert (Hlt : (F2R mr e < IZR sz)%R) by lra.
  (* a value below [2^64] has its exponent below 40 *)
  assert (Hexp : 0 < mr -> (-149 < e -> 2 ^ 23 <= mr) -> e <= 41).
  { intros Hpos Hn. destruct (Z.le_gt_cases e 41) as [H|H]; [exact H|exfalso].
    specialize (Hn ltac:(lia)).
    assert (H64 : (F2R (2 ^ 64) 0 <= F2R mr e)%R).
    { apply (F2R_le_scaled _ _ _ _ 0); [lia | lia |].
      rewrite !Z.sub_0_r. change (2 ^ 0) with 1.
      assert (2 ^ 41 <= 2 ^ e) by (apply Z.pow_le_mono_r; lia).
      nia. }
    rewrite F2R_0 in H64.
    assert (IZR sz <= IZR (2 ^ 64))%R by (apply IZR_le; lia). lra. }
  unfold result_of.
  destruct (Z.eqb_spec mr 0) as [->|Hne0].
  - exists 0. split; [reflexivity | lia].
  - specialize (Hexp ltac:(lia) Hnormal).
    destruct (Z.eqb_spec mr (2 ^ 24)) as [->|Hne].
    + replace (e + 1 <=? 104) with true by (symmetry; apply Z.leb_le; lia).
      apply (f32_to_size_t_below (2 ^ 23) (e + 1) sz); [lia | | lia].
      rewrite <- F2R_shift by lia. exact Hlt.
    + replace (e <=? 104) with true by (symmetry; apply Z.leb_le; lia).
      apply (f32_to_size_t_below mr e sz); [lia | exact Hlt | lia].
Qed.

(** ** Calibration never enlarges the block *)

Theorem calibrated_size_shrinks (sz t : Z) :
  0 <= sz < 2 ^ 64 ->
  exists n,
    calibrated_size sz t = Some n /\
    0 <= n <= sz /\
    (f32_ltb g_maxTestDuration (seconds_of t) = true -> 0 < sz -> n < sz) /\
    (f32_ltb g_maxTestDuration (seconds_of t) = false -> n = sz).
Proof.
  intros Hsz. unfold calibrated_size.
  destruct (f32_ltb g_maxTestDuration (seconds_of t)) eqn:Hlt.
  2:{ exists sz. repeat split; try lia; try reflexivity; discriminate. }
  assert (Ht : 0 < t).
  { destruct (Z.lt_ge_cases 0 t) as [H|H]; [exact H|].
    rewrite seconds_of_nonpos in Hlt by lia. discriminate. }
  assert (Hzero : forall q,
             q = S754_zero false \/ sz = 0 /\ (exists m e, q = S754_finite false m e) ->
             f32_to_size_t (f32_mul q (f32_of_Z sz)) = Some 0).
  { intros q [-> | [-> (m & e & ->)]]; [|reflexivity].
    destruct (Z.eq_dec sz 0) as [->|Hne]; [reflexivity|].
    destruct (f32_of_Z_pos sz ltac:(lia))
      as [[_ Hover] | (mF & eF & _ & -> & _)]; [|reflexivity].
    assert (Zdigits2 sz <= 64) by (apply Zdigits2_le; lia). lia. }
  destruct (seconds_of_pos t Ht) as [HT | (mt & et & HT & Hmt & Het)];
    rewrite HT in *.
  - exists 0. rewrite two_eq. change (f32_div _ _) with (S754_zero false).
    rewrite Hzero by now left.
    repeat split; try lia; discriminate.
  - destruct (budget_quotient mt et Hmt Het Hlt) as (mq & eq & -> & Hq).
    destruct (Z.eq_dec sz 0) as [->|Hne].
    + exists 0. rewrite Hzero by (right; eauto).
      repeat split; try lia; discriminate.
    + destruct (shrunk_product mq eq sz ltac:(lia) Hq) as (v & -> & Hv).
      exists v. repeat split; try lia; discriminate.
Qed.

(** ** A product below one truncates to zero *)

Lemma ltb_one (m : positive) (e : Z) :
  f32_ltb (S754_finite false m e) (f32_of_Z 1) = true ->
  e < -23 \/ (e = -23 /\ Z.pos m < 2 ^ 23).
Proof.
  change (f32_of_Z 1) with (S754_finite false 8388608 (-23)).
  unfold f32_ltb, SFltb, SFcompare.
  destruct (Z.compare_spec e (-23)) as [H|H|H]; try discriminate.
  - intros Hlt. right. split; [exact H|].
    change (Pos.compare_cont Eq m 8388608) with (m ?= 8388608)%positive in Hlt.
    destruct (m ?= 8388608)%positive eqn:Hc; try discriminate.
    apply Pos.compare_lt_iff in Hc. apply Pos2Z.pos_lt_pos in Hc.
    change (Z.pos 8388608) with (2 ^ 23) in Hc. exact Hc.
  - intros _. now left.
Qed.

Lemma to_size_t_below_one (m : positive) (e : Z) :
  Z.pos m < 2 ^ 24 ->
  f32_ltb (S754_finite false m e) (f32_of_Z 1) = true ->
  f32_to_size_t (S754_finite false m e) = Some 0.
Proof.
  intros Hm Hlt. apply ltb_one in Hlt. unfold f32_to_size_t.
  replace (0 <=? e) with false by (symmetry; apply Z.leb_gt; lia).
  assert (Hsmall : Z.pos m / 2 ^ (- e) = 0).
  { apply Z.div_small. split; [lia|].
    destruct Hlt as [He | [-> Hm23]]; [|exact Hm23].
    assert (2 ^ 24 <= 2 ^ (- e)) by (apply Z.pow_le_mono_r; lia). lia. }
  rewrite Hsmall. reflexivity.
Qed.

Lemma product_below_one (q : float) (sz : Z) :
  0 <= sz < 2 ^ 64 ->
  q = S754_zero false \/ (exists mq eq, q = S754_finite false mq eq) ->
  f32_ltb (f32_mul q (f32_of_Z sz)) (f32_of_Z 1) = true ->
  f32_to_size_t (f32_mul q (f32_of_Z sz)) = Some 0.
Proof.
  intros Hsz Hq.
  assert (HF : f32_of_Z sz = S754_zero false \/
               exists mF eF, f32_of_Z sz = S754_finite false mF eF /\
                             2 ^ 23 <= Z.pos mF).
  { destruct (Z.eq_dec sz 0) as [->|Hne]; [now left|].
    destruct (f32_of_Z_pos sz ltac:(lia))
      as [[_ Hover] | (mF & eF & _ & -> & HmF & _)].
    - assert (Zdigits2 sz <= 64) by (apply Zdigits2_le; lia). lia.
    - right. exists mF, eF. split; [reflexivity | lia]. }
  destruct HF as [-> | (mF & eF & -> & HmF)];
    destruct Hq as [-> | (mq & eq & ->)]; try (intros _; reflexivity).
  unfold f32_mul, SFmul. cbn [xorb]. rewrite Pos2Z.inj_mul.
  assert (Hshift : 0 <= shift_of (Z.pos mq * Z.pos mF) (eq + eF)).
  { assert (24 <= Zdigits2 (Z.pos mq * Z.pos mF))
      by (apply Zdigits2_ge; nia).
    unfold shift_of. rewrite fexp_eq. lia. }
  destruct (binary_round_aux_spec false (Z.pos mq * Z.pos mF) (eq + eF)
              loc_Exact ltac:(lia) Hshift) as (mr & -> & _ & Hmr & _).
  unfold result_of.
  destruct (Z.eqb_spec mr 0) as [->|Hne0]; [intros _; reflexivity|].
  destruct (Z.eqb_spec mr (2 ^ 24)) as [->|Hne].
  - destruct (_ + 1 <=? 104); [|discriminate].
    apply to_size_t_below_one. reflexivity.
  - destruct (_ <=? 104); [|discriminate].
    apply to_size_t_below_one. rewrite Z2Pos.id by lia. lia.
Qed.

Lemma calibrated_size_zero (sz t : Z) :
  0 <= sz < 2 ^ 64 ->
  f32_ltb g_maxTestDuration (seconds_of t) = true ->
  f32_ltb
    (f32_mul (f32_div g_maxTestDuration (seconds_of t)) (f32_of_Z sz))
    (f32_of_Z 1) = true ->
  calibrated_size sz t = Some 0.
Proof.
  intros Hsz Hlt Hone. unfold calibrated_size. rewrite Hlt.
  apply product_below_one; [exact Hsz | | exact Hone].
  assert (Ht : 0 < t).
  { destruct (Z.lt_ge_cases 0 t) as [H|H]; [exact H|].
    rewrite seconds_of_nonpos in Hlt by lia. discriminate. }
  destruct (seconds_of_pos t Ht) as [HT | (mt & et & HT & Hmt & Het)];
    rewrite HT in *.
  - left. reflexivity.
  - right. destruct (budget_quotient mt et Hmt Het Hlt) as (mq & eq & -> & _).
    eauto.
Qed.

(* ===================================================================== *)
(** * Properties *)

(** ** Block generation *)

Lemma size_nonneg (portion : Portion) : 0 <= size portion.
Proof. unfold size. lia. Qed.

Lemma size_app (p q : Portion) : size (p ++ q) = size p + size q.
Proof. unfold size. rewrite length_app. lia. Qed.

Lemma size_firstn (n : Z) (p : Portion) :
  0 <= n <= size p -> size (firstn (Z.to_nat n) p) = n.
Proof. unfold size. intros H. rewrite length_firstn. lia. Qed.

Lemma size_skipn (n : Z) (p : Portion) :
  0 <= n <= size p -> size (skipn (Z.to_nat n) p) = size p - n.
Proof. unfold size. intros H. rewrite length_skipn. lia. Qed.

Lemma size_repeat (n : nat) : size (repeat 0 n) = Z.of_nat n.
Proof. unfold size. now rewrite repeat_length. Qed.

Lemma size_resize (n : Z) (p : Portion) : 0 <= n -> size (resize n p) = n.
Proof.
  intros Hn. unfold resize, size.
  rewrite length_app, length_firstn, repeat_length. lia.
Qed.

Lemma resize_shrinks (n : Z) (p : Portion) :
  0 <= n <= size p -> resize n p = firstn (Z.to_nat n) p.
Proof.
  intros H. unfold resize, size in *.
  replace (Z.to_nat n - List.length p)%nat with 0%nat by lia.
  apply app_nil_r.
Qed.

Lemma length_int_bytes (v : Z) (n : nat) (k : Z) :
  List.length (int_bytes v n k) = n.
Proof.
  revert k. induction n as [|n IH]; intros k; simpl; [reflexivity|].
  now rewrite IH.
Qed.

Lemma nth_int_bytes (v : Z) (n : nat) (k : Z) (j : nat) :
  (j < n)%nat ->
  nth j (int_bytes v n k) 0 = byte_of_int v (k + Z.of_nat j).
Proof.
  revert k j. induction n as [|n IH]; intros k j Hj; [lia|].
  destruct j as [|j]; simpl int_bytes; simpl nth.
  - f_equal. lia.
  - rewrite IH by lia. f_equal. lia.
Qed.

(** A store inside the vector keeps its size and changes exactly the
    [width] bytes from [off]. *)
Lemma store_int_spec (width : Z) (p : Portion) (off v : Z) :
  0 <= width -> 0 <= off -> off + width <= size p ->
  exists p',
    store_int width p off v = Some p' /\
    size p' = size p /\
    forall k, 0 <= k ->
      byte_at p' k =
        if (off <=? k) && (k <? off + width) then byte_of_int v (k - off)
        else byte_at p k.
Proof.
  intros Hw Hoff Hin. unfold store_int.
  replace ((0 <=? off) && (off + width <=? size p)) with true
    by (symmetry; apply andb_true_iff; split; apply Z.leb_le; lia).
  eexists. split; [reflexivity|]. split.
  - rewrite !size_app, size_firstn, size_skipn by lia.
    unfold size at 1. rewrite length_int_bytes. lia.
  - intros k Hk. unfold byte_at.
    assert (Hlen1 : List.length (firstn (Z.to_nat off) p) = Z.to_nat off).
    { rewrite length_firstn. unfold size in Hin. lia. }
    destruct (off <=? k) eqn:E1; simpl.
    + apply Z.leb_le in E1.
      rewrite app_nth2 by lia. rewrite Hlen1.
      destruct (k <? off + width) eqn:E2.
      * apply Z.ltb_lt in E2.
        rewrite app_nth1 by (rewrite length_int_bytes; lia).
        rewrite nth_int_bytes by lia. f_equal. lia.
      * apply Z.ltb_ge in E2.
        rewrite app_nth2 by (rewrite length_int_bytes; lia).
        rewrite length_int_bytes, nth_skipn. f_equal. lia.
    + apply Z.leb_gt in E1.
      rewrite app_nth1 by lia. rewrite nth_firstn.
      replace (Z.to_nat k <? Z.to_nat off)%nat with true; [reflexivity|].
      symmetry. apply Nat.ltb_lt. lia.
Qed.

(** The fill loop from iteration [i] on: it never stores outside the
    vector, keeps the size, and sets exactly the bytes of the words
    [i], ..., [i + count - 1], word [j] from [rand j]. *)
Lemma fill_loop_spec (rand : Z -> Z) (width : Z) (count : nat) :
  0 < width ->
  forall (i : Z) (p : Portion),
    0 <= i -> (i + Z.of_nat count) * width <= size p ->
    exists p',
      fill_loop rand width count i p = Returns p' /\
      size p' = size p /\
      forall k, 0 <= k ->
        byte_at p' k =
          if (i * width <=? k) && (k <? (i + Z.of_nat count) * width)
          then byte_of_int (rand (k / width)) (k mod width)
          else byte_at p k.
Proof.
  intros Hw. induction count as [|count IH]; intros i p Hi Hsz.
  - exists p. split; [reflexivity|]. split; [reflexivity|].
    intros k Hk.
    replace ((i * width <=? k) && (k <? (i + Z.of_nat 0) * width))
      with false; [reflexivity|].
    symmetry. apply andb_false_iff.
    destruct (Z.le_gt_cases (i * width) k) as [H|H].
    + right. apply Z.ltb_ge. lia.
    + left. apply Z.leb_gt. lia.
  - destruct (store_int_spec width p (i * width) (rand i))
      as (p1 & Hstore & Hsz1 & Hbytes1); [lia | nia | nia |].
    destruct (IH (i + 1) p1) as (p2 & Hfill & Hsz2 & Hbytes2);
      [lia | rewrite Hsz1; nia |].
    exists p2. split; [simpl; rewrite Hstore; exact Hfill|].
    split; [congruence|].
    intros k Hk. rewrite (Hbytes2 k Hk), (Hbytes1 k Hk).
    replace ((i + 1 + Z.of_nat count) * width)
      with ((i + Z.of_nat (S count)) * width) by lia.
    replace (i * width + width) with ((i + 1) * width) by lia.
    destruct (Z.leb_spec ((i + 1) * width) k) as [H1|H1];
      destruct (Z.ltb_spec k ((i + Z.of_nat (S count)) * width)) as [H2|H2];
      destruct (Z.leb_spec (i * width) k) as [H3|H3];
      destruct (Z.ltb_spec k ((i + 1) * width)) as [H4|H4];
      simpl; try reflexivity; try nia.
    assert (Hq : k / width = i)
      by (symmetry; apply (Z.div_unique k width i (k - i * width)); lia).
    assert (Hr : k mod width = k - i * width)
      by (symmetry; apply (Z.mod_unique k width i (k - i * width)); lia).
    now rewrite Hq, Hr.
Qed.

(** Generation for any portion size [n] and word size [width]: the
    bytes of the [n / width] whole words come from [rand], the
    [n mod width] bytes after them keep the zero of [resize]. *)
Lemma fill_resized (rand : Z -> Z) (n width : Z) :
  0 < width -> 0 <= n ->
  exists p,
    fill_loop rand width (Z.to_nat (n / width)) 0 (resize n []) = Returns p /\
    size p = n /\
    forall k, 0 <= k < n ->
      byte_at p k =
        if k <? n / width * width
        then byte_of_int (rand (k / width)) (k mod width)
        else 0.
Proof.
  intros Hw Hn.
  assert (Hdiv : 0 <= n / width) by (apply Z.div_pos; lia).
  assert (Hle : n / width * width <= n)
    by (rewrite Z.mul_comm; apply Z.mul_div_le; lia).
  destruct (fill_loop_spec rand width (Z.to_nat (n / width)) Hw 0
              (resize n [])) as (p & Hfill & Hsz & Hbytes);
    [lia | rewrite size_resize by lia; lia |].
  exists p. split; [exact Hfill|]. split; [now rewrite Hsz, size_resize|].
  intros k Hk. rewrite Hbytes by lia.
  rewrite Z2Nat.id by lia. rewrite Z.add_0_l, Z.mul_0_l.
  replace (0 <=? k) with true by (symmetry; apply Z.leb_le; lia).
  simpl. destruct (k <? n / width * width); [reflexivity|].
  unfold byte_at, resize. rewrite firstn_nil. apply nth_repeat.
Qed.

(** The block [InitPortionWithRandomData] returns. *)
Lemma InitPortionWithRandomData_returns (rand : Z -> Z) (old : Portion) :
  exists p,
    InitPortionWithRandomData rand old = Returns p /\
    size p = g_portionSize /\
    forall k, 0 <= k < g_portionSize ->
      byte_at p k = byte_of_int (rand (k / sizeOfRand)) (k mod sizeOfRand).
Proof.
  destruct (fill_resized rand g_portionSize sizeOfRand)
    as (p & Hfill & Hsz & Hbytes); [reflexivity | discriminate |].
  exists p. split; [exact Hfill|]. split; [exact Hsz|].
  intros k Hk. rewrite Hbytes by exact Hk.
  replace (g_portionSize / sizeOfRand * sizeOfRand) with g_portionSize
    by reflexivity.
  replace (k <? g_portionSize) with true; [reflexivity|].
  symmetry. apply Z.ltb_lt. lia.
Qed.

(** C10. Block generation takes no size parameter and does not depend on
    what the portion held before: it always returns (no store falls
    outside the vector) a block of exactly [g_portionSize] = 104857600
    bytes, and every byte [k] of it is assigned by the fill loop, from
    the [rand()] word of iteration [k / 4]; the words cover the whole
    block because 104857600 is a multiple of the word size 4. *)
Theorem InitPortion_fills_whole_block (rand : Z -> Z) (old : Portion) :
  g_portionSize = 104857600 /\
  g_portionSize mod sizeOfRand = 0 /\
  exists p,
    InitPortionWithRandomData rand old = Returns p /\
    size p = 104857600 /\
    forall k, 0 <= k < 104857600 ->
      byte_at p k = byte_of_int (rand (k / sizeOfRand)) (k mod sizeOfRand).
Proof.
  split; [reflexivity|]. split; [reflexivity|].
  exact (InitPortionWithRandomData_returns rand old).
Qed.

(** ** [WriteTestFile] *)

Lemma firstn_whole (p : Portion) : firstn (Z.to_nat (size p)) p = p.
Proof. unfold size. rewrite Nat2Z.id. apply firstn_all. Qed.

Lemma size_concat_repeat (p : Portion) (n : nat) :
  size (List.concat (repeat p n)) = size p * Z.of_nat n.
Proof.
  induction n as [|n IH]; [simpl; unfold size; simpl; lia|].
  change (repeat p (S n)) with (p :: repeat p n).
  change (List.concat (p :: repeat p n)) with (p ++ List.concat (repeat p n)).
  rewrite size_app, IH. lia.
Qed.

Lemma first_short_none (o : FileOracle) (sz : Z) (count : nat) (i : Z) :
  first_short o sz count i = None <->
  forall j, i <= j < i + Z.of_nat count -> fwrite_ret o j = sz.
Proof.
  revert i. induction count as [|count IH]; intros i; simpl first_short.
  - split; [intros _ j Hj; lia | reflexivity].
  - destruct (Z.eqb_spec (fwrite_ret o i) sz) as [E|E].
    + rewrite IH. split; intros H j Hj.
      * destruct (Z.eq_dec j i) as [->|Hne]; [exact E | apply H; lia].
      * apply H. lia.
    + split; [discriminate|]. intros H. exfalso. apply E, H. lia.
Qed.

Lemma first_short_some (o : FileOracle) (sz : Z) (count : nat) (i j : Z) :
  first_short o sz count i = Some j <->
  i <= j < i + Z.of_nat count /\ fwrite_ret o j <> sz /\
  forall k, i <= k < j -> fwrite_ret o k = sz.
Proof.
  revert i. induction count as [|count IH]; intros i; simpl first_short.
  - split; [discriminate | lia].
  - destruct (Z.eqb_spec (fwrite_ret o i) sz) as [E|E].
    + rewrite IH. split.
      * intros (Hj & Hne & Hbefore). split; [lia|]. split; [exact Hne|].
        intros k Hk. destruct (Z.eq_dec k i) as [->|Hki];
          [exact E | apply Hbefore; lia].
      * intros (Hj & Hne & Hbefore).
        assert (j <> i) by (intros ->; contradiction).
        split; [lia|]. split; [exact Hne|]. intros k Hk. apply Hbefore. lia.
    + split.
      * intros [= <-]. split; [lia|]. split; [exact E|]. intros k Hk. lia.
      * intros (Hj & Hne & Hbefore).
        destruct (Z.eq_dec j i) as [->|Hji]; [reflexivity|].
        exfalso. apply E, Hbefore. lia.
Qed.


Lemma filter_write_events (f : Event -> bool) (o : FileOracle) (sz : Z)
  (count : nat) (i t : Z) :
  (forall a b c d, f (EvWrite a b c d) = is_write (EvWrite a b c d)) ->
  filter f (write_events o sz count i t) = write_events o sz count i t.
Proof.
  intros Hf. revert i t. induction count as [|count IH]; intros i t;
    simpl; [reflexivity|].
  rewrite Hf. simpl. now rewrite IH.
Qed.

Lemma filter_out_write_events (f : Event -> bool) (o : FileOracle) (sz : Z)
  (count : nat) (i t : Z) :
  (forall a b c d, f (EvWrite a b c d) = false) ->
  filter f (write_events o sz count i t) = [].
Proof.
  intros Hf. revert i t. induction count as [|count IH]; intros i t;
    simpl; [reflexivity|].
  now rewrite Hf, IH.
Qed.

Lemma length_write_events (o : FileOracle) (sz : Z) (count : nat) (i t : Z) :
  List.length (write_events o sz count i t) = count.
Proof.
  revert i t. induction count as [|count IH]; intros i t; simpl;
    [reflexivity | now rewrite IH].
Qed.




(** *** One call *)

Section OneCall.

Variables (o : FileOracle) (path : string) (portion : Portion).

(** The loop when none of its writes is short. *)
Lemma write_loop_complete (count : nat) :
  forall (i : Z) (w : World),
    first_short o (size portion) count i = None ->
    write_loop o path portion count i w =
      (Ok tt,
       mkWorld (now w + write_time o count i)
         (written w ++ List.concat (repeat portion count))
         (on_disk w)
         (is_open w)
         (events w ++ write_events o (size portion) count i (now w))).
Proof.
  induction count as [|count IH]; intros i w Hnone.
  - simpl. unfold ret. rewrite Z.add_0_r, !app_nil_r. now destruct w.
  - simpl in Hnone. simpl write_loop. unfold bind, fwrite.
    destruct (Z.eqb_spec (fwrite_ret o i) (size portion)) as [E|E];
      [|discriminate].
    cbn [negb]. rewrite IH by exact Hnone.
    unfold log_event. simpl. rewrite E, firstn_whole.
    f_equal. f_equal; [lia | now rewrite <- app_assoc | now rewrite <- app_assoc].
Qed.

(** The loop when write number [j] is the first short one: the handle is
    closed, the exception names [j], and write [j] was the last call. *)
Lemma write_loop_short (count : nat) :
  forall (i j : Z) (w : World),
    first_short o (size portion) count i = Some j ->
    exists w',
      write_loop o path portion count i w = (Throw (write_failed path j), w') /\
      is_open w' = false /\
      writes_made w' = writes_made w + (j - i + 1) /\
      written w' =
        written w ++ List.concat (repeat portion (Z.to_nat (j - i)))
          ++ firstn (Z.to_nat (fwrite_ret o j)) portion.
Proof.
  induction count as [|count IH]; intros i j w Hsome; [discriminate|].
  simpl in Hsome. simpl write_loop. unfold bind at 1. unfold fwrite at 1.
  destruct (Z.eqb_spec (fwrite_ret o i) (size portion)) as [E|E].
  - cbn [negb].
    pose proof (proj1 (first_short_some _ _ _ _ _) Hsome) as (Hj & _ & _).
    destruct (IH (i + 1) j
                (log_event (EvWrite i (size portion) (fwrite_ret o i)
                              (now w + fwrite_ns o i))
                   (mkWorld (now w + fwrite_ns o i)
                      (written w ++ firstn (Z.to_nat (fwrite_ret o i)) portion)
                      (on_disk w) (is_open w) (events w))) Hsome)
      as (w' & Hrun & Hopen & Hwrites & Hwritten).
    exists w'. split; [exact Hrun|]. split; [exact Hopen|]. split.
    + rewrite Hwrites. unfold writes_made, log_event. simpl.
      rewrite filter_app, length_app. simpl. lia.
    + rewrite Hwritten. unfold log_event. simpl.
      rewrite E, firstn_whole, <- app_assoc. f_equal.
      replace (Z.to_nat (j - i)) with (S (Z.to_nat (j - (i + 1)))) by lia.
      simpl. now rewrite <- app_assoc.
  - injection Hsome as <-. cbn [negb].
    eexists. split; [reflexivity|]. simpl. split; [reflexivity|]. split.
    + unfold writes_made. simpl. rewrite !filter_app, !length_app. simpl. lia.
    + rewrite Z.sub_diag. reflexivity.
Qed.

Lemma WriteTestFile_open_fails (w : World) :
  open_fails o = true ->
  exists w',
    WriteTestFile o path portion w = (Throw (create_failed path (fopen_errno o)), w')
    /\ writes_made w' = writes_made w.
Proof.
  intros Hfail. unfold WriteTestFile, bind, fopen_s.
  unfold open_fails in Hfail. rewrite Hfail.
  eexists. split; [reflexivity|].
  unfold writes_made, log_event. simpl.
  rewrite filter_app, length_app. simpl. lia.
Qed.

Lemma WriteTestFile_success (w : World) :
  open_fails o = false ->
  first_short o (size portion) (Z.to_nat g_portionsCount) 0 = None ->
  WriteTestFile o path portion w =
    (Ok (write_time o (Z.to_nat g_portionsCount) 0),
     world_after_success o path portion w).
Proof.
  intros Hopen Hnone. unfold WriteTestFile, bind at 1, fopen_s.
  unfold open_fails in Hopen. rewrite Hopen.
  apply orb_false_iff in Hopen. destruct Hopen as [_ Hnull].
  unfold bind at 1, StopWatch_new. unfold bind at 1.
  rewrite (write_loop_complete _ 0 _ Hnone).
  unfold bind, StopWatch_Stop, fclose, ret, log_event, world_after_success.
  rewrite Hnull. cbn [now written on_disk is_open events negb app].
  f_equal; [f_equal; lia|].
  f_equal. rewrite <- !app_assoc. reflexivity.
Qed.

Lemma WriteTestFile_short (w : World) (j : Z) :
  open_fails o = false ->
  first_short o (size portion) (Z.to_nat g_portionsCount) 0 = Some j ->
  exists w',
    WriteTestFile o path portion w = (Throw (write_failed path j), w') /\
    is_open w' = false /\
    writes_made w' = writes_made w + (j + 1) /\
    written w' =
      List.concat (repeat portion (Z.to_nat j))
        ++ firstn (Z.to_nat (fwrite_ret o j)) portion.
Proof.
  intros Hopen Hsome. unfold WriteTestFile, bind at 1, fopen_s.
  unfold open_fails in Hopen. rewrite Hopen.
  apply orb_false_iff in Hopen. destruct Hopen as [_ Hnull].
  unfold bind at 1, StopWatch_new. unfold bind at 1.
  match goal with
  | |- context [write_loop o path portion ?c 0 ?w0] =>
      destruct (write_loop_short c 0 j w0 Hsome)
        as (w' & Hrun & Hclosed & Hmade & Hwritten)
  end.
  rewrite Hrun. exists w'. split; [reflexivity|]. split; [exact Hclosed|].
  split.
  - rewrite Hmade. unfold writes_made, log_event. simpl.
    rewrite !filter_app, !length_app. simpl. lia.
  - rewrite Hwritten. unfold log_event. simpl. rewrite Hnull.
    now rewrite Z.sub_0_r.
Qed.

(** The outcome depends on the portion through its size only. *)
Lemma WriteTestFile_fst (w : World) :
  fst (WriteTestFile o path portion w) = WriteTestFile_outcome o path (size portion).
Proof.
  unfold WriteTestFile_outcome.
  destruct (open_fails o) eqn:Hopen.
  - destruct (WriteTestFile_open_fails w Hopen) as (w' & -> & _).
    reflexivity.
  - destruct (first_short o (size portion) (Z.to_nat g_portionsCount) 0)
      as [j|] eqn:Hshort.
    + destruct (WriteTestFile_short w j Hopen Hshort)
        as (w' & -> & _). reflexivity.
    + now rewrite WriteTestFile_success.
Qed.


(** A successful call is one whose open succeeded and whose ten writes
    were complete; it leaves [world_after_success]. *)
Lemma WriteTestFile_Ok_inv (w : World) (d : Z) (w' : World) :
  WriteTestFile o path portion w = (Ok d, w') ->
  open_fails o = false /\
  first_short o (size portion) (Z.to_nat g_portionsCount) 0 = None /\
  d = write_time o (Z.to_nat g_portionsCount) 0 /\
  w' = world_after_success o path portion w.
Proof.
  intros Hrun.
  destruct (open_fails o) eqn:Hopen.
  - destruct (WriteTestFile_open_fails w Hopen) as (w1 & H1 & _).
    congruence.
  - destruct (first_short o (size portion) (Z.to_nat g_portionsCount) 0)
      as [j|] eqn:Hshort.
    + destruct (WriteTestFile_short w j Hopen Hshort)
        as (w1 & H1 & _). congruence.
    + rewrite (WriteTestFile_success w Hopen Hshort) in Hrun.
      injection Hrun as <- <-. repeat split.
Qed.

Lemma watch_started_after_success :
  watch_started (world_after_success o path portion (oracle_world o))
  = Some (clock0 o + fopen_ns o).
Proof.
  unfold watch_started, world_after_success. cbn [events now oracle_world].
  rewrite !filter_app. rewrite filter_out_write_events by reflexivity.
  reflexivity.
Qed.

Lemma file_closed_after_success :
  file_closed (world_after_success o path portion (oracle_world o))
  = Some (clock0 o + fopen_ns o + write_time o (Z.to_nat g_portionsCount) 0
          + fclose_ns o).
Proof.
  unfold file_closed, world_after_success. cbn [events now oracle_world].
  rewrite !filter_app. rewrite filter_out_write_events by reflexivity.
  reflexivity.
Qed.

(** C7, amended.  For every successful invocation the stopwatch is read
    before [fclose] is called: the duration returned covers the interval
    from just before the first write to just after the last write
    returned, it is the time of the ten writes, and the return of
    [fclose] lies [fclose_ns] after the end of the measured interval. *)
Theorem WriteTestFile_duration_excludes_close (d : Z) (w' : World) :
  WriteTestFile o path portion (oracle_world o) = (Ok d, w') ->
  exists t0 t1 evs,
    watch_started w' = Some t0 /\
    events w' = evs ++ [EvWatchStop t1; EvClose (t1 + fclose_ns o)] /\
    file_closed w' = Some (t1 + fclose_ns o) /\
    d = t1 - t0 /\
    d = write_time o (Z.to_nat g_portionsCount) 0.
Proof.
  intros Hrun.
  apply WriteTestFile_Ok_inv in Hrun.
  destruct Hrun as (_ & _ & -> & ->).
  exists (clock0 o + fopen_ns o),
    (clock0 o + fopen_ns o + write_time o (Z.to_nat g_portionsCount) 0).
  eexists. split; [apply watch_started_after_success|].
  split; [|split; [apply file_closed_after_success|split; [lia|reflexivity]]].
  unfold world_after_success. cbn [events now oracle_world].
  rewrite app_assoc. reflexivity.
Qed.

End OneCall.



(** The result of [fclose] is not looked at: ten complete writes of a
    block of 1000 bytes and a normal return, with 9216 bytes in the
    file. *)
Example unnoticed_failure_of_fclose :
  exists d w',
    WriteTestFile (failing_close_oracle 1000 5 9216) "f" (repeat 7 1000)
      (oracle_world (failing_close_oracle 1000 5 9216)) = (Ok d, w') /\
    writes_made w' = 10 /\ size (written w') = 10000 /\
    size (on_disk w') = 9216.
Proof.
  eexists. eexists. split.
  - apply WriteTestFile_success; vm_compute; reflexivity.
  - vm_compute. repeat split.
Qed.

(** A clock that is set back by 120 ns during the third write: the
    duration returned is negative. *)
Example negative_duration :
  fst (WriteTestFile
         (mkFileOracle 0 0 false 0 (fun _ => 3)
            (fun i => if i =? 2 then -120 else 7) 0 0 0)
         "f" three_bytes (mkWorld 0 [] [] false []))
  = Ok (-57).
Proof. vm_compute. reflexivity. Qed.

(** C7, as the specification states it, fails: with an [fclose] that
    takes 2 ns after ten writes of 7 ns each, the call returns 70 ns,
    while the interval up to the return of [fclose] is 72 ns. *)
Lemma duration_covers_close_counterexample :
  ~ duration_covers_close (steady_oracle 3 7 2) "f" three_bytes.
Proof.
  intros H.
  destruct (H 70 (world_after_success (steady_oracle 3 7 2) "f" three_bytes
                    (oracle_world (steady_oracle 3 7 2))))
    as (t0 & t2 & H0 & H2 & Hd).
  - now rewrite WriteTestFile_success.
  - rewrite watch_started_after_success in H0.
    rewrite file_closed_after_success in H2.
    vm_compute in H0, H2. injection H0 as <-. injection H2 as <-.
    discriminate.
Qed.

Lemma WriteTestFile_duration_excludes_close_witness :
  exists t0 t1 evs,
    watch_started (world_after_success (steady_oracle 3 7 2) "f" three_bytes
                     (oracle_world (steady_oracle 3 7 2))) = Some t0 /\
    events (world_after_success (steady_oracle 3 7 2) "f" three_bytes
              (oracle_world (steady_oracle 3 7 2)))
    = evs ++ [EvWatchStop t1; EvClose (t1 + 2)] /\
    file_closed (world_after_success (steady_oracle 3 7 2) "f" three_bytes
                   (oracle_world (steady_oracle 3 7 2))) = Some (t1 + 2) /\
    70 = t1 - t0 /\
    70 = write_time (steady_oracle 3 7 2) (Z.to_nat g_portionsCount) 0.
Proof.
  apply (WriteTestFile_duration_excludes_close (steady_oracle 3 7 2) "f"
           three_bytes 70).
  vm_compute. reflexivity.
Defined.

(** ** The sweep *)

Lemma sweep_loop_ext (trial trial' : Z -> TrialOutcome) :
  (forall n, trial n = trial' n) ->
  forall fuel slowTests threadsCount lastSpeed,
    sweep_loop trial fuel slowTests threadsCount lastSpeed
    = sweep_loop trial' fuel slowTests threadsCount lastSpeed.
Proof.
  intros Hext. induction fuel as [|fuel IH]; intros slowTests n lastSpeed;
    simpl; [reflexivity|].
  rewrite <- Hext. destruct (slowTests <? g_maxSlowTests); [|reflexivity].
  destruct (trial n); try reflexivity. now rewrite IH.
Qed.

Lemma u8_small (x : Z) : 0 <= x < 256 -> u8 x = x.
Proof. intros H. unfold u8. apply Z.mod_small. lia. Qed.

Lemma u64_small (x : Z) : 0 <= x < 2 ^ 64 -> u64 x = x.
Proof. intros H. unfold u64. now apply Z.mod_small. Qed.

(** The first index in [[lo, n)] at which [f] holds, if there is one. *)
Lemma first_true_below (f : Z -> bool) (lo : Z) (k : nat) :
  (forall j, lo <= j < lo + Z.of_nat k -> f j = false) \/
  (exists r, lo <= r < lo + Z.of_nat k /\ f r = true /\
             forall j, lo <= j < r -> f j = false).
Proof.
  induction k as [|k [IH|IH]].
  - left. intros j Hj. lia.
  - destruct (f (lo + Z.of_nat k)) eqn:Hf.
    + right. exists (lo + Z.of_nat k). split; [lia|]. split; [exact Hf|].
      intros j Hj. apply IH. lia.
    + left. intros j Hj.
      destruct (Z.eq_dec j (lo + Z.of_nat k)) as [->|Hne];
        [exact Hf | apply IH; lia].
  - right. destruct IH as (r & Hr & Hfr & Hmin).
    exists r. split; [lia|]. now split.
Qed.

(** The test of the [while] loop. *)
Ltac loop_guard_holds :=
  match goal with
  | |- context [?s <? g_maxSlowTests] =>
      replace (s <? g_maxSlowTests) with true
        by (symmetry; apply Z.ltb_lt; unfold g_maxSlowTests in *; lia)
  end.

Ltac loop_guard_fails :=
  match goal with
  | |- context [?s <? g_maxSlowTests] =>
      replace (s <? g_maxSlowTests) with false
        by (symmetry; apply Z.ltb_ge; unfold g_maxSlowTests in *; lia)
  end.

(** *** The loop over an arbitrary sequence of trials *)

Section Sweep.

Variable trial : Z -> TrialOutcome.

(** One turn of the loop on a trial that succeeded. *)
Lemma sweep_loop_step (fuel : nat) (slowTests threadsCount : Z)
  (lastSpeed : float) (res : list Z) (t : Z) (currentSpeed : float) :
  slowTests < g_maxSlowTests ->
  trial threadsCount = TrialSpeed res t currentSpeed ->
  sweep_loop trial (S fuel) slowTests threadsCount lastSpeed =
    let slowTests' :=
      if f32_ltb currentSpeed lastSpeed then u8 (slowTests + 1) else 0 in
    (fst (sweep_loop trial fuel slowTests' (u64 (threadsCount + 1))
            currentSpeed),
     LogTrial threadsCount res t currentSpeed lastSpeed slowTests slowTests'
       :: snd (sweep_loop trial fuel slowTests' (u64 (threadsCount + 1))
                 currentSpeed)).
Proof.
  intros Hslow Htrial. simpl sweep_loop.
  loop_guard_holds. rewrite Htrial. cbv zeta.
  now destruct (sweep_loop trial fuel _ _ currentSpeed).
Qed.

Lemma sweep_loop_exit (fuel : nat) (slowTests threadsCount : Z)
  (lastSpeed : float) :
  g_maxSlowTests <= slowTests ->
  sweep_loop trial fuel slowTests threadsCount lastSpeed
  = (Some (Returns (u64 (threadsCount - 1))), []).
Proof.
  intros Hslow.
  destruct fuel; simpl; loop_guard_fails; reflexivity.
Qed.

(** C5.  After every trial of the sweep that completes, whatever the
    trials answer.  One turn of the loop: if the loop is entered with
    [slowTests] and [lastSpeed] and the trial at [threadsCount] reports
    [currentSpeed], the log gets the entry of that trial, and the loop
    goes on at the next thread count with [slowTests + 1] if
    [currentSpeed] is strictly lower than [lastSpeed] and with 0
    otherwise, and with [currentSpeed] as [lastSpeed] in both cases.
    The whole run: each entry of the log is the outcome of the trial at
    its thread count, starts from the [slowTests] and [lastSpeed] the
    entry before it left, and leaves [slowTests] by that rule. *)
Theorem sweep_counts_consecutive_regressions (fuel : nat)
  (slowTests threadsCount : Z) (lastSpeed : float) :
  0 <= slowTests ->
  (forall res currentWriteTime currentSpeed,
     slowTests < g_maxSlowTests ->
     trial threadsCount = TrialSpeed res currentWriteTime currentSpeed ->
     sweep_loop trial (S fuel) slowTests threadsCount lastSpeed
     = (fst (sweep_loop trial fuel
               (if f32_ltb currentSpeed lastSpeed then slowTests + 1 else 0)
               (u64 (threadsCount + 1)) currentSpeed),
        LogTrial threadsCount res currentWriteTime currentSpeed lastSpeed
          slowTests
          (if f32_ltb currentSpeed lastSpeed then slowTests + 1 else 0)
          :: snd (sweep_loop trial fuel
                    (if f32_ltb currentSpeed lastSpeed then slowTests + 1
                     else 0)
                    (u64 (threadsCount + 1)) currentSpeed))) /\
  log_of_trials trial
    (snd (sweep_loop trial fuel slowTests threadsCount lastSpeed)) /\
  log_follows_rule slowTests threadsCount lastSpeed
    (snd (sweep_loop trial fuel slowTests threadsCount lastSpeed)).
Proof.
  intros Hslow. split.
  - intros res t currentSpeed Hlt Htrial.
    rewrite (sweep_loop_step fuel slowTests threadsCount lastSpeed res t
               currentSpeed Hlt Htrial).
    cbv zeta.
    rewrite (u8_small (slowTests + 1))
      by (unfold g_maxSlowTests in Hlt; lia).
    reflexivity.
  - revert slowTests threadsCount lastSpeed Hslow.
    induction fuel as [|fuel IH]; intros slowTests n lastSpeed Hslow.
    + simpl. destruct (slowTests <? g_maxSlowTests); split; exact I.
    + destruct (Z.ltb_spec slowTests g_maxSlowTests) as [Hlt|Hge].
      * destruct (trial n) as [res| |res t currentSpeed] eqn:Htrial.
        -- simpl. rewrite Htrial. loop_guard_holds.
           cbn [snd log_of_trials log_follows_rule].
           split; [split; [exact Htrial | exact I] | split; reflexivity].
        -- simpl. rewrite Htrial. loop_guard_holds. split; exact I.
        -- rewrite (sweep_loop_step fuel slowTests n lastSpeed res t
                      currentSpeed Hlt Htrial).
           cbn [snd log_of_trials log_follows_rule].
           assert (Hu8 : u8 (slowTests + 1) = slowTests + 1)
             by (apply u8_small; unfold g_maxSlowTests in Hlt; lia).
           rewrite Hu8.
           assert (Hnext :
             0 <= (if f32_ltb currentSpeed lastSpeed then slowTests + 1
                   else 0))
             by (destruct (f32_ltb currentSpeed lastSpeed); lia).
           destruct (IH _ (u64 (n + 1)) currentSpeed Hnext) as [Htr Hrule].
           split; [split; [exact Htrial | exact Htr]|].
           split; [reflexivity|]. split; [reflexivity|].
           split; [reflexivity|]. split; [reflexivity|]. exact Hrule.
      * rewrite sweep_loop_exit by exact Hge. split; exact I.
Qed.

(** One turn of the loop on a trial that failed. *)
Lemma sweep_loop_bad (fuel : nat) (slowTests threadsCount : Z)
  (lastSpeed : float) (res : list Z) :
  slowTests < g_maxSlowTests ->
  trial threadsCount = TrialBad res ->
  sweep_loop trial (S fuel) slowTests threadsCount lastSpeed
  = (Some (Returns threadsCount), [LogBad threadsCount res]).
Proof.
  intros Hslow Htrial. simpl sweep_loop. loop_guard_holds. now rewrite Htrial.
Qed.

(** *** Termination of the sweep *)

Section ThroughputSequence.

(** [v 1] is the throughput of the calibration run and [v j] the one
    the trial at [j] threads reports. *)
Variable v : Z -> float.


(** As long as no trial is the second of two regressions in a row, the
    loop goes on: [m] trials from thread count [n] take it to thread
    count [n + m], with [slowTests] 1 or 0 according to whether the last
    trial regressed. *)
Lemma sweep_goes_on (m : nat) :
  forall (n : Z) (fuel : nat),
    2 <= n -> n + Z.of_nat m < 2 ^ 64 ->
    (forall j, n <= j < n + Z.of_nat m ->
               exists res t, trial j = TrialSpeed res t (v j)) ->
    (forall j, n <= j < n + Z.of_nat m -> second_regression v j = false) ->
    exists entries,
      List.length entries = m /\
      sweep_loop trial (m + fuel) (b2z (regresses v (n - 1))) n (v (n - 1))
      = (fst (sweep_loop trial fuel (b2z (regresses v (n + Z.of_nat m - 1)))
                (n + Z.of_nat m) (v (n + Z.of_nat m - 1))),
         entries
           ++ snd (sweep_loop trial fuel
                     (b2z (regresses v (n + Z.of_nat m - 1)))
                     (n + Z.of_nat m) (v (n + Z.of_nat m - 1)))).
Proof.
  induction m as [|m IH]; intros n fuel Hn Hmax Htrial Hnodouble.
  - exists []. split; [reflexivity|].
    replace (n + Z.of_nat 0 - 1) with (n - 1) by lia.
    replace (n + Z.of_nat 0) with n by lia.
    simpl. now destruct (sweep_loop trial fuel _ n _).
  - destruct (Htrial n ltac:(lia)) as (res & t & Hn_trial).
    assert (Hslow : b2z (regresses v (n - 1)) < g_maxSlowTests)
      by (unfold g_maxSlowTests, b2z; destruct (regresses v (n - 1)); lia).
    assert (Hstate :
              (if f32_ltb (v n) (v (n - 1))
               then u8 (b2z (regresses v (n - 1)) + 1) else 0)
              = b2z (regresses v (n + 1 - 1))).
    { replace (n + 1 - 1) with n by lia.
      specialize (Hnodouble n ltac:(lia)).
      unfold second_regression in Hnodouble. unfold regresses at 2.
      replace (2 <=? n) with true by (symmetry; apply Z.leb_le; lia).
      cbn [andb].
      destruct (f32_ltb (v n) (v (n - 1))) eqn:Hlt; [|reflexivity].
      assert (Hreg : regresses v n = true).
      { unfold regresses. rewrite Hlt.
        now replace (2 <=? n) with true by (symmetry; apply Z.leb_le; lia). }
      rewrite Hreg in Hnodouble. cbn [andb] in Hnodouble.
      rewrite Hnodouble. reflexivity. }
    destruct (IH (n + 1) fuel) as (entries & Hlen & Hrun).
    + lia.
    + lia.
    + intros j Hj. apply Htrial. lia.
    + intros j Hj. apply Hnodouble. lia.
    + change (S m + fuel)%nat with (S (m + fuel)).
      rewrite (sweep_loop_step (m + fuel) _ n (v (n - 1)) res t (v n)
                 Hslow Hn_trial).
      cbv zeta. rewrite Hstate.
      rewrite (u64_small (n + 1)) by lia.
      replace (v (n + 1 - 1)) with (v n) in Hrun by (f_equal; lia).
      rewrite Hrun.
      replace (n + 1 + Z.of_nat m) with (n + Z.of_nat (S m)) by lia.
      eexists (_ :: entries). split; [simpl; now rewrite Hlen|].
      reflexivity.
Qed.

(** C8. Let [v 1] be the throughput of the calibration run and [v j]
    the one of the trial at [j] threads, the trials up to [N] all
    completing.  If two trials in a row regress (the second of them at
    some count up to [N]), the loop terminates: with [r] the first count
    whose trial is the second of two regressions in a row, every run
    with fuel for [r - 1] trials returns [r], one less than the value
    [threadsCount] has at the exit, after exactly the trials at
    2, ..., [r].  If no trial up to [N] is the second of two regressions
    in a row, the loop is still running after all the [N - 1] trials. *)
Theorem sweep_stops_at_second_regression (N : Z) :
  3 <= N -> N + 1 < 2 ^ 64 ->
  (forall j, 2 <= j <= N -> exists res t, trial j = TrialSpeed res t (v j)) ->
  ((exists j, 3 <= j <= N /\ second_regression v j = true) ->
   exists r,
     3 <= r <= N /\ second_regression v r = true /\
     (forall j, 3 <= j < r -> second_regression v j = false) /\
     forall fuel, (Z.to_nat (r - 1) <= fuel)%nat ->
       exists log,
         sweep_loop trial fuel 0 2 (v 1) = (Some (Returns r), log) /\
         Z.of_nat (List.length log) = r - 1) /\
  ((forall j, 3 <= j <= N -> second_regression v j = false) ->
   exists log,
     sweep_loop trial (Z.to_nat (N - 1)) 0 2 (v 1) = (None, log) /\
     Z.of_nat (List.length log) = N - 1).
Proof.
  intros HN Hmax Htrial.
  assert (Hsecond2 : second_regression v 2 = false).
  { unfold second_regression, regresses. simpl. apply andb_false_r. }
  split.
  - intros (j0 & Hj0 & Hdouble0).
    destruct (first_true_below (second_regression v) 3 (Z.to_nat (N - 2)))
      as [Hnone | (r & Hr & Hdouble & Hmin)].
    { rewrite Hnone in Hdouble0 by lia. discriminate. }
    exists r. split; [lia|]. split; [exact Hdouble|]. split; [exact Hmin|].
    intros fuel Hfuel.
    destruct (sweep_goes_on (Z.to_nat (r - 2)) 2
                (fuel - Z.to_nat (r - 2))) as (entries & Hlen & Hrun).
    + lia.
    + lia.
    + intros j Hj. apply Htrial. lia.
    + intros j Hj. destruct (Z.eq_dec j 2) as [->|Hne];
        [exact Hsecond2 | apply Hmin; lia].
    + replace (Z.to_nat (r - 2) + (fuel - Z.to_nat (r - 2)))%nat with fuel
        in Hrun by lia.
      replace (2 + Z.of_nat (Z.to_nat (r - 2))) with r in Hrun by lia.
      change (regresses v (2 - 1)) with false in Hrun.
      change (2 - 1) with 1 in Hrun. cbn [b2z] in Hrun.
      rewrite Hrun. clear Hrun.
      unfold second_regression in Hdouble.
      apply andb_true_iff in Hdouble. destruct Hdouble as [Hreg Hreg'].
      rewrite Hreg'. cbn [b2z].
      destruct (Htrial r ltac:(lia)) as (res & t & Hr_trial).
      replace (fuel - Z.to_nat (r - 2))%nat
        with (S (fuel - Z.to_nat (r - 1)))%nat by lia.
      rewrite (sweep_loop_step _ 1 r (v (r - 1)) res t (v r));
        [|unfold g_maxSlowTests; lia | exact Hr_trial].
      cbv zeta.
      unfold regresses in Hreg. apply andb_true_iff in Hreg.
      destruct Hreg as [_ Hlt]. rewrite Hlt.
      change (u8 (1 + 1)) with 2.
      rewrite sweep_loop_exit by (unfold g_maxSlowTests; lia).
      cbn [fst snd].
      rewrite (u64_small (r + 1)) by lia.
      replace (r + 1 - 1) with r by lia. rewrite (u64_small r) by lia.
      eexists. split; [reflexivity|].
      rewrite length_app, Hlen. simpl. lia.
  - intros Hnone.
    destruct (sweep_goes_on (Z.to_nat (N - 1)) 2 0)
      as (entries & Hlen & Hrun).
    + lia.
    + lia.
    + intros j Hj. apply Htrial. lia.
    + intros j Hj. destruct (Z.eq_dec j 2) as [->|Hne];
        [exact Hsecond2 | apply Hnone; lia].
    + rewrite Nat.add_0_r in Hrun.
      change (regresses v (2 - 1)) with false in Hrun.
      change (2 - 1) with 1 in Hrun. cbn [b2z] in Hrun.
      rewrite Hrun. clear Hrun.
      assert (Hgo : forall s n l, s < g_maxSlowTests ->
                      sweep_loop trial 0 s n l = (None, [])).
      { intros s n l Hs. simpl. now loop_guard_holds. }
      rewrite Hgo
        by (unfold g_maxSlowTests, b2z; destruct (regresses v _); lia).
      cbn [fst snd]. rewrite app_nil_r.
      eexists. split; [reflexivity|]. lia.
Qed.

End ThroughputSequence.

(** *** Scenario C *)

(** C1, amended.  For the throughput sequence 100, 90, 80 MB/s at thread
    counts 1, 2, 3 the loop runs the trials at 2 and at 3 threads and no
    other, and the value returned is 3: the count of the trial that was
    the second regression, the last one run. *)
Theorem scenario_C_reports_three (res2 res3 : list Z) (t2 t3 : Z)
  (fuel : nat) :
  trial 2 = TrialSpeed res2 t2 (f32_of_Z 90) ->
  trial 3 = TrialSpeed res3 t3 (f32_of_Z 80) ->
  sweep_loop trial (S (S fuel)) 0 2 (f32_of_Z 100)
  = (Some (Returns 3),
     [LogTrial 2 res2 t2 (f32_of_Z 90) (f32_of_Z 100) 0 1;
      LogTrial 3 res3 t3 (f32_of_Z 80) (f32_of_Z 90) 1 2]).
Proof.
  intros H2 H3.
  rewrite (sweep_loop_step (S fuel) 0 2 (f32_of_Z 100) res2 t2
             (f32_of_Z 90)); [|reflexivity | exact H2].
  cbv zeta.
  change (f32_ltb (f32_of_Z 90) (f32_of_Z 100)) with true. cbv iota.
  change (u8 (0 + 1)) with 1. change (u64 (2 + 1)) with 3.
  rewrite (sweep_loop_step fuel 1 3 (f32_of_Z 90) res3 t3
             (f32_of_Z 80)); [|reflexivity | exact H3].
  cbv zeta.
  change (f32_ltb (f32_of_Z 80) (f32_of_Z 90)) with true. cbv iota.
  change (u8 (1 + 1)) with 2. change (u64 (3 + 1)) with 4.
  rewrite sweep_loop_exit by (unfold g_maxSlowTests; lia).
  reflexivity.
Qed.

End Sweep.

Lemma sweep_counts_consecutive_regressions_witness :
  sweep_loop scenario_C_trial 3 0 2 (f32_of_Z 100)
  = (fst (sweep_loop scenario_C_trial 2 1 3 (f32_of_Z 90)),
     LogTrial 2 [1; 1] 1 (f32_of_Z 90) (f32_of_Z 100) 0 1
       :: snd (sweep_loop scenario_C_trial 2 1 3 (f32_of_Z 90))) /\
  log_of_trials scenario_C_trial
    (snd (sweep_loop scenario_C_trial 2 0 2 (f32_of_Z 100))) /\
  log_follows_rule 0 2 (f32_of_Z 100)
    (snd (sweep_loop scenario_C_trial 2 0 2 (f32_of_Z 100))).
Proof.
  destruct (sweep_counts_consecutive_regressions scenario_C_trial 2 0 2
              (f32_of_Z 100)) as (Hstep & Htrials & Hrule); [lia|].
  split; [|split; [exact Htrials | exact Hrule]].
  apply (Hstep [1; 1] 1 (f32_of_Z 90)).
  - unfold g_maxSlowTests. lia.
  - reflexivity.
Defined.

Lemma sweep_stops_at_second_regression_witness :
  ((exists j, 3 <= j <= 3 /\ second_regression scenario_C_speed j = true) ->
   exists r,
     3 <= r <= 3 /\ second_regression scenario_C_speed r = true /\
     (forall j, 3 <= j < r -> second_regression scenario_C_speed j = false) /\
     forall fuel, (Z.to_nat (r - 1) <= fuel)%nat ->
       exists log,
         sweep_loop scenario_C_trial fuel 0 2 (scenario_C_speed 1)
         = (Some (Returns r), log) /\
         Z.of_nat (List.length log) = r - 1) /\
  ((forall j, 3 <= j <= 3 -> second_regression scenario_C_speed j = false) ->
   exists log,
     sweep_loop scenario_C_trial (Z.to_nat (3 - 1)) 0 2 (scenario_C_speed 1)
     = (None, log) /\
     Z.of_nat (List.length log) = 3 - 1).
Proof.
  apply (sweep_stops_at_second_regression scenario_C_trial scenario_C_speed 3).
  - lia.
  - reflexivity.
  - intros j Hj. assert (Hcases : j = 2 \/ j = 3) by lia.
    destruct Hcases as [-> | ->]; eexists _, _; reflexivity.
Defined.

(** C1, as the specification states it, fails: for the throughput
    sequence 100, 90, 80 the sweep does not report 2. *)
Lemma scenario_C_does_not_report_two :
  fst (sweep_loop scenario_C_trial 5 0 2 (f32_of_Z 100))
  <> Some (Returns 2).
Proof. vm_compute. discriminate. Qed.

Lemma scenario_C_reports_three_witness :
  sweep_loop scenario_C_trial 2 0 2 (f32_of_Z 100)
  = (Some (Returns 3),
     [LogTrial 2 [1; 1] 1 (f32_of_Z 90) (f32_of_Z 100) 0 1;
      LogTrial 3 [1; 1; 1] 1 (f32_of_Z 80) (f32_of_Z 90) 1 2]).
Proof.
  apply (scenario_C_reports_three scenario_C_trial [1; 1] [1; 1; 1] 1 1 0).
  - reflexivity.
  - reflexivity.
Defined.
(** *** A failing trial *)

Lemma length_thread_numbers (threadsCount : Z) :
  0 <= threadsCount ->
  Z.of_nat (List.length (thread_numbers threadsCount)) = threadsCount.
Proof.
  intros H. unfold thread_numbers. rewrite length_map, length_seq. lia.
Qed.

Lemma in_thread_numbers (threadsCount i : Z) :
  In i (thread_numbers threadsCount) <-> 0 <= i < threadsCount.
Proof.
  unfold thread_numbers. rewrite in_map_iff. split.
  - intros (k & <- & Hk). apply in_seq in Hk. lia.
  - intros Hi. exists (Z.to_nat i). split; [lia|]. apply in_seq. lia.
Qed.

Lemma run_threads_results (body : Z -> result Z) (threadsCount : Z) :
  0 <= threadsCount ->
  Z.of_nat (List.length (results (run_threads body threadsCount)))
  = threadsCount.
Proof.
  intros H. unfold run_threads. cbn [results].
  rewrite !length_map. now apply length_thread_numbers.
Qed.

Lemma run_threads_bad (body : Z -> result Z) (threadsCount : Z) :
  bad (run_threads body threadsCount) = true <->
  exists i what, 0 <= i < threadsCount /\ body i = Throw what.
Proof.
  unfold run_threads. cbn [bad]. rewrite existsb_exists. split.
  - intros (r & Hin & Hfailed). apply in_map_iff in Hin.
    destruct Hin as (i & <- & Hi). apply in_thread_numbers in Hi.
    destruct (body i) as [d|what] eqn:Hbody; [discriminate|].
    now exists i, what.
  - intros (i & what & Hi & Hbody). exists (Throw what). split; [|reflexivity].
    apply in_map_iff. exists i. split; [exact Hbody|].
    now apply in_thread_numbers.
Qed.

Lemma run_threads_ext (body body' : Z -> result Z) (threadsCount : Z) :
  (forall i, body i = body' i) ->
  run_threads body threadsCount = run_threads body' threadsCount.
Proof.
  intros Hext. unfold run_threads.
  now rewrite (map_ext body body' Hext).
Qed.

(** C4. Whenever the loop runs the trial at thread count [N] and some
    writer thread [i] of that trial fails (its [WriteTestFile] throws,
    for a failed open or for a short write), the loop ends there: all
    [N] threads are joined (there are [N] results) and the value
    returned is [N] itself. *)
Theorem failing_trial_returns_its_own_count (env : Env) (dirPath : string)
  (portion : Portion) (fuel : nat) (slowTests N : Z) (lastSpeed : float)
  (i : Z) (what : string) :
  slowTests < g_maxSlowTests ->
  0 <= i < N ->
  thread_body (thread_oracle env N i) dirPath portion i = Throw what ->
  exists res,
    sweep_loop (run_trial env dirPath portion) (S fuel) slowTests N lastSpeed
    = (Some (Returns N), [LogBad N res]) /\
    Z.of_nat (List.length res) = N.
Proof.
  intros Hslow Hi Hthrow.
  set (j := run_threads
              (fun threadNumber =>
                 thread_body (thread_oracle env N threadNumber) dirPath
                   portion threadNumber) N).
  assert (Hbad : bad j = true).
  { apply run_threads_bad. now exists i, what. }
  exists (results j). split.
  - apply sweep_loop_bad; [exact Hslow|].
    unfold run_trial, finish_trial. fold j. now rewrite Hbad.
  - apply run_threads_results. lia.
Qed.

Lemma failing_trial_returns_its_own_count_witness :
  exists res,
    sweep_loop (run_trial (scenario_D_env 3) "x:" three_bytes) 1 1 4
      (f32_of_Z 100)
    = (Some (Returns 4), [LogBad 4 res]) /\
    Z.of_nat (List.length res) = 4.
Proof.
  apply (failing_trial_returns_its_own_count (scenario_D_env 3) "x:" three_bytes
           0 1 4 (f32_of_Z 100) 3
           (create_failed (path_append "x:" (GetFileNameForThread 3)) 13)).
  - unfold g_maxSlowTests. lia.
  - lia.
  - vm_compute. reflexivity.
Defined.


(** ** The driver reads the portion through its size only *)

Lemma f32_to_size_t_range (f : float) (n : Z) :
  f32_to_size_t f = Some n -> 0 <= n < 2 ^ 64.
Proof.
  destruct f as [s|s| |s m e]; unfold f32_to_size_t; try discriminate.
  - intros [= <-]. lia.
  - set (v := if 0 <=? e then Z.pos m * 2 ^ e else Z.pos m / 2 ^ (- e)).
    assert (Hv : 0 <= v).
    { subst v. destruct (0 <=? e) eqn:He.
      - apply Z.leb_le in He. apply Z.mul_nonneg_nonneg; [lia|].
        apply Z.pow_nonneg. lia.
      - apply Z.leb_gt in He. apply Z.div_pos; [lia|].
        apply Z.pow_pos_nonneg; lia. }
    cbv zeta. destruct s.
    + destruct (v =? 0); [intros [= <-]; lia | discriminate].
    + destruct (Z.ltb_spec v (2 ^ 64)); [intros [= <-]; lia | discriminate].
Qed.

Lemma CalculateSpeed_of_size (p : Portion) (threadsCount ns : Z) :
  CalculateSpeed p threadsCount ns = speed_of_size (size p) threadsCount ns.
Proof. reflexivity. Qed.

Lemma run_trial_of_size (env : Env) (dirPath : string) (p : Portion)
  (threadsCount : Z) :
  run_trial env dirPath p threadsCount
  = trial_of_size env dirPath (size p) threadsCount.
Proof.
  unfold run_trial, trial_of_size, finish_trial.
  rewrite (run_threads_ext _
             (fun threadNumber =>
                WriteTestFile_outcome
                  (thread_oracle env threadsCount threadNumber)
                  (path_append dirPath (GetFileNameForThread threadNumber))
                  (size p))).
  - reflexivity.
  - intros i. unfold thread_body. apply WriteTestFile_fst.
Qed.

(** What [TestDriveWriteFirst] does to the size of the portion. *)
Lemma TestDriveWriteFirst_of_size (o : FileOracle) (dirPath : string)
  (p : Portion) :
  match WriteTestFile_outcome o (path_append dirPath "single_thread")
          (size p) with
  | Throw what => TestDriveWriteFirst o dirPath p = Throws what
  | Ok firstWriteTime =>
      match calibrated_size (size p) firstWriteTime with
      | None => TestDriveWriteFirst o dirPath p = Undefined
      | Some sz =>
          exists p',
            TestDriveWriteFirst o dirPath p = Returns (firstWriteTime, p') /\
            size p' = sz
      end
  end.
Proof.
  unfold TestDriveWriteFirst. rewrite WriteTestFile_fst.
  destruct (WriteTestFile_outcome o _ (size p)) as [t|what]; [|reflexivity].
  unfold calibrated_size, seconds_of.
  destruct (f32_ltb g_maxTestDuration _).
  - destruct (f32_to_size_t _) as [n|] eqn:Hn; [|reflexivity].
    eexists. split; [reflexivity|].
    apply size_resize. apply f32_to_size_t_range in Hn. lia.
  - now exists p.
Qed.

Lemma TestDriveWrite_by_size (env : Env) (dirPath : string) (fuel : nat) :
  TestDriveWrite env dirPath fuel = TestDriveWrite_of_size env dirPath fuel.
Proof.
  unfold TestDriveWrite, TestDriveWrite_of_size.
  destruct (InitPortionWithRandomData_returns (rand env) [])
    as (p & -> & Hsize & _).
  cbn [and_then].
  pose proof (TestDriveWriteFirst_of_size (first_oracle env) dirPath p) as H.
  rewrite Hsize in H.
  destruct (WriteTestFile_outcome (first_oracle env) _ g_portionSize)
    as [t|what]; [|now rewrite H].
  destruct (calibrated_size g_portionSize t) as [sz|]; [|now rewrite H].
  destruct H as (p' & -> & Hsz). cbn [and_then].
  rewrite CalculateSpeed_of_size, Hsz.
  apply sweep_loop_ext. intros n. rewrite run_trial_of_size. now rewrite Hsz.
Qed.

(** ** Calibration *)

(** C2, as the specification states it, fails: a block of 11 bytes
    whose calibration run takes 5.5 s is shrunk to 3 bytes, while
    [floor (11 * (2.0 / 5.5))] is 4. *)
Lemma calibration_as_claimed_counterexample : ~ calibration_as_claimed.
Proof.
  intros H.
  specialize (H (steady_oracle 11 550000000 0) "x:"%string eleven_bytes
                (resize 3 eleven_bytes) 5500000000).
  vm_compute in H. specialize (H eq_refl). discriminate.
Qed.

(** The same on the block of the program: after a calibration run of
    3 s the 104857600 bytes become 69905072, not
    [floor (104857600 * (2.0 / 3.0))] = 69905066. *)
Example calibration_of_the_generated_block :
  calibrated_size g_portionSize 3000000000 = Some 69905072 /\
  claimed_calibrated_size g_portionSize 3000000000 = 69905066.
Proof. split; vm_compute; reflexivity. Qed.

(** An elapsed time above 2.0 s by less than the resolution of [float]
    does not shrink the block. *)
Example calibration_just_above_budget :
  calibrated_size g_portionSize 2000000001 = Some g_portionSize /\
  claimed_calibrated_size g_portionSize 2000000001 = 104857599.
Proof. split; vm_compute; reflexivity. Qed.

(** Scenario B: 4.0 s with a block of 100 bytes gives 50 bytes. *)
Example scenario_B : calibrated_size 100 4000000000 = Some 50.
Proof. vm_compute. reflexivity. Qed.

Lemma TestDriveWriteFirst_unfold (o : FileOracle) (dirPath : string)
  (p : Portion) :
  TestDriveWriteFirst o dirPath p =
    match WriteTestFile_outcome o (path_append dirPath "single_thread")
            (size p) with
    | Throw what => Throws what
    | Ok t =>
        if f32_ltb g_maxTestDuration (seconds_of t) then
          match calibrated_size (size p) t with
          | Some n => Returns (t, resize n p)
          | None => Undefined
          end
        else Returns (t, p)
    end.
Proof.
  unfold TestDriveWriteFirst. rewrite WriteTestFile_fst.
  destruct (WriteTestFile_outcome o _ (size p)) as [t|what]; [|reflexivity].
  unfold calibrated_size. fold (seconds_of t).
  now destruct (f32_ltb g_maxTestDuration (seconds_of t)).
Qed.

(** C2, amended.  [TestDriveWriteFirst] never enlarges the block and
    never runs into the undefined conversion.  It shrinks the block if
    and only if the elapsed seconds as the code computes them in single
    precision, [float(ns) / 1e9f], strictly exceed [2.0f]; the new size
    is then the truncation of the single-precision product
    [(2.0f / seconds) * float(size)], the block keeps its first bytes,
    and a block that is not empty becomes strictly smaller.  Otherwise
    (in particular for an elapsed time of 0) the block is unchanged.
    An elapsed time of 4.0 s with a block of 100 bytes gives 50 bytes. *)
Theorem TestDriveWriteFirst_only_shrinks (o : FileOracle) (dirPath : string)
  (p : Portion) :
  size p < 2 ^ 64 ->
  TestDriveWriteFirst o dirPath p <> Undefined /\
  (forall t p',
     TestDriveWriteFirst o dirPath p = Returns (t, p') ->
     size p' <= size p /\
     (f32_ltb g_maxTestDuration (seconds_of t) = true ->
      f32_to_size_t
        (f32_mul (f32_div g_maxTestDuration (seconds_of t))
           (f32_of_Z (size p))) = Some (size p') /\
      p' = firstn (Z.to_nat (size p')) p /\
      (0 < size p -> size p' < size p)) /\
     (f32_ltb g_maxTestDuration (seconds_of t) = false -> p' = p) /\
     (t = 0 -> p' = p)) /\
  TestDriveWriteFirst (steady_oracle 100 400000000 0) dirPath hundred_bytes
  = Returns (4000000000, resize 50 hundred_bytes).
Proof.
  intros Hsize. pose proof (size_nonneg p) as Hnn.
  split; [|split].
  - rewrite TestDriveWriteFirst_unfold.
    destruct (WriteTestFile_outcome o _ (size p)) as [t|what];
      [|discriminate].
    destruct (calibrated_size_shrinks (size p) t ltac:(lia)) as (n & -> & _).
    now destruct (f32_ltb g_maxTestDuration (seconds_of t)).
  - intros t p'. rewrite TestDriveWriteFirst_unfold.
    destruct (WriteTestFile_outcome o _ (size p)) as [t0|what];
      [|discriminate].
    destruct (calibrated_size_shrinks (size p) t0 ltac:(lia))
      as (n & Hcal & Hn & Hshrink & Hkeep).
    rewrite Hcal.
    assert (Hzero : t = 0 -> f32_ltb g_maxTestDuration (seconds_of t) = false)
      by (intros ->; reflexivity).
    destruct (f32_ltb g_maxTestDuration (seconds_of t0)) eqn:Hlt;
      cbv iota; intros Heq; injection Heq as Ht Hp; subst t0 p'.
    + assert (Hsz : size (resize n p) = n) by (apply size_resize; lia).
      rewrite Hsz. split; [lia|]. split; [|split].
      * intros _. unfold calibrated_size in Hcal. rewrite Hlt in Hcal.
        split; [exact Hcal|]. split; [apply resize_shrinks; lia|].
        now apply Hshrink.
      * congruence.
      * intros H0. specialize (Hzero H0). congruence.
    + split; [lia|]. split; [congruence|]. split; reflexivity.
  - rewrite TestDriveWriteFirst_unfold. vm_compute. reflexivity.
Qed.

Lemma TestDriveWriteFirst_only_shrinks_witness :
  TestDriveWriteFirst (steady_oracle 11 550000000 0) "x:" eleven_bytes
  <> Undefined /\
  (forall t p',
     TestDriveWriteFirst (steady_oracle 11 550000000 0) "x:" eleven_bytes
     = Returns (t, p') ->
     size p' <= size eleven_bytes /\
     (f32_ltb g_maxTestDuration (seconds_of t) = true ->
      f32_to_size_t
        (f32_mul (f32_div g_maxTestDuration (seconds_of t))
           (f32_of_Z (size eleven_bytes))) = Some (size p') /\
      p' = firstn (Z.to_nat (size p')) eleven_bytes /\
      (0 < size eleven_bytes -> size p' < size eleven_bytes)) /\
     (f32_ltb g_maxTestDuration (seconds_of t) = false -> p' = eleven_bytes) /\
     (t = 0 -> p' = eleven_bytes)) /\
  TestDriveWriteFirst (steady_oracle 100 400000000 0) "x:" hundred_bytes
  = Returns (4000000000, resize 50 hundred_bytes).
Proof.
  apply (TestDriveWriteFirst_only_shrinks (steady_oracle 11 550000000 0)
           "x:" eleven_bytes).
  vm_compute. reflexivity.
Defined.


(** ** The reported throughput *)

(** Every trial of a sweep that completes reports [speed_of_size] of
    the calibrated size, its thread count and the integer average of
    the durations of its threads. *)
Lemma trial_of_size_speed (env : Env) (dirPath : string) (sz N : Z)
  (res : list Z) (t : Z) (s : float) :
  trial_of_size env dirPath sz N = TrialSpeed res t s ->
  t = sum_results res / N /\ s = speed_of_size sz N t.
Proof.
  unfold trial_of_size. cbv zeta.
  destruct (bad _); [discriminate|].
  destruct (N =? 0); [discriminate|].
  destruct (_ =? 0); [discriminate|].
  intros [= <- <- <-]. split; reflexivity.
Qed.

(** C3 fails on the code.  On a volume that writes 0.5 MiB/s the
    calibration leaves a block of 104857 bytes.  Two threads then write
    2097140 bytes in 2 s, more than 0.99 MiB/s, but [CalculateSpeed]
    divides the byte count by 2^20 in integer arithmetic before it
    converts it, keeps 1 MiB of it and reports 0.5 MB/s; the throughput
    of the calibration run itself is reported as 0. *)
Lemma CalculateSpeed_drops_fraction_of_MiB :
  calibrated_size g_portionSize 2000000000000 = Some 104857 /\
  speed_of_size 104857 2 2000000000 = S754_finite false 8388608 (-24) /\
  (F2R 8388608 (-24) = 1 / 2)%R /\
  99 * claimed_speed_den 2000000000 < 100 * claimed_speed_num 104857 2 /\
  TestDriveWrite slow_drive_env "x:" 1
  = (None,
     [LogTrial 2 [2000000000; 2000000000] 2000000000
        (S754_finite false 8388608 (-24)) (S754_zero false) 0 0]).
Proof.
  split; [vm_compute; reflexivity|].
  split; [vm_compute; reflexivity|].
  split; [|split; [vm_compute; reflexivity|]].
  - unfold F2R. rewrite bpow_m24. lra.
  - rewrite TestDriveWrite_by_size. vm_compute. reflexivity.
Qed.

(** ** Whole runs *)

(** Two regressions in a row, at 2 and at 3 threads: the run ends after
    the trial at 3 threads and returns 3. *)
Example run_with_two_regressions :
  fst (TestDriveWrite saturated_env "x:" 2) = Some (Returns 3) /\
  List.length (snd (TestDriveWrite saturated_env "x:" 2)) = 2%nat.
Proof. rewrite TestDriveWrite_by_size. split; vm_compute; reflexivity. Qed.

(** Scenario D: thread number 3 of the trial with 4 threads cannot open
    its file; the run returns 4 and its last log entry has the four
    results of that trial. *)
Example run_of_scenario_D :
  fst (TestDriveWrite (scenario_D_env g_portionSize) "x:" 10)
  = Some (Returns 4) /\
  last (snd (TestDriveWrite (scenario_D_env g_portionSize) "x:" 10))
    (LogBad 0 [])
  = LogBad 4 [3800000000; 3800000000; 3800000000; 0].
Proof. rewrite TestDriveWrite_by_size. split; vm_compute; reflexivity. Qed.

(** Scenario A: a block of 1000 bytes without line feed written ten
    times and closed without error gives a file of 10000 bytes. *)
Example run_of_scenario_A :
  size (on_disk (snd (WriteTestFile (steady_oracle 1000 5 1) "f"
                        (repeat 7 1000)
                        (oracle_world (steady_oracle 1000 5 1)))))
  = 10000.
Proof. vm_compute. reflexivity. Qed.

(* ===================================================================== *)
(** ** File names and printed durations *)

Lemma to_string_inj (a b : Z) : to_string a = to_string b -> a = b.
Proof.
  unfold to_string. intros H.
  assert (Hnn : forall n, Z.to_int n <> Decimal.Pos Decimal.Nil /\
                          Z.to_int n <> Decimal.Neg Decimal.Nil).
  { intros [|p|p]; split; try discriminate; simpl; intros [= Hp];
      now apply DecimalPos.Unsigned.to_uint_nonnil in Hp. }
  apply DecimalZ.to_int_inj.
  assert (Some (Z.to_int a) = Some (Z.to_int b)) as [= ->]; [|reflexivity].
  rewrite <- (NilZero.isi (Z.to_int a)), <- (NilZero.isi (Z.to_int b));
    try apply Hnn.
  now rewrite H.
Qed.

Lemma append_inv_head (s a b : string) :
  (s ++ a = s ++ b)%string -> a = b.
Proof.
  induction s as [|c s IH]; simpl; [trivial|].
  intros [= H]. now apply IH.
Qed.

Lemma string_length_append (a b : string) :
  String.length (a ++ b) = (String.length a + String.length b)%nat.
Proof. induction a as [|c a IH]; simpl; [reflexivity | now rewrite IH]. Qed.

Lemma append_inv_tail (a b t : string) :
  (a ++ t = b ++ t)%string -> a = b.
Proof.
  intros H.
  assert (Hlen : String.length a = String.length b).
  { apply (f_equal String.length) in H.
    rewrite !string_length_append in H. lia. }
  revert b H Hlen. induction a as [|c a IH]; intros [|d b]; simpl;
    try discriminate; [trivial|].
  intros [= -> H] [= Hlen]. f_equal. now apply IH.
Qed.

Lemma path_append_inj (dirPath a b : string) :
  path_append dirPath a = path_append dirPath b -> a = b.
Proof.
  unfold path_append. destruct (needs_separator dirPath); intros H;
    apply append_inv_head in H; [now injection H | exact H].
Qed.

(** X1.  The writer threads of a trial never share a file, and none of
    them writes the file of the calibration run: for thread numbers
    below a thread count that fits [size_t], [GetFileNameForThread]
    gives different names to different threads, so the paths handed to
    [WriteTestFile] differ, and none of them is the path of
    ["single_thread"]. *)
Theorem thread_files_are_distinct (dirPath : string)
  (threadsCount i j : Z) :
  threadsCount < 2 ^ 64 ->
  0 <= i < threadsCount -> 0 <= j < threadsCount ->
  (path_append dirPath (GetFileNameForThread i)
   = path_append dirPath (GetFileNameForThread j) -> i = j) /\
  path_append dirPath (GetFileNameForThread i)
  <> path_append dirPath "single_thread".
Proof.
  intros Hn Hi Hj. split.
  - intros H. apply path_append_inj in H. unfold GetFileNameForThread in H.
    apply append_inv_head, to_string_inj in H.
    rewrite !u64_small in H by lia. lia.
  - intros H. apply path_append_inj in H. discriminate H.
Qed.

Lemma thread_files_are_distinct_witness :
  (path_append "x:" (GetFileNameForThread 0)
   = path_append "x:" (GetFileNameForThread 3) -> 0 = 3) /\
  path_append "x:" (GetFileNameForThread 0)
  <> path_append "x:" "single_thread".
Proof. apply (thread_files_are_distinct "x:" 4 0 3); lia. Defined.

(** X2.  [NanosecondsToMsString] prints whole milliseconds, rounded down: two
    durations are printed alike exactly when they have the same number
    of whole milliseconds, and every duration below one millisecond is
    printed as ["0 ms"].  The overload on [std::chrono::nanoseconds]
    prints a duration that is not negative like the other one, and a
    negative one as the milliseconds of its count plus [2^64]. *)
Theorem NanosecondsToMsString_whole_ms (a b : Z) :
  (NanosecondsToMsString a = NanosecondsToMsString b
   <-> a / 1000000 = b / 1000000) /\
  (0 <= a < 1000000 -> NanosecondsToMsString a = "0 ms"%string) /\
  (0 <= a < 2 ^ 63 -> NanosecondsToMsString_ns a = NanosecondsToMsString a) /\
  (- 2 ^ 63 <= a < 0 ->
   NanosecondsToMsString_ns a = NanosecondsToMsString (a + 2 ^ 64)).
Proof.
  split; [|split; [|split]].
  - unfold NanosecondsToMsString. split.
    + intros H. now apply append_inv_tail, to_string_inj in H.
    + now intros ->.
  - intros Ha. unfold NanosecondsToMsString.
    now rewrite Z.div_small by lia.
  - intros Ha. unfold NanosecondsToMsString_ns.
    now rewrite u64_small by lia.
  - intros Ha. unfold NanosecondsToMsString_ns. f_equal. unfold u64.
    rewrite <- (Z.mod_add a 1 (2 ^ 64)) by lia.
    rewrite Z.mul_1_l. apply Z.mod_small. lia.
Qed.

(* ===================================================================== *)
(** ** The calls one invocation of [WriteTestFile] makes *)

Section FileAfterCall.

Variables (o : FileOracle) (path : string) (portion : Portion).

(** The calls the loop makes when write number [j] is the first short
    one: the complete writes before it, the short write, [fclose]. *)
Lemma write_loop_short_events (count : nat) :
  forall (i j : Z) (w : World),
    first_short o (size portion) count i = Some j ->
    exists w' t,
      write_loop o path portion count i w = (Throw (write_failed path j), w') /\
      events w' =
        events w
          ++ write_events o (size portion) (Z.to_nat (j - i)) i (now w)
          ++ [EvWrite j (size portion) (fwrite_ret o j) t;
              EvClose (t + fclose_ns o)].
Proof.
  induction count as [|count IH]; intros i j w Hsome; [discriminate|].
  simpl in Hsome. simpl write_loop. unfold bind at 1. unfold fwrite at 1.
  destruct (Z.eqb_spec (fwrite_ret o i) (size portion)) as [E|E].
  - cbn [negb].
    pose proof (proj1 (first_short_some _ _ _ _ _) Hsome) as (Hj & _ & _).
    match goal with
    | |- context [write_loop o path portion count (i + 1) ?w0] =>
        destruct (IH (i + 1) j w0 Hsome) as (w' & t & Hrun & Hev)
    end.
    exists w', t. split; [exact Hrun|].
    rewrite Hev. unfold log_event. cbn [events now].
    replace (Z.to_nat (j - i)) with (S (Z.to_nat (j - (i + 1)))) by lia.
    cbn [write_events]. rewrite E, <- !app_assoc. reflexivity.
  - injection Hsome as <-. cbn [negb].
    eexists. eexists. split; [reflexivity|].
    rewrite Z.sub_diag. unfold log_event.
    cbn [events now Z.to_nat write_events app].
    rewrite <- app_assoc. reflexivity.
Qed.

(** A call whose open succeeds and whose write number [j] is the first
    short one: [fclose] is its last call and its only [fclose]. *)
Lemma WriteTestFile_short_events (w : World) (j : Z) :
  open_fails o = false ->
  first_short o (size portion) (Z.to_nat g_portionsCount) 0 = Some j ->
  exists w' evs t,
    WriteTestFile o path portion w = (Throw (write_failed path j), w') /\
    is_open w' = false /\
    events w' = (events w ++ evs) ++ [EvClose t] /\
    filter is_close evs = [].
Proof.
  intros Hopen Hshort. unfold WriteTestFile, bind at 1, fopen_s.
  unfold open_fails in Hopen. rewrite Hopen.
  unfold bind at 1, StopWatch_new. unfold bind at 1.
  match goal with
  | |- context [write_loop o path portion ?c 0 ?w0] =>
      destruct (write_loop_short o path portion c 0 j w0 Hshort)
        as (w1 & Hrun1 & Hclosed & _);
      destruct (write_loop_short_events c 0 j w0 Hshort)
        as (w2 & t & Hrun2 & Hev)
  end.
  rewrite Hrun1 in Hrun2. injection Hrun2 as <-.
  rewrite Hrun1. exists w1.
  exists ([EvOpen path (now w + fopen_ns o); EvWatchStart (now w + fopen_ns o)]
            ++ write_events o (size portion) (Z.to_nat (j - 0)) 0
                 (now w + fopen_ns o)
            ++ [EvWrite j (size portion) (fwrite_ret o j) t]).
  exists (t + fclose_ns o).
  split; [reflexivity|]. split; [exact Hclosed|]. split.
  - rewrite Hev. unfold log_event. cbn [events now].
    rewrite <- !app_assoc. reflexivity.
  - rewrite !filter_app. rewrite filter_out_write_events by reflexivity.
    reflexivity.
Qed.

(** X3.  [WriteTestFile] closes what it opened, once, and last: when
    [fopen_s] fails no [fclose] is called; when it succeeds [fclose] is
    called exactly once, on the success path and on the short-write
    path alike, it is the last library call of the invocation (nothing
    is written after it), and the handle is closed at the end.  If
    [fopen_s] keeps its contract (a non-zero error code comes with a
    null handle), no path leaves a file open. *)
Theorem WriteTestFile_closes_once :
  closes_made (snd (WriteTestFile o path portion (oracle_world o)))
  = (if open_fails o then 0 else 1) /\
  (open_fails o = false ->
   is_open (snd (WriteTestFile o path portion (oracle_world o))) = false /\
   exists evs t,
     events (snd (WriteTestFile o path portion (oracle_world o)))
     = evs ++ [EvClose t]) /\
  ((fopen_errno o <> 0 -> fopen_null o = true) ->
   is_open (snd (WriteTestFile o path portion (oracle_world o))) = false).
Proof.
  destruct (open_fails o) eqn:Hopen.
  - assert (Hrun : snd (WriteTestFile o path portion (oracle_world o))
                   = log_event (EvOpen path (clock0 o + fopen_ns o))
                       (mkWorld (clock0 o + fopen_ns o)
                          (if fopen_null o then [] else [])
                          (if fopen_null o then [] else [])
                          (negb (fopen_null o)) [])).
    { unfold WriteTestFile, bind, fopen_s. unfold open_fails in Hopen.
      rewrite Hopen. reflexivity. }
    rewrite Hrun. split; [reflexivity|]. split; [discriminate|].
    intros Hcontract. unfold log_event. cbn [is_open].
    unfold open_fails in Hopen. apply orb_true_iff in Hopen.
    destruct Hopen as [Herr|Hnull]; [|now rewrite Hnull].
    rewrite Hcontract; [reflexivity|].
    intros H0. rewrite H0 in Herr. discriminate.
  - assert (Hboth :
      closes_made (snd (WriteTestFile o path portion (oracle_world o))) = 1 /\
      is_open (snd (WriteTestFile o path portion (oracle_world o))) = false /\
      exists evs t,
        events (snd (WriteTestFile o path portion (oracle_world o)))
        = evs ++ [EvClose t]).
    { destruct (first_short o (size portion) (Z.to_nat g_portionsCount) 0)
        as [j|] eqn:Hshort.
      - destruct (WriteTestFile_short_events (oracle_world o) j Hopen Hshort)
          as (w' & evs & t & Hrun & Hclosed & Hev & Hnone).
        rewrite Hrun. cbn [snd]. split; [|split; [exact Hclosed|]].
        + unfold closes_made. rewrite Hev, !filter_app, Hnone. reflexivity.
        + now exists evs, t.
      - rewrite (WriteTestFile_success o path portion _ Hopen Hshort).
        cbn [snd]. split; [|split; [reflexivity|]].
        + unfold closes_made, world_after_success.
          cbn [events now oracle_world].
          rewrite !filter_app.
          rewrite filter_out_write_events by reflexivity. reflexivity.
        + unfold world_after_success. cbn [events].
          eexists. eexists.
          match goal with
          | |- context [[EvWatchStop ?a; EvClose ?b]] =>
              change [EvWatchStop a; EvClose b]
                with ([EvWatchStop a] ++ [EvClose b])
          end.
          rewrite !app_assoc. reflexivity. }
    destruct Hboth as (Hc & Hclosed & Hlast).
    split; [exact Hc|]. split; [intros _; now split|].
    intros _. exact Hclosed.
Qed.

End FileAfterCall.


(* ===================================================================== *)
(** ** The content of the generated block *)

Lemma byte_of_int_range (v k : Z) : 0 <= byte_of_int v k < 256.
Proof. unfold byte_of_int. apply Z.mod_pos_bound. lia. Qed.

(** The four bytes of a word, least significant first, make up the
    word. *)
Lemma bytes_make_word (v : Z) :
  byte_of_int v 0 + 256 * byte_of_int v 1 + 256 ^ 2 * byte_of_int v 2
    + 256 ^ 3 * byte_of_int v 3
  = v mod 2 ^ 32.
Proof.
  unfold byte_of_int.
  change (2 ^ 32) with (256 * (256 * (256 * 256))).
  rewrite (Z.rem_mul_r v 256 (256 * (256 * 256))) by lia.
  rewrite (Z.rem_mul_r (v / 256) 256 (256 * 256)) by lia.
  rewrite (Z.rem_mul_r (v / 256 / 256) 256 256) by lia.
  rewrite !Z.div_div by lia.
  change (256 ^ 0) with 1. change (256 ^ 1) with 256.
  change (256 ^ 2) with (256 * 256). change (256 ^ 3) with (256 * 256 * 256).
  rewrite Z.div_1_r. lia.
Qed.

Lemma byte_of_int_high (v b k : Z) :
  0 <= v < 256 ^ b -> 0 <= b <= k -> byte_of_int v k = 0.
Proof.
  intros Hv Hk. unfold byte_of_int.
  rewrite Z.div_small; [reflexivity|].
  assert (256 ^ b <= 256 ^ k) by (apply Z.pow_le_mono_r; lia). lia.
Qed.

(** X5.  The generated block is the sequence of the values of [rand()],
    each stored in four bytes with the least significant byte first:
    every element is a byte, and the four bytes of word [i] make up the
    value of call number [i] (as a 32-bit pattern), for each of the
    26214400 words. *)
Theorem block_is_the_rand_words (rand : Z -> Z) (old : Portion) :
  exists p,
    InitPortionWithRandomData rand old = Returns p /\
    (forall k, 0 <= k < g_portionSize -> 0 <= byte_at p k < 256) /\
    (forall i, 0 <= i < g_portionSize / sizeOfRand ->
       byte_at p (4 * i) + 256 * byte_at p (4 * i + 1)
         + 256 ^ 2 * byte_at p (4 * i + 2) + 256 ^ 3 * byte_at p (4 * i + 3)
       = rand i mod 2 ^ 32).
Proof.
  destruct (InitPortionWithRandomData_returns rand old)
    as (p & Hrun & _ & Hbytes).
  exists p. split; [exact Hrun|]. split.
  - intros k Hk. rewrite Hbytes by exact Hk. apply byte_of_int_range.
  - intros i Hi. change (g_portionSize / sizeOfRand) with 26214400 in Hi.
    assert (Hword : forall c, 0 <= c < 4 ->
              byte_at p (4 * i + c) = byte_of_int (rand i) c).
    { intros c Hc. rewrite Hbytes by (unfold g_portionSize; lia).
      unfold sizeOfRand.
      replace ((4 * i + c) / 4) with i
        by (apply (Z.div_unique _ 4 i c); lia).
      replace ((4 * i + c) mod 4) with c
        by (apply (Z.mod_unique _ 4 i c); lia).
      reflexivity. }
    rewrite <- (Z.add_0_r (4 * i)) at 1.
    rewrite !Hword by lia. apply bytes_make_word.
Qed.

(** X6.  The generated block is only as random as [rand()] is wide.  If
    every value of [rand()] is below [256^b] (with the [RAND_MAX] of
    32767 of the runtime the program is written for, [b] is 2), then
    in every word of the block the bytes from number [b] on are zero:
    with [b = 2], half of the bytes of the block. *)
Theorem block_high_bytes_are_zero (rand : Z -> Z) (old : Portion) (b : Z) :
  0 <= b ->
  (forall i, 0 <= rand i < 256 ^ b) ->
  exists p,
    InitPortionWithRandomData rand old = Returns p /\
    forall k, 0 <= k < g_portionSize -> b <= k mod sizeOfRand ->
      byte_at p k = 0.
Proof.
  intros Hb Hrand.
  destruct (InitPortionWithRandomData_returns rand old)
    as (p & Hrun & _ & Hbytes).
  exists p. split; [exact Hrun|].
  intros k Hk Hhigh. rewrite Hbytes by exact Hk.
  apply (byte_of_int_high _ b); [apply Hrand | lia].
Qed.

Lemma block_high_bytes_are_zero_witness :
  exists p,
    InitPortionWithRandomData (fun i => (i * 7919) mod 32768) [] = Returns p /\
    forall k, 0 <= k < g_portionSize -> 2 <= k mod sizeOfRand ->
      byte_at p k = 0.
Proof.
  apply (block_high_bytes_are_zero (fun i => (i * 7919) mod 32768) [] 2).
  - lia.
  - intros i. change (256 ^ 2) with 65536.
    pose proof (Z.mod_pos_bound (i * 7919) 32768). lia.
Defined.

(* ===================================================================== *)
(** ** The range of the reported throughput *)

(** The conversion of a positive integer below [2^d]. *)
Lemma f32_of_Z_normal (n d : Z) :
  0 < n < 2 ^ d -> 0 <= d <= 127 ->
  exists m e,
    f32_of_Z n = S754_finite false m e /\
    2 ^ 23 <= Z.pos m < 2 ^ 24 /\ -23 <= e <= d - 23.
Proof.
  intros Hn Hd.
  destruct (f32_of_Z_spec n ltac:(lia)) as (mr & Hmr & Heq & _).
  pose proof (Zdigits2_pos n ltac:(lia)) as Hpos.
  pose proof (Zdigits2_le n d ltac:(lia) ltac:(lia)) as Hle.
  destruct (result_of_normal false mr (Zdigits2 n - 24) Hmr)
    as [(m & e & Hres & Hm & He & _) | [_ Hover]]; [|lia].
  exists m, e. rewrite Heq, Hres. split; [reflexivity|]. split; [exact Hm|].
  lia.
Qed.

(** The quotient of two normal floats, away from overflow and
    underflow, is a normal float. *)
Lemma f32_div_normal (s1 s2 : bool) (m1 m2 : positive) (e1 e2 : Z) :
  2 ^ 23 <= Z.pos m1 < 2 ^ 24 -> 2 ^ 23 <= Z.pos m2 < 2 ^ 24 ->
  -149 <= e1 - e2 - 24 -> e1 - e2 - 23 < 104 ->
  exists m e,
    f32_div (S754_finite s1 m1 e1) (S754_finite s2 m2 e2)
    = S754_finite (xorb s1 s2) m e /\
    2 ^ 23 <= Z.pos m < 2 ^ 24 /\ e1 - e2 - 24 <= e <= e1 - e2 - 22.
Proof.
  intros Hm1 Hm2 Hlow Hhigh.
  destruct (SFdiv_normal s1 s2 m1 m2 e1 e2 Hm1 Hm2 Hlow)
    as (mr & n & Hn & Hmr & -> & _).
  destruct (result_of_normal (xorb s1 s2) mr (e1 - e2 - 24 + n) Hmr)
    as [(m & e & -> & Hm & He & _) | [_ Hover]]; [|lia].
  exists m, e. split; [reflexivity|]. split; [exact Hm | lia].
Qed.

Lemma thousand_eq : f32_of_Z 1000 = S754_finite false 16384000 (-14).
Proof. vm_compute. reflexivity. Qed.

(** The divisor of [CalculateSpeed], the seconds of [ns] nanoseconds
    computed by three divisions by 1000, for a positive [ns]. *)
Lemma speed_divisor_normal (ns : Z) :
  0 < ns < 2 ^ 64 ->
  exists m e,
    f32_div (f32_div (f32_div (f32_of_Z ns) (f32_of_Z 1000)) (f32_of_Z 1000))
      (f32_of_Z 1000)
    = S754_finite false m e /\
    2 ^ 23 <= Z.pos m < 2 ^ 24 /\ -53 <= e <= 17.
Proof.
  intros Hns. rewrite thousand_eq.
  destruct (f32_of_Z_normal ns 64 Hns ltac:(lia)) as (m0 & e0 & -> & Hm0 & He0).
  destruct (f32_div_normal false false m0 16384000 e0 (-14) Hm0
              ltac:(lia) ltac:(lia) ltac:(lia))
    as (m1 & e1 & -> & Hm1 & He1).
  cbn [xorb].
  destruct (f32_div_normal false false m1 16384000 e1 (-14) Hm1
              ltac:(lia) ltac:(lia) ltac:(lia))
    as (m2 & e2 & -> & Hm2 & He2).
  cbn [xorb].
  destruct (f32_div_normal false false m2 16384000 e2 (-14) Hm2
              ltac:(lia) ltac:(lia) ltac:(lia))
    as (m3 & e3 & -> & Hm3 & He3).
  cbn [xorb].
  exists m3, e3. split; [reflexivity|]. split; [exact Hm3 | lia].
Qed.

(** The number of whole mebibytes [CalculateSpeed] converts. *)
Lemma whole_MiB_range (sz threadsCount : Z) :
  0 <= u64 (u64 (sz * g_portionsCount) * threadsCount) / 1024 / 1024
    < 2 ^ 44.
Proof.
  unfold u64.
  pose proof (Z.mod_pos_bound ((sz * g_portionsCount) mod 2 ^ 64 * threadsCount)
                (2 ^ 64) ltac:(lia)) as H.
  set (b := ((sz * g_portionsCount) mod 2 ^ 64 * threadsCount) mod 2 ^ 64) in *.
  rewrite Z.div_div by lia. change (1024 * 1024) with (2 ^ 20).
  split.
  - apply Z.div_pos; lia.
  - apply Z.div_lt_upper_bound; [lia|].
    change (2 ^ 20 * 2 ^ 44) with (2 ^ 64). lia.
Qed.

Lemma speed_of_size_positive_time (sz threadsCount ns : Z) :
  0 < ns < 2 ^ 64 ->
  (u64 (u64 (sz * g_portionsCount) * threadsCount) / 1024 / 1024 = 0 /\
   speed_of_size sz threadsCount ns = S754_zero false) \/
  (0 < u64 (u64 (sz * g_portionsCount) * threadsCount) / 1024 / 1024 /\
   exists m e, speed_of_size sz threadsCount ns = S754_finite false m e /\
               2 ^ 23 <= Z.pos m < 2 ^ 24).
Proof.
  intros Hns. unfold speed_of_size.
  destruct (speed_divisor_normal ns Hns) as (md & ed & -> & Hmd & Hed).
  pose proof (whole_MiB_range sz threadsCount) as HN.
  set (N := u64 (u64 (sz * g_portionsCount) * threadsCount) / 1024 / 1024) in *.
  destruct (Z.eq_dec N 0) as [H0|Hne].
  - left. split; [exact H0|]. rewrite H0. reflexivity.
  - right. split; [lia|].
    destruct (f32_of_Z_normal N 44 ltac:(lia) ltac:(lia))
      as (mn & en & -> & Hmn & Hen).
    destruct (f32_div_normal false false mn md en ed Hmn Hmd
                ltac:(lia) ltac:(lia))
      as (m & e & -> & Hm & _).
    exists m, e. split; [reflexivity | exact Hm].
Qed.

Lemma speed_of_size_zero_time (sz threadsCount : Z) :
  speed_of_size sz threadsCount 0 =
    if u64 (u64 (sz * g_portionsCount) * threadsCount) / 1024 / 1024 =? 0
    then S754_nan else S754_infinity false.
Proof.
  unfold speed_of_size.
  pose proof (whole_MiB_range sz threadsCount) as HN.
  set (N := u64 (u64 (sz * g_portionsCount) * threadsCount) / 1024 / 1024) in *.
  change (f32_div (f32_div (f32_div (f32_of_Z 0) (f32_of_Z 1000))
                     (f32_of_Z 1000)) (f32_of_Z 1000))
    with (S754_zero false).
  destruct (Z.eqb_spec N 0) as [->|Hne]; [reflexivity|].
  destruct (f32_of_Z_normal N 44 ltac:(lia) ltac:(lia))
    as (mn & en & -> & _).
  reflexivity.
Qed.

(** X7.  For a positive elapsed time, [CalculateSpeed] returns a number that
    is zero or positive and below infinity: never a NaN, never an
    infinity, never negative, whatever the block and the thread count.
    It returns zero exactly when the bytes of the trial (as the code
    counts them, in [size_t]) are less than one mebibyte. *)
Theorem CalculateSpeed_is_finite (portion : Portion) (threadsCount ns : Z) :
  0 < ns < 2 ^ 64 ->
  finite_nonneg (CalculateSpeed portion threadsCount ns) = true /\
  (CalculateSpeed portion threadsCount ns = S754_zero false <->
   u64 (u64 (size portion * g_portionsCount) * threadsCount) < 1024 * 1024).
Proof.
  intros Hns. rewrite CalculateSpeed_of_size.
  assert (Hsmall :
    u64 (u64 (size portion * g_portionsCount) * threadsCount) / 1024 / 1024 = 0
    <-> u64 (u64 (size portion * g_portionsCount) * threadsCount)
        < 1024 * 1024).
  { rewrite Z.div_div by lia.
    assert (0 <= u64 (u64 (size portion * g_portionsCount) * threadsCount))
      by (unfold u64 at 1; apply Z.mod_pos_bound; lia).
    split.
    - intros H0. apply Z.div_small_iff in H0; lia.
    - intros Hlt. apply Z.div_small. lia. }
  destruct (speed_of_size_positive_time (size portion) threadsCount ns Hns)
    as [[H0 ->] | [Hpos (m & e & -> & _)]].
  - split; [reflexivity|]. split; [intros _; now apply Hsmall | reflexivity].
  - split; [reflexivity|]. split; [discriminate|].
    intros Hlt. apply Hsmall in Hlt. lia.
Qed.

Lemma CalculateSpeed_is_finite_witness :
  finite_nonneg (CalculateSpeed three_bytes 2 1000) = true /\
  (CalculateSpeed three_bytes 2 1000 = S754_zero false <->
   u64 (u64 (size three_bytes * g_portionsCount) * 2) < 1024 * 1024).
Proof. apply (CalculateSpeed_is_finite three_bytes 2 1000). lia. Defined.

(** X8.  For an elapsed time of zero [CalculateSpeed] divides by zero in
    [float]: it returns plus infinity when the bytes of the trial are
    at least one mebibyte, and a NaN (0 / 0) when they are less. *)
Theorem CalculateSpeed_of_no_time (portion : Portion) (threadsCount : Z) :
  CalculateSpeed portion threadsCount 0 =
    if u64 (u64 (size portion * g_portionsCount) * threadsCount)
         <? 1024 * 1024
    then S754_nan else S754_infinity false.
Proof.
  rewrite CalculateSpeed_of_size, speed_of_size_zero_time.
  assert (0 <= u64 (u64 (size portion * g_portionsCount) * threadsCount))
    by (unfold u64 at 1; apply Z.mod_pos_bound; lia).
  rewrite Z.div_div by lia.
  destruct (Z.ltb_spec
              (u64 (u64 (size portion * g_portionsCount) * threadsCount))
              (1024 * 1024)) as [Hlt|Hge].
  - rewrite Z.div_small by lia. reflexivity.
  - destruct (Z.eqb_spec
                (u64 (u64 (size portion * g_portionsCount) * threadsCount)
                   / (1024 * 1024)) 0) as [H0|Hne]; [|reflexivity].
    apply Z.div_small_iff in H0; lia.
Qed.

(** *** The speeds a run compares *)

Lemma SFcompare_finite_antisym (sa sb : bool) (ma mb : positive)
  (ea eb : Z) :
  exists c,
    SFcompare (S754_finite sa ma ea) (S754_finite sb mb eb) = Some c /\
    SFcompare (S754_finite sb mb eb) (S754_finite sa ma ea)
    = Some (CompOpp c).
Proof.
  unfold SFcompare.
  rewrite (Z.compare_antisym ea eb).
  change (PosDef.Pos.compare_cont Eq mb ma) with (Pos.compare mb ma).
  change (PosDef.Pos.compare_cont Eq ma mb) with (Pos.compare ma mb).
  rewrite (Pos.compare_antisym ma mb).
  eexists. split; [reflexivity|].
  destruct sa, sb, (ea ?= eb), (ma ?= mb)%positive; reflexivity.
Qed.

Lemma SFcompare_antisym (a b : float) :
  is_number a = true -> is_number b = true ->
  exists c, SFcompare a b = Some c /\ SFcompare b a = Some (CompOpp c).
Proof.
  intros Ha Hb.
  destruct a as [sa|sa| |sa ma ea]; try discriminate;
    destruct b as [sb|sb| |sb mb eb]; try discriminate;
    try apply SFcompare_finite_antisym;
    try (destruct sa); try (destruct sb);
    eexists; split; reflexivity.
Qed.

(** On numbers, [<] and [<=] of [float] are the two halves of a total
    order: [x < y] fails exactly when [y <= x]. *)
Lemma f32_ltb_total (x y : float) :
  is_number x = true -> is_number y = true ->
  (f32_ltb x y = false <-> f32_leb y x = true).
Proof.
  intros Hx Hy. unfold f32_ltb, f32_leb, SFltb, SFleb.
  destruct (SFcompare_antisym x y Hx Hy) as (c & -> & ->).
  destruct c; simpl; split; congruence.
Qed.

Lemma sum_results_range (results : list Z) :
  0 <= sum_results results < 2 ^ 64.
Proof.
  unfold sum_results.
  assert (H : forall acc, 0 <= acc < 2 ^ 64 ->
            0 <= fold_left (fun acc r => u64 (acc + r)) results acc < 2 ^ 64).
  { induction results as [|r results IH]; intros acc Hacc; simpl;
      [exact Hacc|].
    apply IH. unfold u64. apply Z.mod_pos_bound. lia. }
  apply H. lia.
Qed.

(** A trial that completes on a thread count that is not negative has
    a positive average time and reports a finite speed. *)
Lemma trial_of_size_number (env : Env) (dirPath : string) (sz n : Z)
  (res : list Z) (t : Z) (s : float) :
  0 <= n ->
  trial_of_size env dirPath sz n = TrialSpeed res t s ->
  0 < t < 2 ^ 64 /\ finite_nonneg s = true.
Proof.
  intros Hn. unfold trial_of_size. cbv zeta.
  destruct (bad _); [discriminate|].
  destruct (Z.eqb_spec n 0) as [|Hn0]; [discriminate|].
  match goal with
  | |- context [sum_results ?l / n =? 0] =>
      pose proof (sum_results_range l) as Hsum;
      destruct (Z.eqb_spec (sum_results l / n) 0) as [|Ht0];
      [discriminate|];
      set (total := sum_results l) in *
  end.
  intros [= <- <- <-].
  assert (Ht : 0 < total / n < 2 ^ 64).
  { assert (0 <= total / n) by (apply Z.div_pos; lia).
    assert (total / n <= total) by (apply Z.div_le_upper_bound; nia).
    lia. }
  split; [exact Ht|].
  destruct (speed_of_size_positive_time sz n (total / n) Ht)
    as [[_ ->] | [_ (m & e & -> & _)]]; reflexivity.
Qed.

Lemma finite_nonneg_number (f : float) :
  finite_nonneg f = true -> is_number f = true.
Proof. destruct f as [[|]|[|]| |[|] m e]; simpl; congruence. Qed.

Lemma sweep_log_numbers (env : Env) (dirPath : string) (sz : Z) (fuel : nat) :
  forall slowTests threadsCount lastSpeed,
    0 <= threadsCount ->
    is_number lastSpeed = true ->
    forall n res t cur last s s',
      In (LogTrial n res t cur last s s')
        (snd (sweep_loop (trial_of_size env dirPath sz) fuel slowTests
                threadsCount lastSpeed)) ->
      is_number cur = true /\ is_number last = true.
Proof.
  induction fuel as [|fuel IH]; intros slowTests threadsCount lastSpeed
    Hcount Hlast n res t cur last s s'.
  - simpl. now destruct (slowTests <? g_maxSlowTests).
  - destruct (Z.ltb_spec slowTests g_maxSlowTests) as [Hlt|Hge].
    + destruct (trial_of_size env dirPath sz threadsCount)
        as [res0| |res0 t0 cur0] eqn:Htrial.
      * rewrite (sweep_loop_bad _ fuel slowTests threadsCount lastSpeed res0
                   Hlt Htrial).
        simpl. intros [H|[]]. discriminate.
      * simpl. rewrite Htrial. loop_guard_holds. intros [].
      * rewrite (sweep_loop_step _ fuel slowTests threadsCount lastSpeed
                   res0 t0 cur0 Hlt Htrial).
        pose proof (trial_of_size_number env dirPath sz threadsCount res0 t0
                      cur0 Hcount Htrial) as [_ Hfin].
        apply finite_nonneg_number in Hfin.
        cbn [snd]. intros [Hhead|Htail].
        -- injection Hhead as <- <- <- <- <- <- <-. now split.
        -- apply IH in Htail; [exact Htail | | exact Hfin].
           unfold u64. apply Z.mod_pos_bound. lia.
    + rewrite sweep_loop_exit by exact Hge. intros [].
Qed.

(** X9.  The speeds a run compares are numbers.  If the duration of the
    calibration run is a 64-bit count of the clock, then in every trial
    of the sweep neither the throughput of the trial nor [lastSpeed] is
    a NaN; so the test [currentSpeed < lastSpeed] fails, and
    [slowTests] is reset, exactly when [lastSpeed <= currentSpeed]:
    ["not lower"] is ["at least as high"] in every comparison the
    program makes. *)
Theorem sweep_compares_numbers (env : Env) (dirPath : string) (fuel : nat)
  (n : Z) (res : list Z) (t : Z) (cur last : float) (s s' : Z) :
  - 2 ^ 63 <= write_time (first_oracle env) (Z.to_nat g_portionsCount) 0
    < 2 ^ 63 ->
  In (LogTrial n res t cur last s s') (snd (TestDriveWrite env dirPath fuel)) ->
  is_number cur = true /\ is_number last = true /\
  (f32_ltb cur last = false <-> f32_leb last cur = true).
Proof.
  intros Hclock Hin.
  assert (Hnum : is_number cur = true /\ is_number last = true).
  { revert Hin. rewrite TestDriveWrite_by_size. unfold TestDriveWrite_of_size.
    destruct (WriteTestFile_outcome (first_oracle env) _ g_portionSize)
      as [t0|what] eqn:Hfirst; [|intros []].
    assert (Ht0 : t0 = write_time (first_oracle env)
                         (Z.to_nat g_portionsCount) 0).
    { unfold WriteTestFile_outcome in Hfirst.
      destruct (open_fails _); [discriminate|].
      destruct (first_short _ _ _ _); [discriminate|]. congruence. }
    rewrite <- Ht0 in Hclock. clear Ht0 Hfirst.
    destruct (calibrated_size g_portionSize t0) as [sz|] eqn:Hcal;
      [|intros []].
    apply sweep_log_numbers; [lia|].
    destruct (Z.eq_dec (u64 t0) 0) as [Hz|Hnz].
    - assert (t0 = 0).
      { unfold u64 in Hz. apply Z.mod_divide in Hz; [|lia].
        destruct Hz as [q Hq]. lia. }
      subst t0. replace sz with g_portionSize.
      + vm_compute. reflexivity.
      + vm_compute in Hcal. injection Hcal as <-. reflexivity.
    - assert (Hpos : 0 < u64 t0 < 2 ^ 64).
      { unfold u64 in *. pose proof (Z.mod_pos_bound t0 (2 ^ 64)). lia. }
      destruct (speed_of_size_positive_time sz 1 (u64 t0) Hpos)
        as [[_ ->] | [_ (m & e & -> & _)]]; reflexivity. }
  destruct Hnum as [Hcur Hlast]. split; [exact Hcur|]. split; [exact Hlast|].
  apply f32_ltb_total; assumption.
Qed.

Lemma sweep_compares_numbers_witness :
  is_number (S754_finite false 13107200 (-14)) = true /\
  is_number (S754_finite false 16384000 (-14)) = true /\
  (f32_ltb (S754_finite false 13107200 (-14))
     (S754_finite false 16384000 (-14)) = false
   <-> f32_leb (S754_finite false 16384000 (-14))
         (S754_finite false 13107200 (-14)) = true).
Proof.
  apply (sweep_compares_numbers saturated_env "x:" 2 2
           [2500000000; 2500000000] 2500000000
           (S754_finite false 13107200 (-14))
           (S754_finite false 16384000 (-14)) 0 1).
  - vm_compute. split; [discriminate | reflexivity].
  - rewrite TestDriveWrite_by_size. vm_compute. left. reflexivity.
Defined.

(* ===================================================================== *)
(** ** The average write time of a trial *)

Lemma fold_sum_results (results : list Z) (acc : Z) :
  fold_left (fun acc r => u64 (acc + r)) results acc
  = u64 (acc + total results) \/ results = [].
Proof.
  revert acc. induction results as [|r results IH]; intros acc;
    [now right | left]. simpl.
  destruct (IH (u64 (acc + r))) as [->| ->].
  - unfold u64. rewrite Z.add_mod_idemp_l by lia. f_equal. lia.
  - simpl. now rewrite Z.add_0_r.
Qed.

(** The join loop computes the sum modulo [2^64]. *)
Lemma sum_results_total (results : list Z) :
  sum_results results = u64 (total results).
Proof.
  unfold sum_results.
  destruct (fold_sum_results results 0) as [->| ->]; reflexivity.
Qed.

Lemma total_bounds (results : list Z) (lo hi : Z) :
  (forall r, In r results -> lo <= r <= hi) ->
  Z.of_nat (List.length results) * lo <= total results
    <= Z.of_nat (List.length results) * hi.
Proof.
  induction results as [|r results IH]; intros H; [simpl; lia|].
  assert (lo <= r <= hi) by (apply H; now left).
  assert (Z.of_nat (List.length results) * lo <= total results
          <= Z.of_nat (List.length results) * hi)
    by (apply IH; intros r' Hr'; apply H; now right).
  change (total (r :: results)) with (r + total results).
  change (List.length (r :: results)) with (S (List.length results)).
  lia.
Qed.

Lemma total_nonneg (results : list Z) :
  (forall r, In r results -> 0 <= r) -> 0 <= total results.
Proof.
  induction results as [|r results IH]; intros H; [simpl; lia|].
  change (total (r :: results)) with (r + total results).
  assert (0 <= r) by (apply H; now left).
  assert (0 <= total results)
    by (apply IH; intros r' Hr'; apply H; now right).
  lia.
Qed.

Lemma total_ge_member (results : list Z) (x : Z) :
  (forall r, In r results -> 0 <= r) -> In x results -> x <= total results.
Proof.
  induction results as [|r results IH]; intros Hall Hin; [destruct Hin|].
  change (total (r :: results)) with (r + total results).
  assert (0 <= r) by (apply Hall; now left).
  assert (0 <= total results)
    by (apply total_nonneg; intros r' Hr'; apply Hall; now right).
  destruct Hin as [->|Hin]; [lia|].
  assert (x <= total results)
    by (apply IH; [intros r' Hr'; apply Hall; now right | exact Hin]).
  lia.
Qed.

Lemma run_trial_Speed_inv (env : Env) (dirPath : string) (portion : Portion)
  (N : Z) (res : list Z) (t : Z) (speed : float) :
  0 <= N ->
  run_trial env dirPath portion N = TrialSpeed res t speed ->
  Z.of_nat (List.length res) = N /\ N <> 0 /\ t <> 0 /\
  t = sum_results res / N /\ speed = CalculateSpeed portion N t.
Proof.
  intros HN. unfold run_trial, finish_trial.
  match goal with
  | |- context [run_threads ?body N] =>
      pose proof (run_threads_results body N HN) as Hlen;
      destruct (run_threads body N) as [rs b]
  end.
  cbn [results bad] in *. destruct b; [discriminate|].
  destruct (Z.eqb_spec N 0) as [|HN0]; [discriminate|].
  destruct (Z.eqb_spec (sum_results rs / N) 0) as [|Ht0]; [discriminate|].
  intros [= <- <- <-]. repeat split; assumption.
Qed.

(** X10.  The average write time of a trial that completes lies between the
    time of its fastest and the time of its slowest thread: if the
    durations of the [N] threads are between [lo] and [hi] and their
    sum fits 64 bits, then [currentWriteTime] is the sum divided by
    [N], rounded down, and it is between [lo] and [hi]. *)
Theorem average_is_between_fastest_and_slowest (env : Env)
  (dirPath : string) (portion : Portion) (N : Z) (res : list Z) (t : Z)
  (speed : float) (lo hi : Z) :
  0 <= N -> 0 <= lo -> N * hi < 2 ^ 64 ->
  run_trial env dirPath portion N = TrialSpeed res t speed ->
  (forall r, In r res -> lo <= r <= hi) ->
  Z.of_nat (List.length res) = N /\
  t = total res / N /\
  lo <= t <= hi.
Proof.
  intros HN Hlo Hhi Hrun Hres.
  destruct (run_trial_Speed_inv env dirPath portion N res t speed HN Hrun)
    as (Hlen & HN0 & Ht0 & Ht & _).
  pose proof (total_bounds res lo hi Hres) as Hbounds. rewrite Hlen in Hbounds.
  assert (Htotal : sum_results res = total res).
  { rewrite sum_results_total. apply u64_small. nia. }
  rewrite Htotal in Ht. split; [exact Hlen|]. split; [exact Ht|].
  subst t. split.
  - apply Z.div_le_lower_bound; lia.
  - apply Z.div_le_upper_bound; lia.
Qed.

Lemma average_is_between_fastest_and_slowest_witness :
  Z.of_nat (List.length [2800000000; 2800000000; 2800000000]) = 3 /\
  2800000000 = total [2800000000; 2800000000; 2800000000] / 3 /\
  2800000000 <= 2800000000 <= 2800000000.
Proof.
  apply (average_is_between_fastest_and_slowest (scenario_D_env 3) "x:"
           three_bytes 3 [2800000000; 2800000000; 2800000000] 2800000000
           (CalculateSpeed three_bytes 3 2800000000) 2800000000 2800000000).
  - lia.
  - lia.
  - lia.
  - vm_compute. reflexivity.
  - intros r Hr. simpl in Hr. lia.
Defined.

(** *** A trial that takes no time *)

(** X11.  If no thread of the trial at [N] threads fails and the durations of
    the threads add up to less than [N] nanoseconds (all of them zero,
    for one), the average is zero and the division of the unused
    [speed] of line 177 is an integer division by zero: the run is
    undefined at this trial, before [CalculateSpeed] is called. *)
Theorem trial_without_time_is_undefined (env : Env) (dirPath : string)
  (portion : Portion) (fuel : nat) (slowTests N : Z) (lastSpeed : float)
  (d : Z -> Z) :
  slowTests < g_maxSlowTests ->
  0 < N < 2 ^ 64 ->
  (forall i, 0 <= i < N ->
     thread_body (thread_oracle env N i) dirPath portion i = Ok (d i) /\
     0 <= d i) ->
  total (map d (thread_numbers N)) < N ->
  sweep_loop (run_trial env dirPath portion) (S fuel) slowTests N lastSpeed
  = (Some Undefined, []).
Proof.
  intros Hslow HN Hbody Hsum.
  assert (Htrial : run_trial env dirPath portion N = TrialUndefined).
  { unfold run_trial, finish_trial.
    set (body := fun threadNumber =>
                   thread_body (thread_oracle env N threadNumber) dirPath
                     portion threadNumber).
    assert (Hbad : bad (run_threads body N) = false).
    { destruct (bad (run_threads body N)) eqn:Hb; [|reflexivity].
      apply run_threads_bad in Hb. destruct Hb as (i & what & Hi & Hthrow).
      destruct (Hbody i Hi) as [Hok _]. subst body. cbv beta in Hthrow.
      congruence. }
    rewrite Hbad.
    assert (Hres : results (run_threads body N) = map d (thread_numbers N)).
    { unfold run_threads. cbn [results]. rewrite map_map.
      apply map_ext_in. intros i Hi. apply in_thread_numbers in Hi.
      destruct (Hbody i Hi) as [Hok Hnn]. subst body. cbv beta.
      rewrite Hok. cbn [thread_result].
      assert (d i <= total (map d (thread_numbers N))).
      { apply total_ge_member.
        - intros r Hr. apply in_map_iff in Hr. destruct Hr as (k & <- & Hk).
          apply in_thread_numbers in Hk. now apply Hbody.
        - apply in_map. now apply in_thread_numbers. }
      apply u64_small. lia. }
    rewrite Hres.
    replace (N =? 0) with false by (symmetry; apply Z.eqb_neq; lia).
    assert (Hnn : 0 <= total (map d (thread_numbers N))).
    { apply total_nonneg. intros r Hr. apply in_map_iff in Hr.
      destruct Hr as (k & <- & Hk). apply in_thread_numbers in Hk.
      now apply Hbody. }
    rewrite sum_results_total, u64_small by lia.
    rewrite Z.div_small by lia. reflexivity. }
  simpl sweep_loop. loop_guard_holds. rewrite Htrial. reflexivity.
Qed.

Lemma trial_without_time_is_undefined_witness :
  sweep_loop (run_trial (steady_env 0 0 0 (fun _ => 0)) "x:" []) 1 0 2
    (S754_zero false)
  = (Some Undefined, []).
Proof.
  apply (trial_without_time_is_undefined (steady_env 0 0 0 (fun _ => 0)) "x:"
           [] 0 0 2 (S754_zero false) (fun _ => 0)).
  - unfold g_maxSlowTests. lia.
  - lia.
  - intros i Hi. split; [|lia]. vm_compute. reflexivity.
  - vm_compute. reflexivity.
Defined.

(** *** The writes of a trial that completes *)

(** X12.  A trial that reports a speed has handed to its streams the
    bytes the speed counts: when the trial at [N] threads completes,
    each of its [N] threads has called [WriteTestFile] on its own path,
    every one of its ten [fwrite] calls has transferred the whole
    block, so that its stream has accepted ten copies of the block,
    [size portion * 10] bytes, it has closed its handle (once), and it
    has left its duration (as a 64-bit count) in its slot of
    [results]. *)
Theorem completed_trial_made_every_write (env : Env) (dirPath : string)
  (portion : Portion) (N : Z) (res : list Z) (t : Z) (speed : float)
  (i : Z) :
  0 <= i < N ->
  run_trial env dirPath portion N = TrialSpeed res t speed ->
  exists d w',
    WriteTestFile (thread_oracle env N i)
      (path_append dirPath (GetFileNameForThread i)) portion
      (oracle_world (thread_oracle env N i)) = (Ok d, w') /\
    (forall k, 0 <= k < g_portionsCount ->
       fwrite_ret (thread_oracle env N i) k = size portion) /\
    writes_made w' = g_portionsCount /\
    written w' = List.concat (repeat portion (Z.to_nat g_portionsCount)) /\
    size (written w') = size portion * g_portionsCount /\
    closes_made w' = 1 /\
    is_open w' = false /\
    nth (Z.to_nat i) res 0 = u64 d.
Proof.
  intros Hi Hrun.
  set (body := fun threadNumber =>
                 thread_body (thread_oracle env N threadNumber) dirPath
                   portion threadNumber).
  assert (Hjoin : bad (run_threads body N) = false /\
                  res = results (run_threads body N)).
  { revert Hrun. unfold run_trial, finish_trial. fold body.
    destruct (bad (run_threads body N)); [discriminate|].
    destruct (N =? 0); [discriminate|].
    destruct (_ =? 0); [discriminate|].
    intros [= <- _ _]. split; reflexivity. }
  destruct Hjoin as [Hbad Hres].
  destruct (WriteTestFile (thread_oracle env N i)
              (path_append dirPath (GetFileNameForThread i)) portion
              (oracle_world (thread_oracle env N i))) as [r w'] eqn:Hcall.
  assert (Hbody : body i = r).
  { subst body. cbv beta. unfold thread_body. now rewrite Hcall. }
  destruct r as [d|what].
  - exists d, w'. split; [reflexivity|].
    apply WriteTestFile_Ok_inv in Hcall.
    destruct Hcall as (_ & Hnone & _ & ->).
    split.
    { intros k Hk. apply (proj1 (first_short_none _ _ _ _) Hnone).
      change (Z.of_nat (Z.to_nat g_portionsCount)) with g_portionsCount.
      lia. }
    unfold world_after_success, writes_made, closes_made.
    cbn [written is_open events now oracle_world].
    split; [|split; [reflexivity|split; [|split; [|split; [reflexivity|]]]]].
    + rewrite !filter_app, !length_app.
      rewrite filter_write_events by reflexivity.
      rewrite length_write_events. reflexivity.
    + rewrite size_concat_repeat. reflexivity.
    + rewrite !filter_app.
      rewrite filter_out_write_events by reflexivity. reflexivity.
    + rewrite Hres. unfold run_threads. cbn [results].
      rewrite map_map. unfold thread_numbers. rewrite map_map.
      match goal with
      | |- context [map ?g (seq 0 (Z.to_nat N))] => set (f := g)
      end.
      rewrite (nth_indep _ 0 (f 0%nat))
        by (rewrite length_map, length_seq; lia).
      rewrite (map_nth f). rewrite seq_nth by lia.
      subst f. cbv beta. cbn [Nat.add]. rewrite Z2Nat.id by lia.
      now rewrite Hbody.
  - exfalso.
    assert (Htrue : bad (run_threads body N) = true).
    { apply run_threads_bad. now exists i, what. }
    congruence.
Qed.

Lemma completed_trial_made_every_write_witness :
  exists d w',
    WriteTestFile (thread_oracle (scenario_D_env 3) 3 1)
      (path_append "x:" (GetFileNameForThread 1)) three_bytes
      (oracle_world (thread_oracle (scenario_D_env 3) 3 1)) = (Ok d, w') /\
    (forall k, 0 <= k < g_portionsCount ->
       fwrite_ret (thread_oracle (scenario_D_env 3) 3 1) k
       = size three_bytes) /\
    writes_made w' = g_portionsCount /\
    written w' = List.concat (repeat three_bytes (Z.to_nat g_portionsCount)) /\
    size (written w') = size three_bytes * g_portionsCount /\
    closes_made w' = 1 /\
    is_open w' = false /\
    nth (Z.to_nat 1) [2800000000; 2800000000; 2800000000] 0 = u64 d.
Proof.
  apply (completed_trial_made_every_write (scenario_D_env 3) "x:" three_bytes
           3 [2800000000; 2800000000; 2800000000] 2800000000
           (CalculateSpeed three_bytes 3 2800000000) 1).
  - lia.
  - vm_compute. reflexivity.
Defined.

(* ===================================================================== *)
(** ** What [TestDriveWrite] returns, and [TestDrive] *)

Section SweepResult.

Variable trial : Z -> TrialOutcome.

(** No exception leaves the loop: the handler of the thread lambda
    catches what [WriteTestFile] throws. *)
Lemma sweep_never_throws (fuel : nat) :
  forall slowTests threadsCount lastSpeed what,
    fst (sweep_loop trial fuel slowTests threadsCount lastSpeed)
    <> Some (Throws what).
Proof.
  induction fuel as [|fuel IH]; intros slowTests n lastSpeed what.
  - simpl. destruct (slowTests <? g_maxSlowTests); discriminate.
  - destruct (Z.ltb_spec slowTests g_maxSlowTests) as [Hlt|Hge].
    + destruct (trial n) as [res| |res t currentSpeed] eqn:Htrial.
      * rewrite (sweep_loop_bad trial fuel slowTests n lastSpeed res Hlt
                   Htrial). discriminate.
      * simpl. rewrite Htrial. loop_guard_holds. discriminate.
      * rewrite (sweep_loop_step trial fuel slowTests n lastSpeed res t
                   currentSpeed Hlt Htrial).
        cbn [fst]. apply IH.
    + rewrite sweep_loop_exit by exact Hge. discriminate.
Qed.

Lemma counts_from_cons (n : Z) (k : nat) :
  counts_from n (S k) = n :: counts_from (n + 1) k.
Proof.
  unfold counts_from. cbn [seq map]. rewrite Z.add_0_r. f_equal.
  rewrite <- seq_shift, map_map. apply map_ext. intros i. lia.
Qed.

(** When the loop returns, it has run the trials at consecutive thread
    counts and returns the count of the last of them. *)
Lemma sweep_returns_last (fuel : nat) :
  forall slowTests threadsCount lastSpeed r log,
    0 <= slowTests ->
    1 <= threadsCount -> threadsCount + Z.of_nat fuel < 2 ^ 64 ->
    sweep_loop trial fuel slowTests threadsCount lastSpeed
    = (Some (Returns r), log) ->
    map entry_threads log = counts_from threadsCount (List.length log) /\
    r = threadsCount + Z.of_nat (List.length log) - 1 /\
    (slowTests < g_maxSlowTests -> log <> []) /\
    (forallb (fun e => negb (entry_failed e)) log = true ->
     g_maxSlowTests - slowTests <= Z.of_nat (List.length log)).
Proof.
  induction fuel as [|fuel IH]; intros slowTests n lastSpeed r log Hs Hn Hfuel.
  - simpl. destruct (Z.ltb_spec slowTests g_maxSlowTests) as [Hlt|Hge];
      [discriminate|].
    intros [= <- <-]. rewrite u64_small by lia.
    split; [reflexivity|]. split; [simpl; lia|]. split; [lia|].
    intros _. unfold g_maxSlowTests in *. change (2 - slowTests <= 0). lia.
  - destruct (Z.ltb_spec slowTests g_maxSlowTests) as [Hlt|Hge].
    + destruct (trial n) as [res| |res t currentSpeed] eqn:Htrial.
      * rewrite (sweep_loop_bad trial fuel slowTests n lastSpeed res Hlt
                   Htrial).
        intros [= <- <-].
        split; [cbn [List.length]; now rewrite counts_from_cons|].
        split; [simpl; lia|].
        split; [discriminate|]. discriminate.
      * simpl. rewrite Htrial. loop_guard_holds. discriminate.
      * rewrite (sweep_loop_step trial fuel slowTests n lastSpeed res t
                   currentSpeed Hlt Htrial).
        cbv zeta.
        set (slowTests' := if f32_ltb currentSpeed lastSpeed
                           then u8 (slowTests + 1) else 0).
        assert (Hs' : 0 <= slowTests' <= slowTests + 1).
        { subst slowTests'. destruct (f32_ltb currentSpeed lastSpeed);
            [|lia].
          rewrite u8_small by (unfold g_maxSlowTests in Hlt; lia). lia. }
        rewrite (u64_small (n + 1)) by lia.
        destruct (sweep_loop trial fuel slowTests' (n + 1) currentSpeed)
          as [r' log'] eqn:Hrest.
        cbn [fst snd]. intros [= -> <-].
        destruct (IH slowTests' (n + 1) currentSpeed r log' ltac:(lia)
                    ltac:(lia) ltac:(lia) Hrest)
          as (Hcounts & Hr & _ & Hlen).
        cbn [List.length map entry_threads forallb entry_failed negb andb].
        rewrite counts_from_cons, Hcounts.
        split; [reflexivity|]. split; [lia|]. split; [discriminate|].
        intros Hok. specialize (Hlen Hok). lia.
    + rewrite sweep_loop_exit by exact Hge.
      intros [= <- <-]. rewrite u64_small by lia.
      split; [reflexivity|]. split; [simpl; lia|]. split; [lia|].
      intros _. unfold g_maxSlowTests in *. change (2 - slowTests <= 0). lia.
Qed.

End SweepResult.

(** X13.  [TestDriveWrite] returns the largest thread count it tested, on
    both of its exits.  Whenever a run returns, it has run at least one
    trial, the trials were those at 2, 3, ... threads without a gap,
    and the value returned is the thread count of the last trial run
    (the number of trials plus one): the count of the failed trial
    after a failure, the count of the second regression otherwise.  So
    the value is at least 2, and at least 3 when no trial failed: a run
    never reports that one thread was best. *)
Theorem TestDriveWrite_returns_max_tested (env : Env) (dirPath : string)
  (fuel : nat) (r : Z) (log : list LogEntry) :
  Z.of_nat fuel + 2 < 2 ^ 64 ->
  TestDriveWrite env dirPath fuel = (Some (Returns r), log) ->
  log <> [] /\
  map entry_threads log = counts_from 2 (List.length log) /\
  r = Z.of_nat (List.length log) + 1 /\
  2 <= r /\
  (forallb (fun e => negb (entry_failed e)) log = true -> 3 <= r).
Proof.
  intros Hfuel. rewrite TestDriveWrite_by_size. unfold TestDriveWrite_of_size.
  destruct (WriteTestFile_outcome (first_oracle env) _ g_portionSize)
    as [t|what]; [|discriminate].
  destruct (calibrated_size g_portionSize t) as [sz|]; [|discriminate].
  intros Hrun.
  destruct (sweep_returns_last _ fuel 0 2 _ r log ltac:(lia) ltac:(lia)
              ltac:(lia) Hrun)
    as (Hcounts & Hr & Hne & Hlen).
  assert (Hlog : log <> []) by (apply Hne; reflexivity).
  split; [exact Hlog|]. split; [exact Hcounts|]. split; [lia|].
  split.
  - destruct log as [|e log]; [contradiction|]. cbn [List.length] in Hr. lia.
  - intros Hok. specialize (Hlen Hok). unfold g_maxSlowTests in Hlen. lia.
Qed.

Lemma TestDriveWrite_returns_max_tested_witness :
  [LogTrial 2 [2500000000; 2500000000] 2500000000
     (S754_finite false 13107200 (-14)) (S754_finite false 16384000 (-14))
     0 1;
   LogTrial 3 [5000000000; 5000000000; 5000000000] 5000000000
     (S754_finite false 9830400 (-14)) (S754_finite false 13107200 (-14))
     1 2] <> [] /\
  [2; 3] = counts_from 2 2 /\
  3 = 2 + 1 /\
  2 <= 3 /\
  (true = true -> 3 <= 3).
Proof.
  apply (TestDriveWrite_returns_max_tested saturated_env "x:" 2 3
           [LogTrial 2 [2500000000; 2500000000] 2500000000
              (S754_finite false 13107200 (-14))
              (S754_finite false 16384000 (-14)) 0 1;
            LogTrial 3 [5000000000; 5000000000; 5000000000] 5000000000
              (S754_finite false 9830400 (-14))
              (S754_finite false 13107200 (-14)) 1 2]).
  - lia.
  - rewrite TestDriveWrite_by_size. vm_compute. reflexivity.
Defined.

(** X14.  A failure of the calibration write ends the run before the
    first trial.  When [WriteTestFile] throws in the calibration run on
    the generated block, the exception leaves [TestDriveWriteFirst] and
    [TestDriveWrite] as it is and no trial is run; [TestDrive] catches
    it, writes ["TestDrive failed: "] followed by its message to
    [std::cerr] and ends normally.  For a failed [fopen_s] the message
    is the one that names the file [single_thread] in the directory and
    the error code; for a short write it names the first write that
    was short. *)
Theorem calibration_failure_ends_the_run (env : Env) (dirPath : string)
  (fuel : nat) (portion : Portion) (what : string) :
  InitPortionWithRandomData (rand env) [] = Returns portion ->
  fst (WriteTestFile (first_oracle env)
         (path_append dirPath "single_thread") portion
         (oracle_world (first_oracle env))) = Throw what ->
  TestDriveWriteFirst (first_oracle env) dirPath portion = Throws what /\
  TestDriveWrite env dirPath fuel = (Some (Throws what), []) /\
  TestDrive env dirPath fuel
  = (Some (Returns tt), [("TestDrive failed: " ++ what)%string]) /\
  (open_fails (first_oracle env) = true ->
   what = create_failed (path_append dirPath "single_thread")
            (fopen_errno (first_oracle env))) /\
  (open_fails (first_oracle env) = false ->
   exists j,
     first_short (first_oracle env) g_portionSize
       (Z.to_nat g_portionsCount) 0 = Some j /\
     what = write_failed (path_append dirPath "single_thread") j).
Proof.
  intros Hinit Hthrow.
  destruct (InitPortionWithRandomData_returns (rand env) [])
    as (p & Hinit' & Hsize & _).
  assert (Hp : p = portion) by congruence.
  subst p. clear Hinit'.
  assert (Hfirst : TestDriveWriteFirst (first_oracle env) dirPath portion
                   = Throws what).
  { unfold TestDriveWriteFirst. now rewrite Hthrow. }
  assert (Hrun : TestDriveWrite env dirPath fuel = (Some (Throws what), [])).
  { rewrite TestDriveWrite_by_size. unfold TestDriveWrite_of_size.
    rewrite WriteTestFile_fst, Hsize in Hthrow. now rewrite Hthrow. }
  split; [exact Hfirst|]. split; [exact Hrun|]. split.
  - unfold TestDrive. rewrite Hrun. reflexivity.
  - rewrite WriteTestFile_fst, Hsize in Hthrow.
    clear Hinit Hsize Hfirst Hrun.
    unfold WriteTestFile_outcome in Hthrow.
    destruct (open_fails (first_oracle env)).
    + split; [intros _; congruence | discriminate].
    + split; [discriminate|]. intros _.
      remember (first_short (first_oracle env) g_portionSize
                  (Z.to_nat g_portionsCount) 0) as fs eqn:Hfs.
      destruct fs as [j|]; [|discriminate].
      exists j. split; [reflexivity | congruence].
Qed.

Lemma calibration_failure_ends_the_run_witness :
  TestDrive (mkEnv (fun _ => 0) failing_open_oracle
               (fun _ _ => failing_open_oracle))
    ("x:" ++ String (ascii_of_nat 92) "temp") 0
  = (Some (Returns tt),
     [("TestDrive failed: Failed to create file x:"
         ++ String (ascii_of_nat 92) "temp"
         ++ String (ascii_of_nat 92) "single_thread, errno=13")%string]).
Proof.
  destruct (InitPortionWithRandomData_returns (fun _ : Z => 0) [])
    as (p & Hinit & _).
  destruct (calibration_failure_ends_the_run
              (mkEnv (fun _ => 0) failing_open_oracle
                 (fun _ _ => failing_open_oracle))
              ("x:" ++ String (ascii_of_nat 92) "temp") 0 p
              ("Failed to create file x:"
                 ++ String (ascii_of_nat 92) "temp"
                 ++ String (ascii_of_nat 92) "single_thread, errno=13")
              Hinit) as (_ & _ & H & _).
  - rewrite WriteTestFile_fst. reflexivity.
  - exact H.
Defined.

(* ===================================================================== *)
(** ** The reported throughput grows with the bytes written *)

(** The conversion of a positive integer of at most 24 binary digits is
    exact. *)
Lemma f32_of_Z_exact (n : Z) :
  0 < n < 2 ^ 24 ->
  f32_of_Z n
  = S754_finite false (Z.to_pos (n * 2 ^ (24 - Zdigits2 n))) (Zdigits2 n - 24)
  /\ 2 ^ 23 <= n * 2 ^ (24 - Zdigits2 n) < 2 ^ 24.
Proof.
  intros Hn. destruct n as [|p|p]; try lia.
  set (d := Zdigits2 (Z.pos p)).
  pose proof (Zdigits2_bounds (Z.pos p) ltac:(lia)) as Hb. fold d in Hb.
  pose proof (Zdigits2_pos (Z.pos p) ltac:(lia)) as Hd. fold d in Hd.
  pose proof (Zdigits2_le (Z.pos p) 24 ltac:(lia) ltac:(lia)) as Hd24.
  fold d in Hd24.
  set (mz := Z.pos p * 2 ^ (24 - d)).
  assert (Hpow : 0 < 2 ^ (24 - d)) by (apply Z.pow_pos_nonneg; lia).
  assert (Hmz : 0 < mz) by (subst mz; nia).
  assert (Hdz : Zdigits2 mz = 24)
    by (subst mz; rewrite Zdigits2_mul_pow by lia; fold d; lia).
  pose proof (Zdigits2_bounds mz Hmz) as Hbz. rewrite Hdz in Hbz.
  change (24 - 1) with 23 in Hbz.
  split; [|exact Hbz].
  destruct (Z.eq_dec d 24) as [Hd24'|Hlt].
  - (* 24 digits: no shift *)
    unfold f32_of_Z, binary_normalize, binary_round.
    change (Z.pos (digits2_pos p)) with d. rewrite Z.add_0_r, fexp_eq.
    replace (Z.max (d - 24) (-149)) with (d - 24) by lia.
    destruct (shl_align_spec p 0 (d - 24)) as [_ Hkeep].
    rewrite (Hkeep ltac:(lia)).
    assert (Hs : shift_of (Z.pos p) 0 = 0)
      by (unfold shift_of; rewrite fexp_eq; fold d; lia).
    destruct (binary_round_aux_spec false (Z.pos p) 0 loc_Exact
                ltac:(lia) ltac:(lia)) as (mr & Heq & _ & _ & _ & H0).
    rewrite Hs, Z.add_0_r in Heq. specialize (H0 Hs).
    cbn [round_nearest_even] in H0. subst mr. rewrite Heq.
    subst mz. rewrite Hd24' in *. change (2 ^ (24 - 24)) with 1 in *.
    rewrite Z.mul_1_r in *. unfold result_of.
    replace (Z.pos p =? 0) with false by (symmetry; apply Z.eqb_neq; lia).
    replace (Z.pos p =? 2 ^ 24) with false by (symmetry; apply Z.eqb_neq; lia).
    reflexivity.
  - unfold f32_of_Z, binary_normalize, binary_round.
    change (Z.pos (digits2_pos p)) with d. rewrite Z.add_0_r, fexp_eq.
    replace (Z.max (d - 24) (-149)) with (d - 24) by lia.
    destruct (shl_align_spec p 0 (d - 24)) as [Hshl _].
    rewrite (Hshl ltac:(lia)).
    replace (0 - (d - 24)) with (24 - d) by lia. fold mz.
    rewrite Z2Pos.id by exact Hmz.
    assert (Hs : shift_of mz (d - 24) = 0)
      by (unfold shift_of; rewrite fexp_eq, Hdz; lia).
    destruct (binary_round_aux_spec false mz (d - 24) loc_Exact
                ltac:(lia) ltac:(lia)) as (mr & Heq & _ & _ & _ & H0).
    rewrite Hs, Z.add_0_r in Heq. specialize (H0 Hs).
    cbn [round_nearest_even] in H0. subst mr. rewrite Heq.
    unfold result_of.
    replace (mz =? 0) with false by (symmetry; apply Z.eqb_neq; lia).
    replace (mz =? 2 ^ 24) with false by (symmetry; apply Z.eqb_neq; lia).
    replace (d - 24 <=? 104) with true by (symmetry; apply Z.leb_le; lia).
    reflexivity.
Qed.

(** The quotient of two normal floats, away from overflow and
    underflow: its value is [v * 2^(e1 - e2 - 24)] for an integer [v]
    within two units of the integer quotient of the mantissas. *)
Lemma f32_div_value (m1 m2 : positive) (e1 e2 : Z) :
  2 ^ 23 <= Z.pos m1 < 2 ^ 24 -> 2 ^ 23 <= Z.pos m2 < 2 ^ 24 ->
  -149 <= e1 - e2 - 24 -> e1 - e2 - 23 < 104 ->
  exists m e v,
    f32_div (S754_finite false m1 e1) (S754_finite false m2 e2)
    = S754_finite false m e /\
    2 ^ 23 <= Z.pos m < 2 ^ 24 /\
    F2R (Z.pos m) e = F2R v (e1 - e2 - 24) /\
    (Z.pos m1 * 2 ^ 24) / Z.pos m2 - 1 <= v
      <= (Z.pos m1 * 2 ^ 24) / Z.pos m2 + 2.
Proof.
  intros H1 H2 He Hhigh. unfold f32_div, SFdiv.
  rewrite (SFdiv_core_normal (Z.pos m1) e1 (Z.pos m2) e2)
    by (try apply Zdigits2_24; assumption).
  set (q0 := (Z.pos m1 * 2 ^ 24) / Z.pos m2).
  set (r := (Z.pos m1 * 2 ^ 24) mod Z.pos m2).
  set (E := e1 - e2 - 24) in *.
  assert (Hq0 : 2 ^ 23 <= q0 < 2 ^ 25).
  { subst q0. split.
    - apply Z.div_le_lower_bound; lia.
    - apply Z.div_lt_upper_bound; lia. }
  assert (Hd : Zdigits2 q0 = 24 \/ Zdigits2 q0 = 25).
  { destruct (Z.lt_ge_cases q0 (2 ^ 24)).
    - left. apply Zdigits2_24. lia.
    - right. apply Zdigits2_unique; lia. }
  assert (Hs : shift_of q0 E = Zdigits2 q0 - 24)
    by (unfold shift_of; rewrite fexp_eq; lia).
  destruct (binary_round_aux_spec false q0 E (new_location (Z.pos m2) r)
              ltac:(lia) ltac:(lia)) as (mr & Heq & Hmr & Hrange & _ & _).
  cbn [xorb]. rewrite Heq.
  assert (Hlow : 2 ^ 23 <= q0 / 2 ^ shift_of q0 E).
  { rewrite Hs. destruct Hd as [Hd|Hd]; rewrite Hd.
    - change (2 ^ (24 - 24)) with 1. rewrite Z.div_1_r. lia.
    - change (2 ^ (25 - 24)) with 2.
      apply Z.div_le_lower_bound; [lia|].
      pose proof (Zdigits2_bounds q0 ltac:(lia)) as Hb. rewrite Hd in Hb.
      change (25 - 1) with 24 in Hb. lia. }
  destruct (result_of_normal false mr (E + shift_of q0 E) ltac:(lia))
    as [(m & e & -> & Hm & _ & _ & Hval) | [_ Hover]]; [|lia].
  exists m, e, (mr * 2 ^ shift_of q0 E).
  split; [reflexivity|]. split; [exact Hm|]. split.
  - rewrite Hval. symmetry. apply F2R_shift. lia.
  - rewrite Hs in *. destruct Hd as [Hd|Hd]; rewrite Hd in *.
    + change (2 ^ (24 - 24)) with 1 in *. rewrite Z.div_1_r in Hmr. lia.
    + change (2 ^ (25 - 24)) with 2 in *.
      pose proof (Z.div_mod q0 2 ltac:(lia)) as Hdm.
      pose proof (Z.mod_pos_bound q0 2 ltac:(lia)) as Hmod. lia.
Qed.

(** [<] on normal floats follows the real values. *)
Lemma f32_ltb_of_values (m1 m2 : positive) (e1 e2 : Z) :
  2 ^ 23 <= Z.pos m1 < 2 ^ 24 -> 2 ^ 23 <= Z.pos m2 < 2 ^ 24 ->
  (F2R (Z.pos m1) e1 < F2R (Z.pos m2) e2)%R ->
  f32_ltb (S754_finite false m1 e1) (S754_finite false m2 e2) = true.
Proof.
  intros H1 H2 Hlt. unfold f32_ltb, SFltb, SFcompare.
  destruct (Z.compare_spec e1 e2) as [Heq|Hless|Hmore].
  - subst e2.
    change (PosDef.Pos.compare_cont Eq m1 m2) with (Pos.compare m1 m2).
    destruct (Pos.compare_spec m1 m2) as [Hm|Hm|Hm]; [|reflexivity|].
    + subst m2. lra.
    + exfalso. apply Pos2Z.pos_lt_pos in Hm.
      pose proof (F2R_le (Z.pos m2) (Z.pos m1) e1 ltac:(lia)). lra.
  - reflexivity.
  - exfalso.
    assert (Hpow : 2 <= 2 ^ (e1 - e2)).
    { change 2 with (2 ^ 1) at 1. apply Z.pow_le_mono_r; lia. }
    pose proof (F2R_le_scaled (Z.pos m2) e2 (Z.pos m1) e1 e2 ltac:(lia)
                  ltac:(lia)) as Hle.
    rewrite Z.sub_diag in Hle. change (2 ^ 0) with 1 in Hle.
    specialize (Hle ltac:(nia)). lra.
Qed.

Lemma Zdigits2_mono (a b : Z) : 0 < a <= b -> Zdigits2 a <= Zdigits2 b.
Proof.
  intros H.
  pose proof (Zdigits2_bounds a ltac:(lia)) as Ha.
  pose proof (Zdigits2_bounds b ltac:(lia)) as Hb.
  pose proof (Zdigits2_pos a ltac:(lia)).
  pose proof (Zdigits2_pos b ltac:(lia)).
  destruct (Z.le_gt_cases (Zdigits2 a) (Zdigits2 b)) as [|Hgt]; [assumption|].
  assert (2 ^ Zdigits2 b <= 2 ^ (Zdigits2 a - 1))
    by (apply Z.pow_le_mono_r; lia).
  lia.
Qed.

(** The integer quotients of two mantissas by the same divisor keep
    their distance through the rounding of the division. *)
Lemma quotients_apart (ma mb P md va vb : Z) :
  0 < ma -> 1 <= P -> ma + 4 * P <= mb * P ->
  2 ^ 23 <= md < 2 ^ 24 ->
  va <= (ma * 2 ^ 24) / md + 2 ->
  (mb * 2 ^ 24) / md - 1 <= vb ->
  va < vb * P.
Proof.
  intros Hma HP Hgap Hmd Hva Hvb.
  set (T := 2 ^ 24) in *.
  assert (HT : T = 16777216) by reflexivity.
  pose proof (Z.div_mod (ma * T) md ltac:(lia)) as Ha.
  pose proof (Z.mod_pos_bound (ma * T) md ltac:(lia)) as Hmoda.
  pose proof (Z.div_mod (mb * T) md ltac:(lia)) as Hb.
  pose proof (Z.mod_pos_bound (mb * T) md ltac:(lia)) as Hmodb.
  set (qa := (ma * T) / md) in *. set (qb := (mb * T) / md) in *.
  assert (Hlow : ma * T + 2 * P * T < (qb - 1) * P * md).
  { assert (mb * T - 2 * md < (qb - 1) * md) by lia.
    assert (P * (mb * T - 2 * md) < P * ((qb - 1) * md)) by nia.
    assert ((ma + 4 * P) * T <= mb * P * T) by nia.
    assert (2 * P * md < 2 * P * T) by nia.
    nia. }
  assert (Hhigh : (qa + 2) * md <= ma * T + 2 * P * T).
  { assert (qa * md <= ma * T) by lia.
    assert (2 * md <= 2 * P * T) by nia.
    lia. }
  assert (Hv : va * md < vb * P * md).
  { assert (va * md <= (qa + 2) * md) by nia.
    assert ((qb - 1) * P * md <= vb * P * md).
    { assert (0 <= P * md) by nia.
      assert ((qb - 1) * (P * md) <= vb * (P * md)) by nia.
      lia. }
    lia. }
  nia.
Qed.

(** For a fixed positive time, the speed is strictly higher for more
    whole mebibytes (below [2^22] of them). *)
Lemma speed_of_size_grows (sz sz' n n' ns : Z) :
  0 < ns < 2 ^ 64 ->
  u64 (u64 (sz * g_portionsCount) * n) / 1024 / 1024
    < u64 (u64 (sz' * g_portionsCount) * n') / 1024 / 1024 ->
  u64 (u64 (sz' * g_portionsCount) * n') / 1024 / 1024 < 2 ^ 22 ->
  f32_ltb (speed_of_size sz n ns) (speed_of_size sz' n' ns) = true.
Proof.
  intros Hns Hless Hsmall. unfold speed_of_size.
  destruct (speed_divisor_normal ns Hns) as (md & ed & -> & Hmd & Hed).
  pose proof (whole_MiB_range sz n) as HN.
  set (N := u64 (u64 (sz * g_portionsCount) * n) / 1024 / 1024) in *.
  set (N' := u64 (u64 (sz' * g_portionsCount) * n') / 1024 / 1024) in *.
  clearbody N N'.
  (* the larger count *)
  destruct (f32_of_Z_exact N' ltac:(lia)) as [-> Hmb].
  pose proof (Zdigits2_pos N' ltac:(lia)) as Hd'pos.
  pose proof (Zdigits2_le N' 22 ltac:(lia) ltac:(lia)) as Hd'.
  set (d' := Zdigits2 N') in *.
  set (mb := N' * 2 ^ (24 - d')) in *.
  assert (Hmbpos : Z.pos (Z.to_pos mb) = mb) by (apply Z2Pos.id; lia).
  destruct (f32_div_value (Z.to_pos mb) md (d' - 24) ed
              ltac:(rewrite Hmbpos; exact Hmb) Hmd ltac:(lia) ltac:(lia))
    as (m2 & e2 & vb & -> & Hm2 & Hval2 & Hvb).
  rewrite Hmbpos in Hvb.
  destruct (Z.eq_dec N 0) as [->|HN0]; [reflexivity|].
  (* the smaller count *)
  destruct (f32_of_Z_exact N ltac:(lia)) as [-> Hma].
  pose proof (Zdigits2_pos N ltac:(lia)) as Hdpos.
  pose proof (Zdigits2_mono N N' ltac:(lia)) as Hdd. fold d' in Hdd.
  set (d := Zdigits2 N) in *.
  set (ma := N * 2 ^ (24 - d)) in *.
  assert (Hmapos : Z.pos (Z.to_pos ma) = ma) by (apply Z2Pos.id; lia).
  destruct (f32_div_value (Z.to_pos ma) md (d - 24) ed
              ltac:(rewrite Hmapos; exact Hma) Hmd ltac:(lia) ltac:(lia))
    as (m1 & e1 & va & -> & Hm1 & Hval1 & Hva).
  rewrite Hmapos in Hva.
  apply f32_ltb_of_values; [exact Hm1 | exact Hm2 |].
  rewrite Hval1, Hval2.
  replace (d' - 24 - ed - 24) with (d - 24 - ed - 24 + (d' - d)) by lia.
  rewrite <- F2R_shift by lia. apply F2R_lt.
  assert (HP : 0 < 2 ^ (d' - d)) by (apply Z.pow_pos_nonneg; lia).
  apply (quotients_apart ma mb (2 ^ (d' - d)) (Z.pos md)); try lia.
  subst ma mb. rewrite <- Z.mul_assoc, <- Z.pow_add_r by lia.
  replace (24 - d' + (d' - d)) with (24 - d) by lia.
  replace (24 - d) with (2 + (22 - d)) by lia.
  rewrite Z.pow_add_r by lia. change (2 ^ 2) with 4.
  assert (2 ^ (d' - d) <= 2 ^ (22 - d)) by (apply Z.pow_le_mono_r; lia).
  assert (0 < 2 ^ (22 - d)) by (apply Z.pow_pos_nonneg; lia).
  nia.
Qed.

(** X16.  [CalculateSpeed] orders trials of equal duration by their whole
    mebibytes.  For a fixed positive elapsed time: two byte counts with
    the same number of whole mebibytes get the same speed, and of two
    byte counts the one with more whole mebibytes (below [2^22], that
    is 4 TiB) gets the strictly higher speed: the rounding of the
    [float] division never makes a larger amount of data look as slow
    as a smaller one. *)
Theorem CalculateSpeed_grows_with_the_bytes (p p' : Portion)
  (n n' ns : Z) :
  0 < ns < 2 ^ 64 ->
  (u64 (u64 (size p * g_portionsCount) * n) / 1024 / 1024
   = u64 (u64 (size p' * g_portionsCount) * n') / 1024 / 1024 ->
   CalculateSpeed p n ns = CalculateSpeed p' n' ns) /\
  (u64 (u64 (size p * g_portionsCount) * n) / 1024 / 1024
   < u64 (u64 (size p' * g_portionsCount) * n') / 1024 / 1024 ->
   u64 (u64 (size p' * g_portionsCount) * n') / 1024 / 1024 < 2 ^ 22 ->
   f32_ltb (CalculateSpeed p n ns) (CalculateSpeed p' n' ns) = true).
Proof.
  intros Hns. split.
  - intros Heq. unfold CalculateSpeed. now rewrite Heq.
  - intros Hless Hsmall. rewrite !CalculateSpeed_of_size.
    now apply speed_of_size_grows.
Qed.

Lemma CalculateSpeed_grows_with_the_bytes_witness :
  f32_ltb (CalculateSpeed three_bytes 2 1000)
    (CalculateSpeed three_bytes 40000 1000) = true.
Proof.
  apply (CalculateSpeed_grows_with_the_bytes three_bytes three_bytes 2 40000
           1000).
  - lia.
  - vm_compute. reflexivity.
  - vm_compute. reflexivity.
Defined.

(** *** The baseline of the sweep after a calibration that shrinks *)

Lemma sweep_log_head (trial : Z -> TrialOutcome) (fuel : nat)
  (slowTests threadsCount : Z) (lastSpeed : float) (n : Z) (res : list Z)
  (t : Z) (cur last : float) (s s' : Z) (rest : list LogEntry) :
  snd (sweep_loop trial fuel slowTests threadsCount lastSpeed)
  = LogTrial n res t cur last s s' :: rest ->
  n = threadsCount /\ last = lastSpeed.
Proof.
  destruct fuel as [|fuel]; simpl.
  - destruct (slowTests <? g_maxSlowTests); discriminate.
  - destruct (slowTests <? g_maxSlowTests); [|discriminate].
    destruct (trial threadsCount) as [res0| |res0 t0 cur0];
      try discriminate.
    destruct (sweep_loop trial fuel _ _ cur0) as [r log].
    cbn [snd]. intros [= <- _ _ _ <- _ _ _]. split; reflexivity.
Qed.

(** X17.  After a calibration that shrinks the block, the baseline of the
    sweep understates the calibration run.  [TestDriveWrite] computes
    the speed of the calibration run from the size the block has after
    [TestDriveWriteFirst] resized it and from the time the write of
    the whole block took.  So whenever the calibration run took more
    than the budget, the [lastSpeed] the first trial is compared with
    is strictly lower than the speed [CalculateSpeed] gives the block
    that was written in that time. *)
Theorem baseline_after_calibration_is_understated (env : Env)
  (dirPath : string) (fuel : nat) (t n : Z) (res : list Z) (t2 : Z)
  (cur last : float) (s s' : Z) (rest : list LogEntry) :
  WriteTestFile_outcome (first_oracle env)
    (path_append dirPath "single_thread") g_portionSize = Ok t ->
  0 < t < 2 ^ 63 ->
  f32_ltb g_maxTestDuration (seconds_of t) = true ->
  snd (TestDriveWrite env dirPath fuel)
  = LogTrial n res t2 cur last s s' :: rest ->
  exists portion,
    InitPortionWithRandomData (rand env) [] = Returns portion /\
    f32_ltb last (CalculateSpeed portion 1 (u64 t)) = true.
Proof.
  intros Hfirst Ht Hslow.
  destruct (InitPortionWithRandomData_returns (rand env) [])
    as (p & Hinit & Hsize & _).
  rewrite TestDriveWrite_by_size. unfold TestDriveWrite_of_size.
  rewrite Hfirst.
  assert (Hblock : 0 <= g_portionSize < 2 ^ 64)
    by (split; reflexivity || discriminate).
  destruct (calibrated_size_shrinks g_portionSize t Hblock)
    as (sz & -> & Hsz & Hshrink & _).
  specialize (Hshrink Hslow ltac:(reflexivity)).
  intros Hlog. apply sweep_log_head in Hlog. destruct Hlog as [_ ->].
  exists p. split; [exact Hinit|].
  rewrite CalculateSpeed_of_size, Hsize.
  rewrite (u64_small t) by lia.
  unfold g_portionSize in Hshrink.
  assert (Hbytes : u64 (u64 (sz * g_portionsCount) * 1) = sz * 10).
  { unfold g_portionsCount. rewrite Z.mul_1_r.
    rewrite (u64_small (sz * 10)) by lia. apply u64_small. lia. }
  apply speed_of_size_grows; [lia| |].
  - rewrite Hbytes. change (u64 (u64 (g_portionSize * g_portionsCount) * 1)
                              / 1024 / 1024) with 1000.
    rewrite Z.div_div by lia. apply Z.div_lt_upper_bound; lia.
  - reflexivity.
Qed.

Lemma baseline_after_calibration_is_understated_witness :
  exists portion,
    InitPortionWithRandomData (rand slow_drive_env) [] = Returns portion /\
    f32_ltb (S754_zero false) (CalculateSpeed portion 1 (u64 2000000000000))
    = true.
Proof.
  apply (baseline_after_calibration_is_understated slow_drive_env "x:" 1
           2000000000000 2 [2000000000; 2000000000] 2000000000
           (S754_finite false 8388608 (-24)) (S754_zero false) 0 0 []).
  - vm_compute. reflexivity.
  - lia.
  - vm_compute. reflexivity.
  - rewrite TestDriveWrite_by_size. vm_compute. reflexivity.
Defined.

(* ===================================================================== *)
(** ** The sweep over an emptied block *)

Lemma trial_of_empty_block (env : Env) (dirPath : string) (n : Z)
  (res : list Z) (t : Z) (s : float) :
  0 <= n ->
  trial_of_size env dirPath 0 n = TrialSpeed res t s ->
  s = S754_zero false.
Proof.
  intros Hn Htrial.
  destruct (trial_of_size_number env dirPath 0 n res t s Hn Htrial)
    as [Ht _].
  apply trial_of_size_speed in Htrial. destruct Htrial as [_ ->].
  destruct (speed_of_size_positive_time 0 n t Ht)
    as [[_ ->] | [Hpos _]]; [reflexivity|].
  exfalso. revert Hpos. unfold g_portionsCount.
  change (u64 (0 * 10)) with 0. rewrite Z.mul_0_l.
  change (u64 0 / 1024 / 1024) with 0. lia.
Qed.

Lemma sweep_of_zero_speeds (env : Env) (dirPath : string) (fuel : nat) :
  forall threadsCount lastSpeed,
    0 <= threadsCount ->
    lastSpeed = S754_zero false \/ lastSpeed = S754_nan ->
    (forall n res t cur last s s',
       In (LogTrial n res t cur last s s')
         (snd (sweep_loop (trial_of_size env dirPath 0) fuel 0 threadsCount
                 lastSpeed)) ->
       cur = S754_zero false /\ s' = 0) /\
    (forall r,
       fst (sweep_loop (trial_of_size env dirPath 0) fuel 0 threadsCount
              lastSpeed) = Some (Returns r) ->
       existsb entry_failed
         (snd (sweep_loop (trial_of_size env dirPath 0) fuel 0 threadsCount
                 lastSpeed)) = true).
Proof.
  induction fuel as [|fuel IH]; intros threadsCount lastSpeed Hn Hlast.
  - simpl. split; [intros n res t cur last s s' []|discriminate].
  - destruct (trial_of_size env dirPath 0 threadsCount)
      as [res0| |res0 t0 cur0] eqn:Htrial.
    + rewrite (sweep_loop_bad _ fuel 0 threadsCount lastSpeed res0
                 ltac:(reflexivity) Htrial).
      split; [|reflexivity].
      intros n res t cur last s s' [H|[]]. discriminate.
    + simpl. rewrite Htrial. split; [intros n res t cur last s s' []|].
      discriminate.
    + rewrite (sweep_loop_step _ fuel 0 threadsCount lastSpeed res0 t0 cur0
                 ltac:(reflexivity) Htrial).
      cbv zeta.
      pose proof (trial_of_empty_block env dirPath threadsCount res0 t0 cur0
                    Hn Htrial) as ->.
      assert (Hnot : f32_ltb (S754_zero false) lastSpeed = false)
        by (destruct Hlast as [->| ->]; reflexivity).
      rewrite Hnot.
      destruct (IH (u64 (threadsCount + 1)) (S754_zero false)
                  ltac:(unfold u64; apply Z.mod_pos_bound; lia)
                  ltac:(now left)) as [IHlog IHret].
      cbn [fst snd]. split.
      * intros n res t cur last s s' [Hhead|Htail].
        -- injection Hhead as _ _ _ <- _ _ <-. split; reflexivity.
        -- exact (IHlog _ _ _ _ _ _ _ Htail).
      * intros r Hr. cbn [existsb entry_failed orb]. exact (IHret r Hr).
Qed.

(** X18.  Once the calibration has emptied the block, the sweep cannot stop
    by regression: every trial that completes reports the speed 0,
    which is never below the speed before, so [slowTests] is 0 after
    every trial; the run returns only if a writer thread fails. *)
Theorem sweep_over_empty_block_never_regresses (env : Env)
  (dirPath : string) (fuel : nat) (t : Z) :
  WriteTestFile_outcome (first_oracle env)
    (path_append dirPath "single_thread") g_portionSize = Ok t ->
  calibrated_size g_portionSize t = Some 0 ->
  (forall n res t2 cur last s s',
     In (LogTrial n res t2 cur last s s')
       (snd (TestDriveWrite env dirPath fuel)) ->
     cur = S754_zero false /\ s' = 0) /\
  (forall r,
     fst (TestDriveWrite env dirPath fuel) = Some (Returns r) ->
     existsb entry_failed (snd (TestDriveWrite env dirPath fuel)) = true).
Proof.
  intros Hfirst Hcal.
  rewrite TestDriveWrite_by_size. unfold TestDriveWrite_of_size.
  rewrite Hfirst, Hcal.
  apply sweep_of_zero_speeds; [lia|].
  destruct (Z.eq_dec (u64 t) 0) as [->|Hnz].
  - right. reflexivity.
  - left.
    assert (Hpos : 0 < u64 t < 2 ^ 64).
    { unfold u64 in *. pose proof (Z.mod_pos_bound t (2 ^ 64)). lia. }
    destruct (speed_of_size_positive_time 0 1 (u64 t) Hpos)
      as [[_ ->] | [Hbytes _]]; [reflexivity|].
    exfalso. revert Hbytes. unfold g_portionsCount.
    change (u64 (0 * 10)) with 0. rewrite Z.mul_0_l.
    change (u64 0 / 1024 / 1024) with 0. lia.
Qed.

Lemma sweep_over_empty_block_never_regresses_witness :
  (forall n res t2 cur last s s',
     In (LogTrial n res t2 cur last s s')
       (snd (TestDriveWrite very_slow_env "x:" 3)) ->
     cur = S754_zero false /\ s' = 0) /\
  (forall r,
     fst (TestDriveWrite very_slow_env "x:" 3) = Some (Returns r) ->
     existsb entry_failed (snd (TestDriveWrite very_slow_env "x:" 3)) = true).
Proof.
  apply (sweep_over_empty_block_never_regresses very_slow_env "x:" 3
           300000000000000000).
  - vm_compute. reflexivity.
  - vm_compute. reflexivity.
Defined.

(* ===================================================================== *)
(** ** The accuracy of the reported throughput *)

Local Open Scope R_scope.

Lemma IZR_rel_bounds (x v k : Z) :
  (0 < k)%Z -> (x * k - x <= v * k <= x * k + x)%Z ->
  IZR x * (1 - / IZR k) <= IZR v <= IZR x * (1 + / IZR k).
Proof.
  intros Hk [Hlo Hhi].
  apply IZR_le in Hlo, Hhi. apply IZR_lt in Hk.
  rewrite minus_IZR, !mult_IZR in Hlo. rewrite plus_IZR, !mult_IZR in Hhi.
  assert (Hinv : IZR k * / IZR k = 1) by (apply Rinv_r; lra).
  assert (Hpos : 0 < / IZR k) by (apply Rinv_0_lt_compat; lra).
  split.
  - apply (Rmult_le_reg_r (IZR k)); [lra|].
    replace (IZR x * (1 - / IZR k) * IZR k)
      with (IZR x * IZR k - IZR x * (IZR k * / IZR k)) by ring.
    rewrite Hinv. lra.
  - apply (Rmult_le_reg_r (IZR k)); [lra|].
    replace (IZR x * (1 + / IZR k) * IZR k)
      with (IZR x * IZR k + IZR x * (IZR k * / IZR k)) by ring.
    rewrite Hinv. lra.
Qed.

(** The conversion of a positive 64-bit integer is off by at most one
    part in [2^23]. *)
Lemma f32_of_Z_close (n d : Z) :
  (0 < n < 2 ^ d)%Z -> (0 <= d <= 64)%Z ->
  exists m e,
    f32_of_Z n = S754_finite false m e /\
    (2 ^ 23 <= Z.pos m < 2 ^ 24)%Z /\ (-23 <= e <= d - 23)%Z /\
    IZR n * (1 - / IZR (2 ^ 23)) <= F2R (Z.pos m) e
      <= IZR n * (1 + / IZR (2 ^ 23)).
Proof.
  intros Hn Hd64.
  destruct (f32_of_Z_normal n d Hn ltac:(lia)) as (m & e & Heq & Hm & He).
  exists m, e. split; [exact Heq|]. split; [exact Hm|]. split; [lia|].
  assert (Hn64 : (n < 2 ^ 64)%Z).
  { assert (2 ^ d <= 2 ^ 64)%Z by (apply Z.pow_le_mono_r; lia). lia. }
  clear He Hd64. destruct Hn as [Hn _]. clear d.
  destruct (Z.lt_ge_cases n (2 ^ 24)) as [Hsmall|Hbig].
  - (* exact *)
    destruct (f32_of_Z_exact n ltac:(lia)) as [Hex Hmz].
    rewrite Hex in Heq.
    assert (Hme : m = Z.to_pos (n * 2 ^ (24 - Zdigits2 n))
                  /\ e = (Zdigits2 n - 24)%Z) by (split; congruence).
    destruct Hme as [-> ->]. clear Heq.
    rewrite Z2Pos.id by lia.
    pose proof (Zdigits2_le n 24 ltac:(lia) ltac:(lia)) as Hd.
    rewrite F2R_shift by lia.
    replace (Zdigits2 n - 24 + (24 - Zdigits2 n))%Z with 0%Z by lia.
    rewrite F2R_0.
    apply IZR_rel_bounds; lia.
  - (* rounded *)
    destruct n as [|p|p]; try lia.
    set (d := Zdigits2 (Z.pos p)) in *.
    pose proof (Zdigits2_bounds (Z.pos p) ltac:(lia)) as Hb. fold d in Hb.
    pose proof (Zdigits2_ge (Z.pos p) 25 ltac:(lia) ltac:(lia)) as Hd25.
    fold d in Hd25.
    revert Heq. unfold f32_of_Z, binary_normalize, binary_round.
    change (Z.pos (digits2_pos p)) with d. rewrite Z.add_0_r, fexp_eq.
    replace (Z.max (d - 24) (-149)) with (d - 24)%Z by lia.
    destruct (shl_align_spec p 0 (d - 24)) as [_ Hkeep].
    rewrite (Hkeep ltac:(lia)).
    assert (Hs : shift_of (Z.pos p) 0 = (d - 24)%Z)
      by (unfold shift_of; rewrite fexp_eq; fold d; lia).
    destruct (binary_round_aux_spec false (Z.pos p) 0 loc_Exact
                ltac:(lia) ltac:(lia)) as (mr & Hres & Hmr & Hrange & _ & _).
    destruct (shift_of_bounds (Z.pos p) 0 ltac:(lia) ltac:(lia))
      as (_ & _ & Hnormal).
    rewrite Hs in *. rewrite Z.add_0_l in *.
    specialize (Hnormal ltac:(lia) ltac:(lia)).
    rewrite Hres.
    destruct (result_of_normal false mr (d - 24) ltac:(lia))
      as [(m' & e' & -> & _ & _ & _ & Hval) | [-> _]]; [|discriminate].
    intros Heq.
    assert (Hme : m' = m /\ e' = e) by (split; congruence).
    destruct Hme as [-> ->]. clear Heq. rewrite Hval.
    replace (d - 24)%Z with (0 + (d - 24))%Z by lia.
    rewrite <- F2R_shift, F2R_0 by lia.
    assert (Hpow : (0 < 2 ^ (d - 24))%Z) by (apply Z.pow_pos_nonneg; lia).
    pose proof (Z.div_mod (Z.pos p) (2 ^ (d - 24)) ltac:(lia)) as Hdm.
    pose proof (Z.mod_pos_bound (Z.pos p) (2 ^ (d - 24)) Hpow) as Hmod.
    apply IZR_rel_bounds; [lia|].
    change (2 ^ 23)%Z with 8388608%Z in *.
    nia.
Qed.

(** The quotient of two normal floats, away from overflow and
    underflow, is off by at most one part in [2^22]. *)
Lemma f32_div_close (m1 m2 : positive) (e1 e2 : Z) :
  (2 ^ 23 <= Z.pos m1 < 2 ^ 24)%Z -> (2 ^ 23 <= Z.pos m2 < 2 ^ 24)%Z ->
  (-149 <= e1 - e2 - 24)%Z -> (e1 - e2 - 23 < 104)%Z ->
  exists m e,
    f32_div (S754_finite false m1 e1) (S754_finite false m2 e2)
    = S754_finite false m e /\
    (2 ^ 23 <= Z.pos m < 2 ^ 24)%Z /\
    (e1 - e2 - 24 <= e <= e1 - e2 - 22)%Z /\
    F2R (Z.pos m1) e1 / F2R (Z.pos m2) e2 * (1 - / IZR (2 ^ 22))
      <= F2R (Z.pos m) e
      <= F2R (Z.pos m1) e1 / F2R (Z.pos m2) e2 * (1 + / IZR (2 ^ 22)).
Proof.
  intros H1 H2 Hlow Hhigh.
  destruct (f32_div_normal false false m1 m2 e1 e2 H1 H2 Hlow Hhigh)
    as (m & e & Hdiv & Hm & He).
  destruct (f32_div_value m1 m2 e1 e2 H1 H2 Hlow Hhigh)
    as (m' & e' & v & Hdiv' & _ & Hval & Hv).
  cbn [xorb] in Hdiv. rewrite Hdiv in Hdiv'.
  assert (Hme : m' = m /\ e' = e) by (split; congruence).
  destruct Hme as [-> ->]. clear Hdiv'.
  exists m, e. split; [exact Hdiv|]. split; [exact Hm|]. split; [exact He|].
  rewrite Hval. clear Hval Hdiv He Hm m e.
  set (E := (e1 - e2 - 24)%Z) in *.
  set (q0 := (Z.pos m1 * 2 ^ 24 / Z.pos m2)%Z) in *.
  pose proof (Z.div_mod (Z.pos m1 * 2 ^ 24) (Z.pos m2) ltac:(lia)) as Hdm.
  pose proof (Z.mod_pos_bound (Z.pos m1 * 2 ^ 24) (Z.pos m2) ltac:(lia))
    as Hmod.
  fold q0 in Hdm.
  assert (Hq0 : (2 ^ 23 <= q0)%Z)
    by (subst q0; apply Z.div_le_lower_bound; lia).
  assert (HqB : (q0 * Z.pos m2 <= Z.pos m1 * 2 ^ 24)%Z) by lia.
  assert (HqB' : (Z.pos m1 * 2 ^ 24 < (q0 + 1) * Z.pos m2)%Z) by lia.
  apply IZR_le in HqB. apply IZR_lt in HqB'.
  rewrite !mult_IZR in HqB. rewrite !mult_IZR, plus_IZR in HqB'.
  destruct Hv as [Hv1 Hv2]. apply IZR_le in Hv1, Hv2, Hq0.
  rewrite minus_IZR in Hv1. rewrite plus_IZR in Hv2.
  assert (HB : 0 < IZR (Z.pos m2)) by (apply IZR_lt; lia).
  set (A := IZR (Z.pos m1) * IZR (2 ^ 24)) in *.
  set (B := IZR (Z.pos m2)) in *.
  set (Q := IZR q0) in *.
  set (x := A / B).
  assert (HxB : x * B = A) by (subst x; field; lra).
  assert (Hx : Q <= x < Q + 1) by (split; nra).
  assert (Hc : / IZR (2 ^ 22) = / 4194304) by reflexivity.
  assert (H23 : IZR (2 ^ 23) = 8388608) by reflexivity.
  assert (HX : F2R (Z.pos m1) e1 / F2R (Z.pos m2) e2 = x * bpow E).
  { unfold F2R. replace e1 with (E + 24 + e2)%Z by (subst E; lia).
    rewrite !bpow_add, (bpow_IZR 24) by lia.
    pose proof (bpow_gt_0 e2). pose proof (bpow_gt_0 E).
    subst x A. fold B. field. split; lra. }
  rewrite HX, Hc. unfold F2R. pose proof (bpow_gt_0 E) as HE.
  assert (Hlo : x * (1 - / 4194304) <= IZR v) by lra.
  assert (Hhi : IZR v <= x * (1 + / 4194304)) by lra.
  split; nra.
Qed.

Lemma thousand_value : F2R 16384000 (-14) = 1000.
Proof.
  change 16384000%Z with (1000 * 2 ^ 14)%Z.
  rewrite F2R_shift by lia. change (-14 + 14)%Z with 0%Z. apply F2R_0.
Qed.

(** One division by 1000 in [float]. *)
Lemma div_thousand_close (m : positive) (e : Z) :
  (2 ^ 23 <= Z.pos m < 2 ^ 24)%Z -> (-139 <= e <= 100)%Z ->
  exists m' e',
    f32_div (S754_finite false m e) (f32_of_Z 1000)
    = S754_finite false m' e' /\
    (2 ^ 23 <= Z.pos m' < 2 ^ 24)%Z /\ (e - 10 <= e' <= e - 8)%Z /\
    F2R (Z.pos m) e / 1000 * (1 - / 4194304) <= F2R (Z.pos m') e'
      <= F2R (Z.pos m) e / 1000 * (1 + / 4194304).
Proof.
  intros Hm He. rewrite thousand_eq.
  destruct (f32_div_close m 16384000 e (-14) Hm ltac:(lia) ltac:(lia)
              ltac:(lia)) as (m' & e' & Hdiv & Hm' & He' & Hval).
  exists m', e'. split; [exact Hdiv|]. split; [exact Hm'|]. split; [lia|].
  change (Z.pos 16384000) with 16384000%Z in Hval.
  rewrite thousand_value in Hval.
  change (/ IZR (2 ^ 22)) with (/ 4194304) in Hval. exact Hval.
Qed.

(** The error of a quotient from the errors of its parts. *)
Lemma ratio_bounds (n Nr y a r K cl cu al au bl bu el eu : R) :
  0 < n -> 0 < Nr -> 0 < K ->
  0 < cl -> 0 < al -> 0 < bl -> 0 < el ->
  n * cl <= y * K <= n * cu ->
  Nr * al <= a <= Nr * au ->
  a / y * bl <= r <= a / y * bu ->
  au * bu <= eu * cl ->
  el * cu <= al * bl ->
  Nr * K / n * el <= r <= Nr * K / n * eu.
Proof.
  intros Hn HNr HK Hcl Hal Hbl Hel [Hy1 Hy2] [Ha1 Ha2] [Hr1 Hr2] Hup Hlow.
  assert (Hy : 0 < y) by nra.
  assert (Ha : 0 < a) by nra.
  set (q := a / y) in *.
  assert (Hq : q * y = a) by (subst q; field; lra).
  assert (Hqpos : 0 < q) by nra.
  set (T := Nr * K / n).
  assert (HT : T * n = Nr * K) by (subst T; field; lra).
  assert (HTpos : 0 < T) by nra.
  assert (Hcu : 0 < cu) by nra.
  assert (Hbu : 0 < bu) by nra.
  assert (HKbl : 0 < K * bl) by (apply Rmult_lt_0_compat; lra).
  assert (HKbu : 0 < K * bu) by (apply Rmult_lt_0_compat; lra).
  assert (HNK : 0 < Nr * K) by (apply Rmult_lt_0_compat; lra).
  assert (Hncu : 0 < n * cu) by (apply Rmult_lt_0_compat; lra).
  assert (Hncl : 0 < n * cl) by (apply Rmult_lt_0_compat; lra).
  assert (Hqbl : 0 < q * bl) by (apply Rmult_lt_0_compat; lra).
  assert (Hqbu : 0 < q * bu) by (apply Rmult_lt_0_compat; lra).
  split.
  - apply Rle_trans with (q * bl); [|exact Hr1].
    apply (Rmult_le_reg_r (n * cu)); [exact Hncu|].
    assert (H1 : T * el * (n * cu) = Nr * K * (el * cu))
      by (rewrite <- HT; ring).
    assert (H2 : Nr * K * (el * cu) <= Nr * K * (al * bl))
      by (apply Rmult_le_compat_l; lra).
    assert (H3 : Nr * al * (K * bl) <= a * (K * bl))
      by (apply Rmult_le_compat_r; lra).
    assert (H4 : a * (K * bl) = q * bl * (y * K)) by (rewrite <- Hq; ring).
    assert (H5 : q * bl * (y * K) <= q * bl * (n * cu))
      by (apply Rmult_le_compat_l; lra).
    rewrite H1.
    apply Rle_trans with (Nr * K * (al * bl)); [exact H2|].
    replace (Nr * K * (al * bl)) with (Nr * al * (K * bl)) by ring.
    apply Rle_trans with (a * (K * bl)); [exact H3|].
    rewrite H4. exact H5.
  - apply Rle_trans with (q * bu); [exact Hr2|].
    apply (Rmult_le_reg_r (n * cl)); [exact Hncl|].
    assert (H1 : T * eu * (n * cl) = Nr * K * (eu * cl))
      by (rewrite <- HT; ring).
    assert (H2 : Nr * K * (au * bu) <= Nr * K * (eu * cl))
      by (apply Rmult_le_compat_l; lra).
    assert (H3 : a * (K * bu) <= Nr * au * (K * bu))
      by (apply Rmult_le_compat_r; lra).
    assert (H4 : a * (K * bu) = q * bu * (y * K)) by (rewrite <- Hq; ring).
    assert (H5 : q * bu * (n * cl) <= q * bu * (y * K))
      by (apply Rmult_le_compat_l; lra).
    rewrite H1.
    apply Rle_trans with (Nr * K * (au * bu)); [|exact H2].
    replace (Nr * K * (au * bu)) with (Nr * au * (K * bu)) by ring.
    apply Rle_trans with (a * (K * bu)); [|exact H3].
    rewrite H4. exact H5.
Qed.

(** Two conversions and four divisions stay within one part in [2^19]. *)
Lemma budget_constants :
  (1 + / 8388608) * (1 + / 4194304)
  <= (1 + / 524288)
     * ((1 - / 8388608) * (1 - / 4194304) * (1 - / 4194304) * (1 - / 4194304))
  /\
  (1 - / 524288)
    * ((1 + / 8388608) * (1 + / 4194304) * (1 + / 4194304) * (1 + / 4194304))
  <= (1 - / 8388608) * (1 - / 4194304).
Proof. split; lra. Qed.

(** Three divisions by 1000. *)
Lemma seconds_chain (n y0 y1 y2 y3 : R) :
  0 < n ->
  n * (1 - / 8388608) <= y0 <= n * (1 + / 8388608) ->
  y0 / 1000 * (1 - / 4194304) <= y1 <= y0 / 1000 * (1 + / 4194304) ->
  y1 / 1000 * (1 - / 4194304) <= y2 <= y1 / 1000 * (1 + / 4194304) ->
  y2 / 1000 * (1 - / 4194304) <= y3 <= y2 / 1000 * (1 + / 4194304) ->
  n * ((1 - / 8388608) * (1 - / 4194304) * (1 - / 4194304) * (1 - / 4194304))
    <= y3 * 1000000000
    <= n * ((1 + / 8388608) * (1 + / 4194304) * (1 + / 4194304)
              * (1 + / 4194304)).
Proof. intros Hn H0 H1 H2 H3. split; lra. Qed.

(** X19.  [CalculateSpeed] computes the whole mebibytes per second of the
    trial up to the rounding of its six [float] operations: for a
    positive elapsed time [ns] and [N >= 1] whole mebibytes, the value
    returned is within one part in [2^19] (less than two in a million)
    of [N * 10^9 / ns]. *)
Theorem CalculateSpeed_accuracy (portion : Portion) (threadsCount ns : Z) :
  (0 < ns < 2 ^ 64)%Z ->
  (0 < u64 (u64 (size portion * g_portionsCount) * threadsCount)
         / 1024 / 1024)%Z ->
  exists m e,
    CalculateSpeed portion threadsCount ns = S754_finite false m e /\
    IZR (u64 (u64 (size portion * g_portionsCount) * threadsCount)
           / 1024 / 1024) * 1000000000 / IZR ns * (1 - / 524288)
      <= F2R (Z.pos m) e
      <= IZR (u64 (u64 (size portion * g_portionsCount) * threadsCount)
                / 1024 / 1024) * 1000000000 / IZR ns * (1 + / 524288).
Proof.
  intros Hns HN. unfold CalculateSpeed.
  pose proof (whole_MiB_range (size portion) threadsCount) as Hrange.
  set (N := (u64 (u64 (size portion * g_portionsCount) * threadsCount)
               / 1024 / 1024)%Z) in *.
  clearbody N.
  destruct (f32_of_Z_close ns 64 Hns ltac:(lia))
    as (m0 & e0 & -> & Hm0 & He0 & Hv0).
  destruct (div_thousand_close m0 e0 Hm0 ltac:(lia))
    as (m1 & e1 & -> & Hm1 & He1 & Hv1).
  destruct (div_thousand_close m1 e1 Hm1 ltac:(lia))
    as (m2 & e2 & -> & Hm2 & He2 & Hv2).
  destruct (div_thousand_close m2 e2 Hm2 ltac:(lia))
    as (m3 & e3 & -> & Hm3 & He3 & Hv3).
  destruct (f32_of_Z_close N 44 ltac:(lia) ltac:(lia))
    as (ma & ea & -> & Hma & Hea & Hva).
  destruct (f32_div_close ma m3 ea e3 Hma Hm3 ltac:(lia) ltac:(lia))
    as (m & e & -> & Hm & He & Hv).
  exists m, e. split; [reflexivity|].
  change (/ IZR (2 ^ 23)) with (/ 8388608) in *.
  change (/ IZR (2 ^ 22)) with (/ 4194304) in *.
  assert (Hn : 0 < IZR ns) by (apply IZR_lt; lia).
  assert (HNr : 0 < IZR N) by (apply IZR_lt; lia).
  pose proof (seconds_chain (IZR ns) _ _ _ _ Hn Hv0 Hv1 Hv2 Hv3) as Hy3.
  destruct budget_constants as [Hup Hlow].
  apply (ratio_bounds (IZR ns) (IZR N) (F2R (Z.pos m3) e3)
           (F2R (Z.pos ma) ea) (F2R (Z.pos m) e) 1000000000
           ((1 - / 8388608) * (1 - / 4194304) * (1 - / 4194304)
              * (1 - / 4194304))
           ((1 + / 8388608) * (1 + / 4194304) * (1 + / 4194304)
              * (1 + / 4194304))
           (1 - / 8388608) (1 + / 8388608)
           (1 - / 4194304) (1 + / 4194304));
    try assumption; lra.
Qed.

Lemma CalculateSpeed_accuracy_witness :
  exists m e,
    CalculateSpeed three_bytes 40000 1000 = S754_finite false m e /\
    IZR (u64 (u64 (size three_bytes * g_portionsCount) * 40000) / 1024 / 1024)
      * 1000000000 / IZR 1000 * (1 - / 524288)
      <= F2R (Z.pos m) e
      <= IZR (u64 (u64 (size three_bytes * g_portionsCount) * 40000)
                / 1024 / 1024) * 1000000000 / IZR 1000 * (1 + / 524288).
Proof.
  apply (CalculateSpeed_accuracy three_bytes 40000 1000).
  - lia.
  - vm_compute. reflexivity.
Defined.


(* ===================================================================== *)
(** ** The accuracy of the calibration *)

(** The product of two normal floats, away from overflow and underflow,
    is off by at most one part in [2^23]. *)
Lemma f32_mul_close (m1 m2 : positive) (e1 e2 : Z) :
  (2 ^ 23 <= Z.pos m1 < 2 ^ 24)%Z -> (2 ^ 23 <= Z.pos m2 < 2 ^ 24)%Z ->
  (-149 < e1 + e2 + 23)%Z -> (e1 + e2 + 24 < 104)%Z ->
  exists m e,
    f32_mul (S754_finite false m1 e1) (S754_finite false m2 e2)
    = S754_finite false m e /\
    F2R (Z.pos m1) e1 * F2R (Z.pos m2) e2 * (1 - / 8388608)
      <= F2R (Z.pos m) e
      <= F2R (Z.pos m1) e1 * F2R (Z.pos m2) e2 * (1 + / 8388608).
Proof.
  intros H1 H2 Hlow Hhigh. unfold f32_mul, SFmul. cbn [xorb].
  rewrite Pos2Z.inj_mul, <- F2R_mul.
  set (P := (Z.pos m1 * Z.pos m2)%Z). set (e := (e1 + e2)%Z) in *.
  assert (HP : (2 ^ 46 <= P < 2 ^ 48)%Z) by (subst P; nia).
  pose proof (Zdigits2_ge P 47 ltac:(lia) ltac:(lia)) as Hd1.
  pose proof (Zdigits2_le P 48 ltac:(lia) ltac:(lia)) as Hd2.
  assert (Hs : shift_of P e = (Zdigits2 P - 24)%Z)
    by (unfold shift_of; rewrite fexp_eq; lia).
  destruct (binary_round_aux_spec false P e loc_Exact ltac:(lia) ltac:(lia))
    as (mr & -> & Hmr & Hrange & _ & _).
  destruct (shift_of_bounds P e ltac:(lia) ltac:(lia)) as (_ & _ & Hnormal).
  specialize (Hnormal ltac:(lia) ltac:(lia)).
  destruct (result_of_normal false mr (e + shift_of P e) ltac:(lia))
    as [(m & e' & -> & _ & _ & _ & Hval) | [_ Hover]]; [|lia].
  exists m, e'. split; [reflexivity|]. rewrite Hval.
  rewrite <- F2R_shift by lia.
  set (s := shift_of P e) in *.
  assert (Hpow : (0 < 2 ^ s)%Z) by (apply Z.pow_pos_nonneg; lia).
  pose proof (Z.div_mod P (2 ^ s) ltac:(lia)) as Hdm.
  pose proof (Z.mod_pos_bound P (2 ^ s) Hpow) as Hmod.
  assert (Hint : (P * 2 ^ 23 - P <= mr * 2 ^ s * 2 ^ 23
                  <= P * 2 ^ 23 + P)%Z).
  { change (2 ^ 23)%Z with 8388608%Z in *. nia. }
  apply (IZR_rel_bounds P (mr * 2 ^ s) (2 ^ 23) ltac:(lia)) in Hint.
  change (/ IZR (2 ^ 23)) with (/ 8388608) in Hint.
  unfold F2R. pose proof (bpow_gt_0 e) as He.
  split; nra.
Qed.

(** [static_cast<size_t>] rounds a positive value down. *)
Lemma f32_to_size_t_floor (m : positive) (e v : Z) :
  f32_to_size_t (S754_finite false m e) = Some v ->
  IZR v <= F2R (Z.pos m) e < IZR v + 1.
Proof.
  unfold f32_to_size_t.
  destruct (Z.leb_spec 0 e) as [He|He].
  - destruct (_ <? 2 ^ 64)%Z; [|discriminate]. intros Hsome.
    assert (Hv : v = (Z.pos m * 2 ^ e)%Z) by congruence.
    subst v. clear Hsome.
    assert (Heq : IZR (Z.pos m * 2 ^ e) = F2R (Z.pos m) e).
    { rewrite <- (F2R_0 (Z.pos m * 2 ^ e)). rewrite F2R_shift by lia.
      now rewrite Z.add_0_l. }
    rewrite Heq. lra.
  - destruct (_ <? 2 ^ 64)%Z; [|discriminate]. intros Hsome.
    assert (Hv0 : v = (Z.pos m / 2 ^ (- e))%Z) by congruence.
    subst v. clear Hsome.
    set (k := (- e)%Z).
    assert (Hpow : (0 < 2 ^ k)%Z) by (apply Z.pow_pos_nonneg; lia).
    pose proof (Z.div_mod (Z.pos m) (2 ^ k) ltac:(lia)) as Hdm.
    pose proof (Z.mod_pos_bound (Z.pos m) (2 ^ k) Hpow) as Hmod.
    set (v := (Z.pos m / 2 ^ k)%Z) in *.
    assert (Hv : forall x, IZR x = F2R (x * 2 ^ k) e).
    { intros x. rewrite F2R_shift by lia.
      replace (e + k)%Z with 0%Z by lia. symmetry. apply F2R_0. }
    rewrite <- plus_IZR, (Hv v), (Hv (v + 1)%Z).
    split; [apply F2R_le | apply F2R_lt]; lia.
Qed.

Lemma two_value : F2R 8388608 (-22) = 2.
Proof.
  change 8388608%Z with (2 * 2 ^ 22)%Z.
  rewrite F2R_shift by lia. change (-22 + 22)%Z with 0%Z. apply F2R_0.
Qed.

Lemma billion_value : F2R 15625000 6 = 1000000000.
Proof.
  change 6%Z with (0 + 6)%Z. rewrite <- F2R_shift by lia.
  rewrite F2R_0. reflexivity.
Qed.

Lemma calibration_constants :
  1 * (1 + / 4194304)
  <= (1 + / 1048576) * ((1 - / 8388608) * (1 - / 4194304)) /\
  (1 - / 1048576) * ((1 + / 8388608) * (1 + / 4194304))
  <= 1 * (1 - / 4194304) /\
  (1 + / 1048576) * (1 + / 8388608) * (1 + / 8388608) <= 1 + / 524288 /\
  1 - / 524288 <= (1 - / 1048576) * (1 - / 8388608) * (1 - / 8388608).
Proof. repeat split; lra. Qed.

(** The product of two bounded positive reals. *)
Lemma product_bounds (x y xl xu yl yu : R) :
  0 < xl -> 0 < yl -> xl <= x <= xu -> yl <= y <= yu ->
  xl * yl <= x * y <= xu * yu.
Proof.
  intros Hxl Hyl [Hx1 Hx2] [Hy1 Hy2]. split.
  - apply Rmult_le_compat; lra.
  - apply Rmult_le_compat; lra.
Qed.

(** The size the calibration computes, up to the rounding of its five
    [float] operations and the truncation. *)
Lemma calibrated_size_accuracy (sz t n : Z) :
  (0 < sz < 2 ^ 64)%Z -> (0 < t < 2 ^ 64)%Z ->
  f32_ltb g_maxTestDuration (seconds_of t) = true ->
  calibrated_size sz t = Some n ->
  IZR sz * 2000000000 / IZR t * (1 - / 524288) - 1 < IZR n
    <= IZR sz * 2000000000 / IZR t * (1 + / 524288).
Proof.
  intros Hsz Ht Hlt. unfold calibrated_size. rewrite Hlt. clear Hlt.
  unfold seconds_of. rewrite billion_eq, two_eq.
  destruct (f32_of_Z_close t 64 Ht ltac:(lia))
    as (m0 & e0 & -> & Hm0 & He0 & Hv0).
  destruct (f32_div_close m0 15625000 e0 6 Hm0 ltac:(lia) ltac:(lia)
              ltac:(lia)) as (ms & es & -> & Hms & Hes & Hvs).
  destruct (f32_div_close 8388608 ms (-22) es ltac:(lia) Hms ltac:(lia)
              ltac:(lia)) as (mq & eq & -> & Hmq & Heq & Hvq).
  destruct (f32_of_Z_close sz 64 Hsz ltac:(lia))
    as (mF & eF & -> & HmF & HeF & HvF).
  destruct (f32_mul_close mq mF eq eF Hmq HmF ltac:(lia) ltac:(lia))
    as (mp & ep & -> & Hvp).
  intros Hn. apply f32_to_size_t_floor in Hn.
  change (Z.pos 15625000) with 15625000%Z in Hvs.
  change (Z.pos 8388608) with 8388608%Z in Hvq.
  rewrite billion_value in Hvs. rewrite two_value in Hvq.
  change (/ IZR (2 ^ 23)) with (/ 8388608) in *.
  change (/ IZR (2 ^ 22)) with (/ 4194304) in *.
  assert (Ht0 : 0 < IZR t) by (apply IZR_lt; lia).
  assert (Hsz0 : 0 < IZR sz) by (apply IZR_lt; lia).
  set (st := F2R (Z.pos m0) e0) in *. set (secs := F2R (Z.pos ms) es) in *.
  set (q := F2R (Z.pos mq) eq) in *. set (F := F2R (Z.pos mF) eF) in *.
  set (p := F2R (Z.pos mp) ep) in *.
  clearbody st secs q F p.
  destruct calibration_constants as (Hc1 & Hc2 & Hc3 & Hc4).
  assert (Hsecs : IZR t * ((1 - / 8388608) * (1 - / 4194304))
                  <= secs * 1000000000
                  <= IZR t * ((1 + / 8388608) * (1 + / 4194304)))
    by (split; lra).
  pose proof (ratio_bounds (IZR t) 2 secs 2 q 1000000000
                ((1 - / 8388608) * (1 - / 4194304))
                ((1 + / 8388608) * (1 + / 4194304))
                1 1 (1 - / 4194304) (1 + / 4194304)
                (1 - / 1048576) (1 + / 1048576)
                Ht0 ltac:(lra) ltac:(lra) ltac:(lra) ltac:(lra) ltac:(lra)
                ltac:(lra) Hsecs ltac:(lra) Hvq Hc1 Hc2) as Hq.
  set (X2 := 2 * 1000000000 / IZR t) in *.
  assert (HX2 : 0 < X2).
  { subst X2. apply Rdiv_lt_0_compat; lra. }
  assert (HX : IZR sz * 2000000000 / IZR t = X2 * IZR sz)
    by (subst X2; field; lra).
  rewrite HX.
  pose proof (product_bounds q F (X2 * (1 - / 1048576)) (X2 * (1 + / 1048576))
                (IZR sz * (1 - / 8388608)) (IZR sz * (1 + / 8388608))
                ltac:(nra) ltac:(nra) Hq HvF) as HqF.
  set (qF := q * F) in *. clearbody qF.
  set (Y := X2 * IZR sz).
  assert (HY : 0 < Y) by (subst Y; nra).
  assert (Hlo : Y * ((1 - / 1048576) * (1 - / 8388608)) <= qF).
  { subst Y. destruct HqF as [H _].
    replace (X2 * IZR sz * ((1 - / 1048576) * (1 - / 8388608)))
      with (X2 * (1 - / 1048576) * (IZR sz * (1 - / 8388608))) by ring.
    exact H. }
  assert (Hhi : qF <= Y * ((1 + / 1048576) * (1 + / 8388608))).
  { subst Y. destruct HqF as [_ H].
    replace (X2 * IZR sz * ((1 + / 1048576) * (1 + / 8388608)))
      with (X2 * (1 + / 1048576) * (IZR sz * (1 + / 8388608))) by ring.
    exact H. }
  assert (HqFpos : 0 < qF) by nra.
  assert (Hp1 : Y * (1 - / 524288) <= p).
  { apply Rle_trans with (qF * (1 - / 8388608)); [|lra].
    apply Rle_trans
      with (Y * ((1 - / 1048576) * (1 - / 8388608)) * (1 - / 8388608)).
    - replace (Y * ((1 - / 1048576) * (1 - / 8388608)) * (1 - / 8388608))
        with (Y * ((1 - / 1048576) * (1 - / 8388608) * (1 - / 8388608)))
        by ring.
      apply Rmult_le_compat_l; lra.
    - apply Rmult_le_compat_r; lra. }
  assert (Hp2 : p <= Y * (1 + / 524288)).
  { apply Rle_trans with (qF * (1 + / 8388608)); [lra|].
    apply Rle_trans
      with (Y * ((1 + / 1048576) * (1 + / 8388608)) * (1 + / 8388608)).
    - apply Rmult_le_compat_r; lra.
    - replace (Y * ((1 + / 1048576) * (1 + / 8388608)) * (1 + / 8388608))
        with (Y * ((1 + / 1048576) * (1 + / 8388608) * (1 + / 8388608)))
        by ring.
      apply Rmult_le_compat_l; lra. }
  lra.
Qed.

(** X20.  The calibration aims at the budget.  When the calibration run of a
    block of [size] bytes took [t] nanoseconds, more than the budget,
    the new size is [size * 2 * 10^9 / t] (the size that would be
    written in 2 s at the measured speed) rounded down, up to the
    rounding of the five [float] operations: it is within one part in
    [2^19] of that value, less the truncation. *)
Theorem calibration_accuracy (o : FileOracle) (dirPath : string)
  (portion portion' : Portion) (t : Z) :
  (0 < size portion < 2 ^ 64)%Z -> (0 < t < 2 ^ 64)%Z ->
  f32_ltb g_maxTestDuration (seconds_of t) = true ->
  TestDriveWriteFirst o dirPath portion = Returns (t, portion') ->
  IZR (size portion) * 2000000000 / IZR t * (1 - / 524288) - 1
    < IZR (size portion')
    <= IZR (size portion) * 2000000000 / IZR t * (1 + / 524288).
Proof.
  intros Hsz Ht Hlt. rewrite TestDriveWriteFirst_unfold.
  destruct (WriteTestFile_outcome o _ (size portion)) as [t0|what];
    [|discriminate].
  destruct (f32_ltb g_maxTestDuration (seconds_of t0)) eqn:Hlt0.
  - destruct (calibrated_size (size portion) t0) as [n|] eqn:Hcal;
      [|discriminate].
    intros Hret.
    assert (Heq : t0 = t /\ resize n portion = portion')
      by (split; congruence).
    destruct Heq as [-> <-]. clear Hret.
    assert (Hn : (0 <= n)%Z).
    { unfold calibrated_size in Hcal. rewrite Hlt in Hcal.
      apply f32_to_size_t_range in Hcal. lia. }
    rewrite size_resize by exact Hn.
    now apply calibrated_size_accuracy.
  - intros Hret. assert (t0 = t) by congruence. subst t0. congruence.
Qed.

Lemma calibration_accuracy_witness :
  IZR (size hundred_bytes) * 2000000000 / IZR 4000000000 * (1 - / 524288) - 1
    < IZR (size (resize 50 hundred_bytes))
    <= IZR (size hundred_bytes) * 2000000000 / IZR 4000000000
       * (1 + / 524288).
Proof.
  apply (calibration_accuracy (steady_oracle 100 400000000 0) "x:"
           hundred_bytes (resize 50 hundred_bytes) 4000000000).
  - vm_compute. split; reflexivity.
  - lia.
  - vm_compute. reflexivity.
  - rewrite TestDriveWriteFirst_unfold. vm_compute. reflexivity.
Defined.

Local Close Scope R_scope.

(* ===================================================================== *)
(** ** The calibration that empties the block *)

Local Open Scope R_scope.

(** An elapsed time above [2 * size * (1 + 2^-19)] seconds leaves no
    byte: the rounding of the five [float] operations cannot lift the
    product to 1. *)
Lemma calibrated_size_zero_above (sz t : Z) :
  (0 < sz < 2 ^ 64)%Z -> (t < 2 ^ 64)%Z ->
  (2 * sz * 1000000000 * 524289 < t * 524288)%Z ->
  f32_ltb g_maxTestDuration (seconds_of t) = true /\
  calibrated_size sz t = Some 0%Z.
Proof.
  intros Hsz Ht64 Hlong.
  assert (Ht : (0 < t < 2 ^ 64)%Z) by lia.
  assert (Ht0 : 0 < IZR t) by (apply IZR_lt; lia).
  assert (Hsz1 : 1 <= IZR sz) by (apply IZR_le; lia).
  assert (HlongR : 2 * IZR sz * 1000000000 * 524289 < IZR t * 524288).
  { apply IZR_lt in Hlong.
    rewrite !mult_IZR in Hlong. exact Hlong. }
  assert (Hlt : f32_ltb g_maxTestDuration (seconds_of t) = true).
  { unfold seconds_of. rewrite billion_eq, two_eq.
    destruct (f32_of_Z_close t 64 Ht ltac:(lia))
      as (m0 & e0 & -> & Hm0 & He0 & Hv0).
    destruct (f32_div_close m0 15625000 e0 6 Hm0 ltac:(lia) ltac:(lia)
                ltac:(lia)) as (ms & es & -> & Hms & Hes & Hvs).
    apply f32_ltb_of_values; [lia | exact Hms |].
    change (Z.pos 15625000) with 15625000%Z in Hvs.
    change (Z.pos 8388608) with 8388608%Z.
    rewrite billion_value in Hvs. rewrite two_value.
    change (/ IZR (2 ^ 23)) with (/ 8388608) in *.
    change (/ IZR (2 ^ 22)) with (/ 4194304) in *.
    set (st := F2R (Z.pos m0) e0) in *. set (secs := F2R (Z.pos ms) es) in *.
    clearbody st secs.
    assert (Hst : 2000000000 * (1 + / 1048576) <= st) by lra.
    lra. }
  split; [exact Hlt|].
  destruct (calibrated_size_shrinks sz t ltac:(lia)) as (n & Hn & Hn0 & _).
  rewrite Hn. f_equal.
  pose proof (calibrated_size_accuracy sz t n Hsz Ht Hlt Hn) as [_ Hup].
  assert (Hone : IZR sz * 2000000000 / IZR t * (1 + / 524288) < 1).
  { apply (Rmult_lt_reg_r (IZR t * 524288)); [lra|].
    replace (IZR sz * 2000000000 / IZR t * (1 + / 524288) * (IZR t * 524288))
      with (2 * IZR sz * 1000000000 * 524289) by (field; lra).
    lra. }
  assert (Hn1 : (n < 1)%Z) by (apply lt_IZR; lra).
  lia.
Qed.

Local Close Scope R_scope.

(** C9, as the specification states it, fails: a block of 3 bytes whose
    calibration run takes 6.00000001 s, more than [2 * 3] seconds, is
    left with 1 byte.  In single precision the elapsed seconds are
    [6.0f], and [(2.0f / 6.0f) * 3.0f] is [1.0f]. *)
Lemma calibration_empties_as_claimed_counterexample :
  ~ calibration_empties_as_claimed.
Proof.
  intros H.
  specialize (H (steady_oracle 3 600000001 0) "x:"%string three_bytes
                (resize 1 three_bytes) 6000000010).
  vm_compute in H.
  specialize (H eq_refl eq_refl eq_refl). discriminate.
Qed.

(** The same with the block of the program, one nanosecond above
    [2 * 104857600] seconds. *)
Example one_byte_left :
  (2 * g_portionSize * 1000000000 < 209715200000000001)%Z /\
  calibrated_size g_portionSize 209715200000000001 = Some 1 /\
  calibrated_size 3 6000000001 = Some 1 /\
  calibrated_size 31 62000004000 = Some 1.
Proof. repeat split; vm_compute; reflexivity. Qed.

(** C9, amended.  The calibration can leave the block empty: with the
    block of the program, an elapsed time of 3 * 10^17 ns (which fits
    the 64-bit duration) gives the size 0.  The size becomes 0 for every
    elapsed time above [2 * size * (1 + 2^-19)] seconds, and
    [TestDriveWriteFirst] then returns with the empty block; at elapsed
    times between [2 * size] seconds and that bound the rounding of the
    [float] operations decides, and one byte may be left.  In terms of
    the values the code computes, the size becomes 0 whenever the
    elapsed seconds exceed the budget and the single-precision product
    [(2.0f / seconds) * float(size)] is below 1.  The calibrated size
    is never negative.  And the sweep is then run with the block of
    size 0: the run of [TestDriveWrite] is the sweep over a zero-byte
    block, as the run in [very_slow_env] shows, which is still going on
    after the trials at 2, 3 and 4 threads, each with throughput 0. *)
Theorem calibration_can_empty_the_block :
  (0 < 300000000000000000 < 2 ^ 63 /\
   calibrated_size g_portionSize 300000000000000000 = Some 0) /\
  (forall sz t,
     0 < sz < 2 ^ 64 -> t < 2 ^ 64 ->
     2 * sz * 1000000000 * 524289 < t * 524288 ->
     calibrated_size sz t = Some 0) /\
  (forall o dirPath p t,
     0 < size p < 2 ^ 64 -> t < 2 ^ 64 ->
     WriteTestFile_outcome o (path_append dirPath "single_thread") (size p)
     = Ok t ->
     2 * size p * 1000000000 * 524289 < t * 524288 ->
     TestDriveWriteFirst o dirPath p = Returns (t, [])) /\
  (forall sz t,
     0 <= sz < 2 ^ 64 ->
     f32_ltb g_maxTestDuration (seconds_of t) = true ->
     f32_ltb
       (f32_mul (f32_div g_maxTestDuration (seconds_of t)) (f32_of_Z sz))
       (f32_of_Z 1) = true ->
     calibrated_size sz t = Some 0) /\
  (forall sz t n, 0 <= sz -> calibrated_size sz t = Some n -> 0 <= n) /\
  (forall env dirPath fuel t,
     WriteTestFile_outcome (first_oracle env)
       (path_append dirPath "single_thread") g_portionSize = Ok t ->
     calibrated_size g_portionSize t = Some 0 ->
     TestDriveWrite env dirPath fuel
     = sweep_loop (trial_of_size env dirPath 0) fuel 0 2
         (speed_of_size 0 1 (u64 t))) /\
  TestDriveWrite very_slow_env "x:" 3
  = (None,
     [LogTrial 2 [1000; 1000] 1000 (S754_zero false) (S754_zero false) 0 0;
      LogTrial 3 [1000; 1000; 1000] 1000 (S754_zero false) (S754_zero false)
        0 0;
      LogTrial 4 [1000; 1000; 1000; 1000] 1000 (S754_zero false)
        (S754_zero false) 0 0]).
Proof.
  split; [|split; [|split; [|split; [|split; [|split]]]]].
  - split; [lia | vm_compute; reflexivity].
  - intros sz t Hsz Ht Hlong.
    exact (proj2 (calibrated_size_zero_above sz t Hsz Ht Hlong)).
  - intros o dirPath p t Hsz Ht Hfirst Hlong.
    destruct (calibrated_size_zero_above (size p) t Hsz Ht Hlong)
      as [Hlt Hzero].
    rewrite TestDriveWriteFirst_unfold, Hfirst, Hlt, Hzero.
    reflexivity.
  - exact calibrated_size_zero.
  - intros sz t n Hsz. unfold calibrated_size.
    destruct (f32_ltb g_maxTestDuration (seconds_of t)).
    + intros H. apply f32_to_size_t_range in H. lia.
    + intros [= <-]. exact Hsz.
  - intros env dirPath fuel t Hfirst Hcal.
    rewrite TestDriveWrite_by_size. unfold TestDriveWrite_of_size.
    now rewrite Hfirst, Hcal.
  - rewrite TestDriveWrite_by_size. vm_compute. reflexivity.
Qed.
